(** * The rr trace stream (src/TraceStream.cc): a shallow embedding

    The trace is a directory with one file per substream plus a version
    file.  [TraceWriter] appends records, [TraceReader] reads them back
    in recording order; the frame clock [global_time] joins the
    substreams.

    Binary substreams (events, data_header, data, generic) are byte
    sequences: [stream << v] copies the object representation of [v],
    [stream >> v] copies it back.  The structured substreams (mmaps,
    tasks) and the header of the version file hold capnp messages; the
    capnp packing is a library of its own, so such a stream is the
    sequence of messages it holds.  The block compressor is likewise
    transparent: a substream reads back what was written to it.

    The functions of [TraceStream.cc] are embedded one by one and keep
    their names.  What they use from other files of rr (the substream
    readers and writers, the classes of the records, the capnp schema)
    is modelled from the specification and marked so; what they call
    in collaborators whose behaviour the trace stream does not fix
    (events, extra registers, the system calls) is a parameter.  Sizes
    are those of an x86-64 build.  The clock and [mmap_count] are
    integers that do not overflow (overflow of a signed integer is
    undefined in the source). *)

From Stdlib Require Import ZArith List String Ascii Bool Lia.
From Stdlib Require Import Strings.Byte DecimalString DecimalPos Sorting.Sorted.
From stdpp Require Import base option list strings gmap.

Import ListNotations.
Open Scope Z_scope.

(** ** Ways a call can end

    [FATAL() << msg] aborts with a diagnostic, a failed [assert] aborts,
    [exit(status)] leaves with a status after printing to stderr, capnp
    throws when it cannot decode (nothing catches it on the read side),
    and a raw read past the end of a substream has no defined result in
    the code (the model stops there). *)

Inductive outcome (A : Type) : Type :=
| Ok (a : A)
| Fatal (msg : string)
| AssertFail (cond : string)
| Exit (status : Z) (msg : string)
| Throw (what : string)
| ShortRead.

Arguments Ok {A} a.
Arguments Fatal {A} msg.
Arguments AssertFail {A} cond.
Arguments Exit {A} status msg.
Arguments Throw {A} what.
Arguments ShortRead {A}.

#[global] Instance outcome_ret : MRet outcome := fun _ a => Ok a.
#[global] Instance outcome_bind : MBind outcome := fun _ _ k m =>
  match m with
  | Ok a => k a
  | Fatal msg => Fatal msg
  | AssertFail c => AssertFail c
  | Exit s msg => Exit s msg
  | Throw what => Throw what
  | ShortRead => ShortRead
  end.

Definition c_assert (b : bool) (cond : string) : outcome unit :=
  if b then Ok tt else AssertFail cond.

(** ** Object representations

    Modelled from the spec: the templates [operator<<] and [operator>>]
    of the substream writer and reader are not in [TraceStream.cc]; the
    binary layouts of the specification are the native ones, and rr
    records and replays on x86 and x86-64 only, so streaming an integer
    copies its little-endian two's complement bytes. *)

Definition byte_of_Z (v : Z) : byte :=
  match Byte.of_N (Z.to_N (v mod 256)) with
  | Some b => b
  | None => Byte.x00
  end.

Definition Z_of_byte (b : byte) : Z := Z.of_N (Byte.to_N b).

Fixpoint le_encode (n : nat) (v : Z) : list byte :=
  match n with
  | O => []
  | S n' => byte_of_Z v :: le_encode n' (v / 256)
  end.

Fixpoint le_decode (bs : list byte) : Z :=
  match bs with
  | [] => 0
  | b :: bs' => Z_of_byte b + 256 * le_decode bs'
  end.

(** The scalar types [TraceStream.cc] streams. *)
Inductive ctype : Type :=
| c_char      (* char: arch tag, extra register format *)
| c_int       (* int, pid_t *)
| c_int64     (* FrameTime, Ticks *)
| c_size_t    (* size_t, uintptr_t *)
| c_double.   (* double, kept as its 64 bit pattern *)

Definition sizeof (t : ctype) : nat :=
  match t with
  | c_char => 1
  | c_int => 4
  | c_int64 | c_size_t | c_double => 8
  end%nat.

Definition is_signed (t : ctype) : bool :=
  match t with
  | c_char | c_int | c_int64 => true
  | c_size_t | c_double => false
  end.

Definition modulus (t : ctype) : Z := 256 ^ Z.of_nat (sizeof t).

(** The values a [t] holds. *)
Definition in_range (t : ctype) (v : Z) : Prop :=
  if is_signed t then - (modulus t / 2) <= v < modulus t / 2
  else 0 <= v < modulus t.

(** Conversion to [t], as a C cast does it on these targets. *)
Definition cast (t : ctype) (v : Z) : Z :=
  let u := v mod modulus t in
  if is_signed t && (modulus t / 2 <=? u) then u - modulus t else u.

Definition put (t : ctype) (v : Z) : list byte := le_encode (sizeof t) v.
Definition get (t : ctype) (bs : list byte) : Z := cast t (le_decode bs).

(** ** Substreams

    Modelled from the spec: [CompressedWriter] and [CompressedReader]
    belong to the block compressor, which is not in [TraceStream.cc].
    Within a substream writes are strictly ordered and a reader gets
    them back in that order; the cursor of a reader is saved and
    restored by an explicit checkpoint on the decoder.  A writer holds
    what was written and its error flag; a reader holds what is still
    to be read (its cursor) and the checkpoint kept by [save_state]. *)

Record CompressedWriter (A : Type) : Type := {
  cw_data : list A;
  cw_good : bool
}.
Arguments cw_data {A} _.
Arguments cw_good {A} _.

Definition cw_open {A} : CompressedWriter A := {| cw_data := []; cw_good := true |}.

(** Modelled from the spec: [CompressedWriter::write] appends to the
    substream; a writer in error takes nothing more. *)
Definition cw_write {A} (xs : list A) (w : CompressedWriter A) : CompressedWriter A :=
  if cw_good w then {| cw_data := cw_data w ++ xs; cw_good := true |} else w.

Record CompressedReader (A : Type) : Type := {
  rd_rest : list A;
  rd_saved : option (list A)
}.
Arguments rd_rest {A} _.
Arguments rd_saved {A} _.

(** Modelled from the spec: a [CompressedReader] opened on a file starts
    at its beginning, with no checkpoint. *)
Definition rd_open {A} (contents : list A) : CompressedReader A :=
  {| rd_rest := contents; rd_saved := None |}.

(** Modelled from the spec: [CompressedReader::at_end]. *)
Definition rd_at_end {A} (r : CompressedReader A) : bool :=
  match rd_rest r with [] => true | _ :: _ => false end.

(** Modelled from the spec: [CompressedReader::save_state] keeps a
    checkpoint of the cursor. *)
Definition save_state {A} (r : CompressedReader A) : CompressedReader A :=
  {| rd_rest := rd_rest r; rd_saved := Some (rd_rest r) |}.

(** Modelled from the spec: [CompressedReader::restore_state] rolls the
    cursor back to the checkpoint and drops it. *)
Definition restore_state {A} (r : CompressedReader A) : CompressedReader A :=
  match rd_saved r with
  | Some s => {| rd_rest := s; rd_saved := None |}
  | None => r
  end.

(** Modelled from the spec: [CompressedReader::discard_state] drops the
    checkpoint and keeps the cursor. *)
Definition discard_state {A} (r : CompressedReader A) : CompressedReader A :=
  {| rd_rest := rd_rest r; rd_saved := None |}.

(** Modelled from the spec: [CompressedReader::read(buf, n)] hands out
    the next [n] bytes; with fewer left the read fails. *)
Definition rd_read {A} (n : nat) (r : CompressedReader A)
  : outcome (list A * CompressedReader A) :=
  if (length (rd_rest r) <? n)%nat then ShortRead
  else Ok (take n (rd_rest r), {| rd_rest := drop n (rd_rest r); rd_saved := rd_saved r |}).

(** Modelled from the spec: [stream >> v] for a scalar [v] of type
    [t]. *)
Definition rd_get (t : ctype) (r : CompressedReader byte)
  : outcome (Z * CompressedReader byte) :=
  '(bs, r') ← rd_read (sizeof t) r; Ok (get t bs, r').

(** [PackedMessageReader msg(stream)] over a
    [CompressedReaderInputStream]: the next message of a structured
    substream; [tryRead] throws [IOException] when there is none. *)
Definition rd_message {M} (r : CompressedReader M) : outcome (M * CompressedReader M) :=
  match rd_rest r with
  | [] => Throw "IOException"
  | m :: rest => Ok (m, {| rd_rest := rest; rd_saved := rd_saved r |})
  end.

(** ** Data carried by the trace

    Modelled from the spec: the classes of the records ([TraceFrame],
    [Registers], [ExtraRegisters], [TraceTaskEvent], [KernelMapping])
    are declared in headers that are not in [TraceStream.cc]; they are
    records of the fields the trace stream reads and writes. *)

Inductive SupportedArch : Type := x86 | x86_64.

(** Modelled from the spec: the arch tag is the enumerator of
    [SupportedArch] as one byte. *)
Definition arch_tag (a : SupportedArch) : Z :=
  match a with x86 => 0 | x86_64 => 1 end.

(** [(SupportedArch)a] followed by the [switch] of [read_frame]: any
    other tag reaches [default]. *)
Definition arch_of_tag (v : Z) : option SupportedArch :=
  if v =? 0 then Some x86 else if v =? 1 then Some x86_64 else None.

(** [Registers]: the architecture and the ptrace register block. *)
Record Registers : Type := {
  regs_arch : SupportedArch;
  regs_data : list byte
}.

(** [ExtraRegisters]: format ([NONE] or [XSAVE], as the [char] that is
    stored), architecture and raw bytes. *)
Record ExtraRegisters : Type := {
  er_format : Z;
  er_arch : SupportedArch;
  er_data : list byte
}.

(** Modelled from the spec: the enumerators of
    [ExtraRegisters::Format]. *)
Definition NONE : Z := 0.
Definition XSAVE : Z := 1.

(** Modelled from the spec: [ExtraRegisters(arch)] has no data. *)
Definition ExtraRegisters_empty (a : SupportedArch) : ExtraRegisters :=
  {| er_format := NONE; er_arch := a; er_data := [] |}.

Record TraceFrame (Event : Type) : Type := {
  frame_time : Z;            (* global_time *)
  frame_tid : Z;             (* tid_ *)
  frame_event : Event;       (* ev *)
  frame_ticks : Z;           (* ticks_ *)
  frame_monotonic : Z;       (* monotonic_time_, as its bit pattern *)
  recorded_regs : Registers;
  recorded_extra_regs : ExtraRegisters
}.
Arguments frame_time {Event} _.
Arguments frame_tid {Event} _.
Arguments frame_event {Event} _.
Arguments frame_ticks {Event} _.
Arguments frame_monotonic {Event} _.
Arguments recorded_regs {Event} _.
Arguments recorded_extra_regs {Event} _.

(** [struct BasicInfo], cleared with [memset] and then filled in. *)
Record BasicInfo : Type := {
  bi_global_time : Z;
  bi_tid : Z;
  bi_ev : Z;
  bi_ticks : Z;
  bi_monotonic_sec : Z
}.

Definition BasicInfo_bytes (b : BasicInfo) : list byte :=
  put c_int64 (bi_global_time b) ++ put c_int (bi_tid b) ++ put c_int (bi_ev b)
  ++ put c_int64 (bi_ticks b) ++ put c_double (bi_monotonic_sec b).

Definition sizeof_BasicInfo : nat := 32.

Definition BasicInfo_of_bytes (bs : list byte) : BasicInfo :=
  {| bi_global_time := get c_int64 (take 8 bs);
     bi_tid := get c_int (take 4 (drop 8 bs));
     bi_ev := get c_int (take 4 (drop 12 bs));
     bi_ticks := get c_int64 (take 8 (drop 16 bs));
     bi_monotonic_sec := get c_double (take 8 (drop 24 bs)) |}.

(** [TraceTaskEvent]: a tid and one of the variants. *)
Inductive TaskEventType : Type :=
| TTE_NONE
| CLONE (parent_tid own_ns_tid clone_flags : Z)
| EXEC (file_name : string) (cmd_line : list string)
| EXIT (exit_status : Z).

Record TraceTaskEvent : Type := {
  tte_tid : Z;
  tte_type : TaskEventType
}.

(** [KernelMapping] and the fields of [struct stat] that are used. *)
Record KernelMapping : Type := {
  km_start : Z;
  km_end : Z;
  km_fsname : string;
  km_device : Z;
  km_inode : Z;
  km_prot : Z;
  km_flags : Z;
  km_file_offset_bytes : Z
}.

Definition KernelMapping_empty : KernelMapping :=
  {| km_start := 0; km_end := 0; km_fsname := ""; km_device := 0; km_inode := 0;
     km_prot := 0; km_flags := 0; km_file_offset_bytes := 0 |}.

Record StatBuf : Type := {
  st_dev : Z;
  st_ino : Z;
  st_mode : Z;
  st_uid : Z;
  st_gid : Z;
  st_size : Z;
  st_mtime : Z
}.

Inductive MappingOrigin : Type :=
| SYSCALL_MAPPING | RR_BUFFER_MAPPING | REMAP_MAPPING | PATCH_MAPPING | EXEC_MAPPING.

Inductive RecordInTrace : Type := DONT_RECORD_IN_TRACE | RECORD_IN_TRACE.

(** ** capnp messages

    Modelled from the spec: the schema [rr_trace.capnp] is not in
    [TraceStream.cc]; the messages have the fields the specification
    lists for [TaskEvent], [MMap] and [Header], and a field holds the
    value it was set to. *)

Inductive TaskEventWhich : Type :=
| MsgClone (parentTid ownNsTid flags : Z)
| MsgExec (fileName : list byte) (cmdLine : list (list byte))
| MsgExit (exitStatus : Z).

Record TaskEventMsg : Type := {
  te_frameTime : Z;
  te_tid : Z;
  te_which : TaskEventWhich
}.

Inductive MMapSource : Type :=
| SrcZero
| SrcTrace
| SrcFile (backingFileName : list byte).

Record MMapMsg : Type := {
  mm_frameTime : Z;
  mm_start : Z;
  mm_end : Z;
  mm_fsname : list byte;
  mm_device : Z;
  mm_inode : Z;
  mm_prot : Z;
  mm_flags : Z;
  mm_fileOffsetBytes : Z;
  mm_statMode : Z;
  mm_statUid : Z;
  mm_statGid : Z;
  mm_statSize : Z;
  mm_statMTime : Z;
  mm_source : MMapSource
}.

Record HeaderMsg : Type := {
  h_bindToCpu : Z;
  h_hasCpuidFaulting : bool;
  h_cpuidRecords : list byte;
  h_uuid : list byte
}.

(** [str_to_data] and [data_to_str] go by [size()], not by a
    terminating NUL. *)
Definition str_to_data (s : string) : list byte := list_byte_of_string s.
Definition data_to_str (d : list byte) : string := string_of_list_byte d.

(** ** What [TraceStream.cc] takes from the rest of rr

    Events, the XSAVE layout, and the sizes of the register blocks are
    declared elsewhere in rr; the trace stream only goes through the
    operations below. *)

Record Collab : Type := {
  Event : Type;
  Event_default : Event;                   (* Event() *)
  Event_encode : Event -> Z;               (* Event::encode(), the int of EncodedEvent *)
  Event_decode : Z -> Event;               (* Event(EncodedEvent) *)
  has_exec_info : Event -> bool;           (* == HAS_EXEC_INFO *)
  Event_arch : Event -> SupportedArch;
  sizeof_x86_user_regs : nat;              (* sizeof(X86Arch::user_regs_struct) *)
  sizeof_x64_user_regs : nat;              (* sizeof(X64Arch::user_regs_struct) *)
  sizeof_CPUIDRecord : nat;
  XSaveLayout : Type;
  xsave_layout_from_trace : list (list byte) -> XSaveLayout;
  (* ExtraRegisters::set_to_raw_data: [None] when it returns false *)
  set_to_raw_data :
    SupportedArch -> Z -> list byte -> XSaveLayout -> option ExtraRegisters
}.

(** The system calls of the mapping classifier, over a state of the
    file system that each call may change, and
    [should_copy_mmap_region], which looks at the file system too. *)
Record Kernel : Type := {
  World : Type;
  (* ScopedFd(name, O_RDONLY).is_open() *)
  sys_open_rdonly : string -> World -> bool * World;
  (* ScopedFd(name, O_WRONLY | O_CREAT | O_EXCL, 0700).is_open() *)
  sys_open_excl : string -> World -> bool * World;
  (* ioctl(dest, BTRFS_IOC_CLONE, src) >= 0 *)
  sys_ioctl_clone : string -> string -> World -> bool * World;
  sys_unlink : string -> World -> World;
  (* link(oldpath, newpath) >= 0 *)
  sys_link : string -> string -> World -> bool * World;
  should_copy_mmap_region : World -> KernelMapping -> StatBuf -> bool
}.

(** [t->session().use_file_cloning()] is all that is asked of the task. *)
Record RecordTask : Type := {
  use_file_cloning : bool
}.

Definition TRACE_VERSION : Z := 85.

(** [printf("%d")] and [printf("%ld")] *)
Definition decimal (v : Z) : string := DecimalString.NilZero.string_of_int (Z.to_int v).

(** The version file: the bytes that come before the packed header, and
    the header message packed after them ([None]: what follows does not
    decode). *)
Record VersionFile : Type := {
  vf_text : list byte;
  vf_header : option HeaderMsg
}.

(** The files of a trace directory. *)
Record TraceFiles : Type := {
  file_version : VersionFile;
  file_events : list byte;
  file_data_header : list byte;
  file_data : list byte;
  file_mmaps : list MMapMsg;
  file_tasks : list TaskEventMsg;
  file_generic : list byte
}.

(** ** TraceWriter *)

Record TraceWriter : Type := {
  w_trace_dir : string;
  w_global_time : Z;
  w_events : CompressedWriter byte;
  w_data_header : CompressedWriter byte;
  w_data : CompressedWriter byte;
  w_mmaps : CompressedWriter MMapMsg;
  w_tasks : CompressedWriter TaskEventMsg;
  w_generic : CompressedWriter byte;
  w_version : VersionFile;
  mmap_count : Z;
  files_assumed_immutable : gset (Z * Z);
  supports_file_data_cloning_ : bool;
  w_bind_to_cpu : Z
}.

Definition w_set_time (t : Z) (w : TraceWriter) : TraceWriter :=
  {| w_trace_dir := w_trace_dir w; w_global_time := t; w_events := w_events w;
     w_data_header := w_data_header w; w_data := w_data w; w_mmaps := w_mmaps w;
     w_tasks := w_tasks w; w_generic := w_generic w; w_version := w_version w;
     mmap_count := mmap_count w; files_assumed_immutable := files_assumed_immutable w;
     supports_file_data_cloning_ := supports_file_data_cloning_ w;
     w_bind_to_cpu := w_bind_to_cpu w |}.

Definition w_set_events (s : CompressedWriter byte) (w : TraceWriter) : TraceWriter :=
  {| w_trace_dir := w_trace_dir w; w_global_time := w_global_time w; w_events := s;
     w_data_header := w_data_header w; w_data := w_data w; w_mmaps := w_mmaps w;
     w_tasks := w_tasks w; w_generic := w_generic w; w_version := w_version w;
     mmap_count := mmap_count w; files_assumed_immutable := files_assumed_immutable w;
     supports_file_data_cloning_ := supports_file_data_cloning_ w;
     w_bind_to_cpu := w_bind_to_cpu w |}.

Definition w_set_raw (h d : CompressedWriter byte) (w : TraceWriter) : TraceWriter :=
  {| w_trace_dir := w_trace_dir w; w_global_time := w_global_time w; w_events := w_events w;
     w_data_header := h; w_data := d; w_mmaps := w_mmaps w;
     w_tasks := w_tasks w; w_generic := w_generic w; w_version := w_version w;
     mmap_count := mmap_count w; files_assumed_immutable := files_assumed_immutable w;
     supports_file_data_cloning_ := supports_file_data_cloning_ w;
     w_bind_to_cpu := w_bind_to_cpu w |}.

Definition w_set_tasks (s : CompressedWriter TaskEventMsg) (w : TraceWriter) : TraceWriter :=
  {| w_trace_dir := w_trace_dir w; w_global_time := w_global_time w; w_events := w_events w;
     w_data_header := w_data_header w; w_data := w_data w; w_mmaps := w_mmaps w;
     w_tasks := s; w_generic := w_generic w; w_version := w_version w;
     mmap_count := mmap_count w; files_assumed_immutable := files_assumed_immutable w;
     supports_file_data_cloning_ := supports_file_data_cloning_ w;
     w_bind_to_cpu := w_bind_to_cpu w |}.

Definition w_set_generic (s : CompressedWriter byte) (w : TraceWriter) : TraceWriter :=
  {| w_trace_dir := w_trace_dir w; w_global_time := w_global_time w; w_events := w_events w;
     w_data_header := w_data_header w; w_data := w_data w; w_mmaps := w_mmaps w;
     w_tasks := w_tasks w; w_generic := s; w_version := w_version w;
     mmap_count := mmap_count w; files_assumed_immutable := files_assumed_immutable w;
     supports_file_data_cloning_ := supports_file_data_cloning_ w;
     w_bind_to_cpu := w_bind_to_cpu w |}.

(** The three members [write_mapped_region] changes. *)
Definition w_set_mmaps (s : CompressedWriter MMapMsg) (count : Z) (imm : gset (Z * Z))
    (w : TraceWriter) : TraceWriter :=
  {| w_trace_dir := w_trace_dir w; w_global_time := w_global_time w; w_events := w_events w;
     w_data_header := w_data_header w; w_data := w_data w; w_mmaps := s;
     w_tasks := w_tasks w; w_generic := w_generic w; w_version := w_version w;
     mmap_count := count; files_assumed_immutable := imm;
     supports_file_data_cloning_ := supports_file_data_cloning_ w;
     w_bind_to_cpu := w_bind_to_cpu w |}.

(** Modelled from the spec: [TraceStream::tick_time] increments
    [global_time]. *)
Definition w_tick_time (w : TraceWriter) : TraceWriter := w_set_time (w_global_time w + 1) w.

(** [TraceWriter::good] *)
Definition w_good (w : TraceWriter) : bool :=
  cw_good (w_events w) && cw_good (w_data_header w) && cw_good (w_data w)
  && cw_good (w_mmaps w) && cw_good (w_tasks w) && cw_good (w_generic w).

(** [TraceWriter::TraceWriter], once [make_trace_dir] has made [dir] and
    the version file and the probe file could be created: the version
    line and header are written, the substreams are open and empty, the
    clock starts at 1.  [cpuid_records] is [all_cpuid_records()], [uuid]
    the sixteen bytes of [good_random], [probe_ok] whether the
    BTRFS_IOC_CLONE_RANGE probe returned 0. *)
Definition TraceWriter_new (dir : string) (bind_to_cpu : Z) (has_cpuid_faulting : bool)
    (cpuid_records uuid : list byte) (probe_ok : bool) : TraceWriter :=
  {| w_trace_dir := dir;
     w_global_time := 1;
     w_events := cw_open; w_data_header := cw_open; w_data := cw_open;
     w_mmaps := cw_open; w_tasks := cw_open; w_generic := cw_open;
     w_version :=
       {| vf_text := list_byte_of_string (decimal TRACE_VERSION +:+ String "010" "");
          vf_header := Some {| h_bindToCpu := bind_to_cpu;
                               h_hasCpuidFaulting := has_cpuid_faulting;
                               h_cpuidRecords := cpuid_records;
                               h_uuid := uuid |} |};
     mmap_count := 0;
     files_assumed_immutable := ∅;
     supports_file_data_cloning_ := probe_ok;
     w_bind_to_cpu := bind_to_cpu |}.

(** [TraceWriter::close]: every substream is flushed to its file. *)
Definition close (w : TraceWriter) : TraceFiles :=
  {| file_version := w_version w;
     file_events := cw_data (w_events w);
     file_data_header := cw_data (w_data_header w);
     file_data := cw_data (w_data w);
     file_mmaps := cw_data (w_mmaps w);
     file_tasks := cw_data (w_tasks w);
     file_generic := cw_data (w_generic w) |}.

(** [base_file_name]: what follows the last slash. *)
Fixpoint rfind (c : ascii) (s : string) : option nat :=
  match s with
  | EmptyString => None
  | String a s' =>
      match rfind c s' with
      | Some i => Some (S i)
      | None => if Ascii.eqb a c then Some O else None
      end
  end.

Definition base_file_name (file_name : string) : string :=
  match rfind "/" file_name with
  | Some last_slash =>
      String.substring (S last_slash) (String.length file_name - S last_slash) file_name
  | None => file_name
  end.

(** [sys/mman.h] *)
Definition MAP_PRIVATE : Z := 2.

(** [km.fsname().find("/SYSV") == 0] *)
Definition find_at_0 (needle s : string) : bool :=
  match String.index 0 needle s with
  | Some O => true
  | _ => false
  end.

Definition is_REMAP_or_PATCH (origin : MappingOrigin) : bool :=
  match origin with
  | REMAP_MAPPING | PATCH_MAPPING => true
  | _ => false
  end.

Definition is_SYSCALL (origin : MappingOrigin) : bool :=
  match origin with SYSCALL_MAPPING => true | _ => false end.

Definition is_RR_BUFFER (origin : MappingOrigin) : bool :=
  match origin with RR_BUFFER_MAPPING => true | _ => false end.

Definition isTrace (src : MMapSource) : bool :=
  match src with SrcTrace => true | _ => false end.

Section Writer.
Context (X : Collab) (K : Kernel).

Abbreviation Frame := (TraceFrame (Event X)).

(** [TraceWriter::write_frame] *)
Definition write_frame (w : TraceWriter) (frame : Frame) : outcome TraceWriter :=
  let events := w_events w in
  let basic_info :=
    {| bi_global_time := frame_time frame;
       bi_tid := frame_tid frame;
       bi_ev := Event_encode X (frame_event frame);
       bi_ticks := frame_ticks frame;
       bi_monotonic_sec := frame_monotonic frame |} in
  let events := cw_write (BasicInfo_bytes basic_info) events in
  if negb (cw_good events) then
    Fatal "Tried to save 32 bytes to the trace, but failed"
  else
    events ←
      (if has_exec_info X (frame_event frame) then
         let events :=
           cw_write (put c_char (arch_tag (regs_arch (recorded_regs frame)))) events in
         let raw_regs := regs_data (recorded_regs frame) in
         let events := cw_write raw_regs events in
         if negb (cw_good events) then
           Fatal "Tried to save registers to the trace, but failed"
         else
           let extra_reg_bytes :=
             cast c_int (Z.of_nat (length (er_data (recorded_extra_regs frame)))) in
           let extra_reg_format := cast c_char (er_format (recorded_extra_regs frame)) in
           let events :=
             cw_write (put c_char extra_reg_format ++ put c_int extra_reg_bytes) events in
           if negb (cw_good events) then
             Fatal "Tried to save 5 bytes to the trace, but failed"
           else if 0 <? extra_reg_bytes then
             let events :=
               cw_write (take (Z.to_nat extra_reg_bytes)
                              (er_data (recorded_extra_regs frame))) events in
             if negb (cw_good events) then
               Fatal ("Tried to save " +:+ decimal extra_reg_bytes
                      +:+ " bytes to the trace, but failed")
             else Ok events
           else Ok events
       else Ok events);
    Ok (w_tick_time (w_set_events events w)).

(** [TraceWriter::write_task_event] *)
Definition write_task_event (w : TraceWriter) (event : TraceTaskEvent)
  : outcome TraceWriter :=
  which ←
    match tte_type event with
    | CLONE parent_tid own_ns_tid clone_flags =>
        Ok (MsgClone parent_tid own_ns_tid clone_flags)
    | EXEC file_name cmd_line =>
        Ok (MsgExec (str_to_data file_name) (map str_to_data cmd_line))
    | EXIT exit_status => Ok (MsgExit exit_status)
    | TTE_NONE => AssertFail "0 && Writing NONE TraceTaskEvent"
    end;
  let task :=
    {| te_frameTime := w_global_time w; te_tid := tte_tid event; te_which := which |} in
  Ok (w_set_tasks (cw_write [task] (w_tasks w)) w).

(** [TraceWriter::try_hardlink_file] *)
Definition try_hardlink_file (w : TraceWriter) (file_name : string) (k : World K)
  : string * World K :=
  let count_str := decimal (mmap_count w) in
  let path := "mmap_hardlink_" +:+ count_str +:+ "_" +:+ base_file_name file_name in
  let '(linked, k) := sys_link K file_name (w_trace_dir w +:+ "/" +:+ path) k in
  if linked then (path, k) else (file_name, k).

(** [TraceWriter::try_clone_file]: [Some new_name] when it returns
    true. *)
Definition try_clone_file (w : TraceWriter) (t : RecordTask) (file_name : string)
    (k : World K) : option string * World K :=
  if negb (use_file_cloning t) then (None, k)
  else
    let count_str := decimal (mmap_count w) in
    let path := "mmap_clone_" +:+ count_str +:+ "_" +:+ base_file_name file_name in
    let '(src_open, k) := sys_open_rdonly K file_name k in
    if negb src_open then (None, k)
    else
      let dest_path := w_trace_dir w +:+ "/" +:+ path in
      let '(dest_open, k) := sys_open_excl K dest_path k in
      if negb dest_open then (None, k)
      else
        let '(cloned, k) := sys_ioctl_clone K dest_path file_name k in
        if negb cloned then (None, sys_unlink K dest_path k)
        else (Some path, k).

(** The classification of [write_mapped_region]: the source put into
    the record, the set of files assumed immutable afterwards, and the
    file system afterwards. *)
Definition classify_mapping (w : TraceWriter) (t : RecordTask) (km : KernelMapping)
    (stat : StatBuf) (origin : MappingOrigin) (k : World K)
  : MMapSource * gset (Z * Z) * World K :=
  let imm := files_assumed_immutable w in
  if is_REMAP_or_PATCH origin then (SrcZero, imm, k)
  else if find_at_0 "/SYSV" (km_fsname km) then (SrcTrace, imm, k)
  else if is_SYSCALL origin
          && ((km_inode km =? 0) || String.eqb (km_fsname km) "/dev/zero (deleted)")
  then (SrcZero, imm, k)
  else if is_RR_BUFFER origin then (SrcZero, imm, k)
  else
    let '(cloned, k) :=
      if negb (Z.land (km_flags km) MAP_PRIVATE =? 0)
      then try_clone_file w t (km_fsname km) k
      else (None, k) in
    match cloned with
    | Some backing_file_name => (SrcFile (str_to_data backing_file_name), imm, k)
    | None =>
        if should_copy_mmap_region K k km stat
           && negb (bool_decide ((st_dev stat, st_ino stat) ∈ imm))
        then (SrcTrace, imm, k)
        else
          let '(cloned, k) := try_clone_file w t (km_fsname km) k in
          match cloned with
          | Some backing_file_name => (SrcFile (str_to_data backing_file_name), imm, k)
          | None =>
              let '(backing_file_name, k) := try_hardlink_file w (km_fsname km) k in
              (SrcFile (str_to_data backing_file_name),
               {[ (st_dev stat, st_ino stat) ]} ∪ imm, k)
          end
    end.

(** [TraceWriter::write_mapped_region] *)
Definition write_mapped_region (w : TraceWriter) (t : RecordTask) (km : KernelMapping)
    (stat : StatBuf) (origin : MappingOrigin) (k : World K)
  : RecordInTrace * TraceWriter * World K :=
  let '(src, imm, k) := classify_mapping w t km stat origin k in
  let map :=
    {| mm_frameTime := w_global_time w;
       mm_start := km_start km;
       mm_end := km_end km;
       mm_fsname := str_to_data (km_fsname km);
       mm_device := km_device km;
       mm_inode := km_inode km;
       mm_prot := km_prot km;
       mm_flags := km_flags km;
       mm_fileOffsetBytes := km_file_offset_bytes km;
       mm_statMode := st_mode stat;
       mm_statUid := st_uid stat;
       mm_statGid := st_gid stat;
       mm_statSize := st_size stat;
       mm_statMTime := st_mtime stat;
       mm_source := src |} in
  let w := w_set_mmaps (cw_write [map] (w_mmaps w)) (mmap_count w + 1) imm w in
  (if isTrace src then RECORD_IN_TRACE else DONT_RECORD_IN_TRACE, w, k).

(** [TraceWriter::write_raw]: [d] is the [len] bytes at the pointer. *)
Definition write_raw (w : TraceWriter) (rec_tid : Z) (d : list byte) (addr : Z)
  : TraceWriter :=
  let len := Z.of_nat (length d) in
  let data_header :=
    cw_write (put c_int64 (w_global_time w) ++ put c_int rec_tid
              ++ put c_size_t addr ++ put c_size_t len) (w_data_header w) in
  let data := cw_write d (w_data w) in
  w_set_raw data_header data w.

(** [TraceWriter::write_generic] *)
Definition write_generic (w : TraceWriter) (d : list byte) : TraceWriter :=
  let len := Z.of_nat (length d) in
  let generic :=
    cw_write d (cw_write (put c_int64 (w_global_time w) ++ put c_size_t len)
                         (w_generic w)) in
  w_set_generic generic w.

End Writer.

(** ** TraceReader *)

Inductive VersionOnDisk : Type :=
| Readable (f : VersionFile)
| Unreadable (errno : Z).

(** [errno.h] and [sysexits.h] *)
Definition ENOENT : Z := 2.
Definition EX_DATAERR : Z := 65.

Record TraceReader : Type := {
  r_trace_dir : string;
  r_global_time : Z;
  r_events : CompressedReader byte;
  r_data_header : CompressedReader byte;
  r_data : CompressedReader byte;
  r_mmaps : CompressedReader MMapMsg;
  r_tasks : CompressedReader TaskEventMsg;
  r_generic : CompressedReader byte;
  r_bind_to_cpu : Z;
  trace_uses_cpuid_faulting : bool;
  cpuid_records_ : list (list byte)
}.

Definition r_set_time (t : Z) (r : TraceReader) : TraceReader :=
  {| r_trace_dir := r_trace_dir r; r_global_time := t; r_events := r_events r;
     r_data_header := r_data_header r; r_data := r_data r; r_mmaps := r_mmaps r;
     r_tasks := r_tasks r; r_generic := r_generic r; r_bind_to_cpu := r_bind_to_cpu r;
     trace_uses_cpuid_faulting := trace_uses_cpuid_faulting r;
     cpuid_records_ := cpuid_records_ r |}.

Definition r_set_events (s : CompressedReader byte) (r : TraceReader) : TraceReader :=
  {| r_trace_dir := r_trace_dir r; r_global_time := r_global_time r; r_events := s;
     r_data_header := r_data_header r; r_data := r_data r; r_mmaps := r_mmaps r;
     r_tasks := r_tasks r; r_generic := r_generic r; r_bind_to_cpu := r_bind_to_cpu r;
     trace_uses_cpuid_faulting := trace_uses_cpuid_faulting r;
     cpuid_records_ := cpuid_records_ r |}.

Definition r_set_raw (h d : CompressedReader byte) (r : TraceReader) : TraceReader :=
  {| r_trace_dir := r_trace_dir r; r_global_time := r_global_time r; r_events := r_events r;
     r_data_header := h; r_data := d; r_mmaps := r_mmaps r;
     r_tasks := r_tasks r; r_generic := r_generic r; r_bind_to_cpu := r_bind_to_cpu r;
     trace_uses_cpuid_faulting := trace_uses_cpuid_faulting r;
     cpuid_records_ := cpuid_records_ r |}.

Definition r_set_mmaps (s : CompressedReader MMapMsg) (r : TraceReader) : TraceReader :=
  {| r_trace_dir := r_trace_dir r; r_global_time := r_global_time r; r_events := r_events r;
     r_data_header := r_data_header r; r_data := r_data r; r_mmaps := s;
     r_tasks := r_tasks r; r_generic := r_generic r; r_bind_to_cpu := r_bind_to_cpu r;
     trace_uses_cpuid_faulting := trace_uses_cpuid_faulting r;
     cpuid_records_ := cpuid_records_ r |}.

Definition r_set_tasks (s : CompressedReader TaskEventMsg) (r : TraceReader) : TraceReader :=
  {| r_trace_dir := r_trace_dir r; r_global_time := r_global_time r; r_events := r_events r;
     r_data_header := r_data_header r; r_data := r_data r; r_mmaps := r_mmaps r;
     r_tasks := s; r_generic := r_generic r; r_bind_to_cpu := r_bind_to_cpu r;
     trace_uses_cpuid_faulting := trace_uses_cpuid_faulting r;
     cpuid_records_ := cpuid_records_ r |}.

Definition r_set_generic (s : CompressedReader byte) (r : TraceReader) : TraceReader :=
  {| r_trace_dir := r_trace_dir r; r_global_time := r_global_time r; r_events := r_events r;
     r_data_header := r_data_header r; r_data := r_data r; r_mmaps := r_mmaps r;
     r_tasks := r_tasks r; r_generic := s; r_bind_to_cpu := r_bind_to_cpu r;
     trace_uses_cpuid_faulting := trace_uses_cpuid_faulting r;
     cpuid_records_ := cpuid_records_ r |}.

Definition r_tick_time (r : TraceReader) : TraceReader := r_set_time (r_global_time r + 1) r.

(** Modelled from the spec: [TraceReader::at_end] tells whether the
    events substream is exhausted. *)
Definition at_end (r : TraceReader) : bool := rd_at_end (r_events r).

(** *** The version line *)

Definition nl : string := String "010" EmptyString.

(** The loop that reads the version file a character at a time up to
    the newline: [None] when [read] returns no byte first. *)
Fixpoint read_version_line (text : list byte) (version_str : string)
  : option (string * list byte) :=
  match text with
  | [] => None
  | ch :: rest =>
      if Byte.eqb ch "010"%byte then Some (version_str, rest)
      else read_version_line rest (version_str +:+ String (ascii_of_byte ch) EmptyString)
  end.

(** [c_str()] seen as a C string: it ends at the first NUL. *)
Fixpoint c_str (s : string) : string :=
  match s with
  | EmptyString => EmptyString
  | String a s' => if Ascii.eqb a "000" then EmptyString else String a (c_str s')
  end.

Definition isspace (a : ascii) : bool :=
  let n := nat_of_ascii a in ((n =? 32) || ((9 <=? n) && (n <=? 13)))%nat.

Definition digit_value (a : ascii) : option Z :=
  let n := nat_of_ascii a in
  if ((48 <=? n) && (n <=? 57))%nat then Some (Z.of_nat n - 48) else None.

Fixpoint skip_spaces (s : string) : string :=
  match s with
  | String a s' => if isspace a then skip_spaces s' else s
  | EmptyString => s
  end.

Fixpoint strtol_digits (s : string) (acc : Z) : Z * string :=
  match s with
  | String a s' =>
      match digit_value a with
      | Some d => strtol_digits s' (10 * acc + d)
      | None => (acc, s)
      end
  | EmptyString => (acc, s)
  end.

Definition LONG_MAX : Z := 2 ^ 63 - 1.
Definition LONG_MIN : Z := - 2 ^ 63.

(** [strtol(nptr, &end_ptr, 10)] of the C library, for a [long] of 64
    bits: white space, a sign, digits; the value, clamped to the range
    of [long], and the string at [end_ptr], which is [nptr] when there
    is no digit. *)
Definition strtol (nptr : string) : Z * string :=
  let s := skip_spaces nptr in
  let '(negative, s) :=
    match s with
    | String "-" s' => (true, s')
    | String "+" s' => (false, s')
    | _ => (false, s)
    end in
  match s with
  | String a _ =>
      match digit_value a with
      | Some _ =>
          let '(v, rest) := strtol_digits s 0 in
          let v := if negative then - v else v in
          (Z.max LONG_MIN (Z.min LONG_MAX v), rest)
      | None => (0, nptr)
      end
  | EmptyString => (0, nptr)
  end.

(** Modelled from the spec: [TraceStream::version_path], the file
    [version] of the trace directory. *)
Definition version_path (trace_dir : string) : string := trace_dir +:+ "/version".

Definition msg_version_not_found (path : string) : string :=
  nl +:+ "rr: error: Trace version file `" +:+ path
  +:+ "' not found. There is probably no trace there." +:+ nl +:+ nl.

Definition msg_version_not_readable (path : string) : string :=
  nl +:+ "rr: error: Trace version file `" +:+ path +:+ "' not readable." +:+ nl +:+ nl.

Definition msg_incompatible_version (path : string) (version : Z) : string :=
  nl +:+ "rr: error: Recorded trace `" +:+ path +:+ "' has an incompatible version "
  +:+ decimal version +:+ "; expected" +:+ nl
  +:+ "           " +:+ decimal TRACE_VERSION +:+ ".  Did you record `" +:+ path
  +:+ "' with an older version of rr?  If so," +:+ nl
  +:+ "           you'll need to replay `" +:+ path
  +:+ "' with that older version.  Otherwise," +:+ nl
  +:+ "           your trace is likely corrupted." +:+ nl +:+ nl.

(** [len] records of [n] bytes each, copied out of [bs]. *)
Fixpoint chunks (n len : nat) (bs : list byte) : list (list byte) :=
  match len with
  | O => []
  | S len' => take n bs :: chunks n len' (drop n bs)
  end.

(** What [read_mapped_region] hands back through [data]. *)
Inductive MappedDataSource : Type := SOURCE_TRACE | SOURCE_FILE | SOURCE_ZERO.

Record MappedData : Type := {
  md_time : Z;
  md_source : MappedDataSource;
  md_file_name : string;
  md_data_offset_bytes : Z;
  md_file_size_bytes : Z
}.

Inductive ValidateSourceFile : Type := VALIDATE | DONT_VALIDATE.
Inductive TimeConstraint : Type := CURRENT_TIME_ONLY | ANY_TIME.

Record RawData : Type := {
  raw_data : list byte;
  raw_addr : Z;
  raw_rec_tid : Z
}.

(** [backing_file_name[0] != '/'] ; an empty string has a NUL there. *)
Definition starts_with_slash (s : string) : bool :=
  match s with
  | String a _ => Ascii.eqb a "/"
  | EmptyString => false
  end.

(** [i32_to_tid] *)
Definition i32_to_tid (tid : Z) : outcome Z :=
  if tid <=? 0 then Fatal "Invalid tid" else Ok tid.

Section Reader.
Context (X : Collab).

Abbreviation Frame := (TraceFrame (Event X)).

(** [TraceReader::TraceReader(dir)], with [trace_dir] the directory
    after [latest-trace] was put for an empty [dir] and after
    [real_path]; [version] is what opening the version file gives and
    [files] are the substream files. *)
Definition TraceReader_new (trace_dir : string) (version : VersionOnDisk)
    (files : TraceFiles) : outcome TraceReader :=
  let path := version_path trace_dir in
  match version with
  | Unreadable errno =>
      if errno =? ENOENT then Exit EX_DATAERR (msg_version_not_found path)
      else Exit EX_DATAERR (msg_version_not_readable path)
  | Readable version_fd =>
      match read_version_line (vf_text version_fd) EmptyString with
      | None => Fatal ("Can't read version file " +:+ path)
      | Some (version_str, rest) =>
          let '(version, end_ptr) := strtol (c_str version_str) in
          if negb (String.eqb end_ptr EmptyString) then
            Fatal ("Invalid version: " +:+ version_str)
          else if negb (TRACE_VERSION =? version) then
            Exit EX_DATAERR (msg_incompatible_version path version)
          else
            header ←
              match rest, vf_header version_fd with
              | [], Some header => Ok header
              | _, _ => Throw "capnp: premature EOF"
              end;
            let cpuid_records_bytes := h_cpuidRecords header in
            let len := (length cpuid_records_bytes / sizeof_CPUIDRecord X)%nat in
            _ ← c_assert (length cpuid_records_bytes =? len * sizeof_CPUIDRecord X)%nat
                  "cpuid_records_bytes.size() == len * sizeof(CPUIDRecord)";
            Ok {| r_trace_dir := trace_dir;
                  r_global_time := 0;
                  r_events := rd_open (file_events files);
                  r_data_header := rd_open (file_data_header files);
                  r_data := rd_open (file_data files);
                  r_mmaps := rd_open (file_mmaps files);
                  r_tasks := rd_open (file_tasks files);
                  r_generic := rd_open (file_generic files);
                  r_bind_to_cpu := h_bindToCpu header;
                  trace_uses_cpuid_faulting := h_hasCpuidFaulting header;
                  cpuid_records_ :=
                    chunks (sizeof_CPUIDRecord X) len cpuid_records_bytes |}
      end
  end.

(** Modelled from the spec: [TraceFrame(time, tid, event, ticks,
    monotonic)]; the registers are those of a default frame until
    [read_frame] fills them in. *)
Definition TraceFrame_new (regs : Registers) (extra : ExtraRegisters)
    (time tid : Z) (ev : Event X) (ticks mono : Z) : Frame :=
  {| frame_time := time; frame_tid := tid; frame_event := ev; frame_ticks := ticks;
     frame_monotonic := mono; recorded_regs := regs; recorded_extra_regs := extra |}.

(** Modelled from the spec: [Registers()], no register block read
    yet. *)
Definition Registers_default : Registers := {| regs_arch := x86; regs_data := [] |}.

(** Modelled from the spec: [TraceFrame()], the default (empty)
    frame. *)
Definition TraceFrame_default : Frame :=
  TraceFrame_new Registers_default (ExtraRegisters_empty x86) 0 0 (Event_default X) 0 0.

Definition set_regs (regs : Registers) (extra : ExtraRegisters) (f : Frame) : Frame :=
  TraceFrame_new regs extra (frame_time f) (frame_tid f) (frame_event f)
                 (frame_ticks f) (frame_monotonic f).

(** [TraceReader::read_frame] *)
Definition read_frame (r : TraceReader) : outcome (Frame * TraceReader) :=
  let events := r_events r in
  '(bytes, events) ← rd_read sizeof_BasicInfo events;
  let basic_info := BasicInfo_of_bytes bytes in
  let frame :=
    TraceFrame_new Registers_default (ExtraRegisters_empty x86)
      (bi_global_time basic_info) (bi_tid basic_info)
      (Event_decode X (bi_ev basic_info)) (bi_ticks basic_info)
      (bi_monotonic_sec basic_info) in
  '(frame, events) ←
    (if has_exec_info X (frame_event frame) then
       '(a, events) ← rd_get c_char events;
       '(regs, events) ←
         match arch_of_tag a with
         | Some x86 =>
             '(buf, events) ← rd_read (sizeof_x86_user_regs X) events;
             Ok ({| regs_arch := x86; regs_data := buf |}, events)
         | Some x86_64 =>
             '(buf, events) ← rd_read (sizeof_x64_user_regs X) events;
             Ok ({| regs_arch := x86_64; regs_data := buf |}, events)
         | None => Fatal "Unknown arch"
         end;
       '(extra_reg_format, events) ← rd_get c_char events;
       '(extra_reg_bytes, events) ← rd_get c_int events;
       if 0 <? extra_reg_bytes then
         '(data, events) ← rd_read (Z.to_nat extra_reg_bytes) events;
         match set_to_raw_data X (Event_arch X (frame_event frame)) extra_reg_format
                 data (xsave_layout_from_trace X (cpuid_records_ r)) with
         | Some extra => Ok (set_regs regs extra frame, events)
         | None => Fatal "Invalid XSAVE data in trace"
         end
       else
         _ ← c_assert (extra_reg_format =? NONE) "extra_reg_format == ExtraRegisters::NONE";
         Ok (set_regs regs (ExtraRegisters_empty (Event_arch X (frame_event frame))) frame,
             events)
     else Ok (frame, events));
  let r := r_tick_time (r_set_events events r) in
  _ ← c_assert (r_global_time r =? frame_time frame) "time() == frame.time()";
  Ok (frame, r).

(** [TraceReader::peek_frame] *)
Definition peek_frame (r : TraceReader) : outcome (Frame * TraceReader) :=
  let r := r_set_events (save_state (r_events r)) r in
  let saved_time := r_global_time r in
  '(frame, r) ← (if negb (at_end r) then read_frame r else Ok (TraceFrame_default, r));
  let r := r_set_events (restore_state (r_events r)) r in
  Ok (frame, r_set_time saved_time r).

(** [TraceReader::read_task_event]: the [NONE] event with tid 0 is the
    default [TraceTaskEvent]. *)
Definition read_task_event (r : TraceReader) : outcome (TraceTaskEvent * TraceReader) :=
  let tasks := r_tasks r in
  if rd_at_end tasks then Ok ({| tte_tid := 0; tte_type := TTE_NONE |}, r)
  else
    '(task, tasks) ← rd_message tasks;
    tid ← i32_to_tid (te_tid task);
    type ←
      match te_which task with
      | MsgClone parentTid ownNsTid flags =>
          parent_tid ← i32_to_tid parentTid;
          own_ns_tid ← i32_to_tid ownNsTid;
          Ok (CLONE parent_tid own_ns_tid flags)
      | MsgExec fileName cmdLine =>
          Ok (EXEC (data_to_str fileName) (map data_to_str cmdLine))
      | MsgExit exitStatus => Ok (EXIT exitStatus)
      end;
    Ok ({| tte_tid := tid; tte_type := type |}, r_set_tasks tasks r).

(** [TraceReader::read_raw_data] *)
Definition read_raw_data (r : TraceReader) : outcome (RawData * TraceReader) :=
  let data := r_data r in
  let data_header := r_data_header r in
  '(time, data_header) ← rd_get c_int64 data_header;
  '(rec_tid, data_header) ← rd_get c_int data_header;
  '(addr, data_header) ← rd_get c_size_t data_header;
  '(num_bytes, data_header) ← rd_get c_size_t data_header;
  _ ← c_assert (time =? r_global_time r) "time == global_time";
  '(bytes, data) ← rd_read (Z.to_nat num_bytes) data;
  Ok ({| raw_data := bytes; raw_addr := addr; raw_rec_tid := rec_tid |},
      r_set_raw data_header data r).

(** [TraceReader::read_raw_data_for_frame]: the flag returned and [d]
    afterwards. *)
Definition read_raw_data_for_frame (r : TraceReader) (frame : Frame) (d : RawData)
  : outcome (bool * RawData * TraceReader) :=
  let data_header := r_data_header r in
  if rd_at_end data_header then Ok (false, d, r)
  else
    let data_header := save_state data_header in
    '(time, data_header) ← rd_get c_int64 data_header;
    let data_header := restore_state data_header in
    let r := r_set_raw data_header (r_data r) r in
    _ ← c_assert (frame_time frame <=? time) "time >= frame.time()";
    if frame_time frame <? time then Ok (false, d, r)
    else
      '(d, r) ← read_raw_data r;
      Ok (true, d, r).

(** [TraceReader::read_generic] *)
Definition read_generic (r : TraceReader) : outcome (list byte * TraceReader) :=
  let generic := r_generic r in
  '(time, generic) ← rd_get c_int64 generic;
  '(num_bytes, generic) ← rd_get c_size_t generic;
  _ ← c_assert (time =? r_global_time r) "time == global_time";
  '(out, generic) ← rd_read (Z.to_nat num_bytes) generic;
  Ok (out, r_set_generic generic r).

(** [TraceReader::read_generic_for_frame] *)
Definition read_generic_for_frame (r : TraceReader) (frame : Frame) (out : list byte)
  : outcome (bool * list byte * TraceReader) :=
  let generic := r_generic r in
  if rd_at_end generic then Ok (false, out, r)
  else
    let generic := save_state generic in
    '(time, generic) ← rd_get c_int64 generic;
    let generic := restore_state generic in
    let r := r_set_generic generic r in
    _ ← c_assert (frame_time frame <=? time) "time >= frame.time()";
    if frame_time frame <? time then Ok (false, out, r)
    else
      '(out, r) ← read_generic r;
      Ok (true, out, r).

End Reader.

(** [KernelMapping(start, end, fsname, device, inode, prot, flags, offset)]
    from a decoded record. *)
Definition KernelMapping_of_msg (map : MMapMsg) : KernelMapping :=
  {| km_start := mm_start map; km_end := mm_end map;
     km_fsname := data_to_str (mm_fsname map);
     km_device := mm_device map; km_inode := mm_inode map;
     km_prot := mm_prot map; km_flags := mm_flags map;
     km_file_offset_bytes := mm_fileOffsetBytes map |}.

Record MappedRegionResult : Type := {
  mr_mapping : KernelMapping;      (* the value returned *)
  mr_data : option MappedData;     (* *data afterwards, when data is not null *)
  mr_found : bool;                 (* *found afterwards *)
  mr_warned : bool                 (* the metadata warning was logged *)
}.

Definition not_found (data : option MappedData) : MappedRegionResult :=
  {| mr_mapping := KernelMapping_empty; mr_data := data; mr_found := false;
     mr_warned := false |}.

Definition is_CURRENT_TIME_ONLY (c : TimeConstraint) : bool :=
  match c with CURRENT_TIME_ONLY => true | ANY_TIME => false end.

Definition is_VALIDATE (v : ValidateSourceFile) : bool :=
  match v with VALIDATE => true | DONT_VALIDATE => false end.

(** The fields [data] gets for a record whose source is a file: the
    name resolved against the trace directory, after the check of the
    backing file against the recorded [stat] ([fs_stat] is [stat(2)] at
    replay time). *)
Definition read_file_source (trace_dir : string) (fs_stat : string -> option StatBuf)
    (validate : ValidateSourceFile) (map : MMapMsg) (backingFileName : list byte)
  : outcome (string * Z * bool) :=
  let clone_prefix := "mmap_clone_" in
  let backing_file_name := data_to_str backingFileName in
  let is_clone := String.prefix clone_prefix backing_file_name in
  let backing_file_name :=
    if negb (starts_with_slash backing_file_name)
    then trace_dir +:+ "/" +:+ backing_file_name
    else backing_file_name in
  let uid := mm_statUid map in
  let gid := mm_statGid map in
  let mode := mm_statMode map in
  let mtime := mm_statMTime map in
  let size := mm_statSize map in
  if size <? 0 then Fatal "Invalid statSize"
  else
    let has_stat_buf :=
      negb (mode =? 0) || negb (uid =? 0) || negb (gid =? 0) || negb (mtime =? 0) in
    warned ←
      (if negb is_clone && is_VALIDATE validate && has_stat_buf then
         match fs_stat backing_file_name with
         | None => Fatal ("Failed to stat " +:+ backing_file_name +:+ ": replay is impossible")
         | Some backing_stat =>
             Ok (negb (st_ino backing_stat =? mm_inode map)
                 || negb (st_mode backing_stat =? mode)
                 || negb (st_uid backing_stat =? uid)
                 || negb (st_gid backing_stat =? gid)
                 || negb (st_size backing_stat =? size)
                 || negb (st_mtime backing_stat =? mtime))
         end
       else Ok false);
    let file_offset_bytes := mm_fileOffsetBytes map in
    if file_offset_bytes <? 0 then Fatal "Invalid fileOffsetBytes"
    else Ok (backing_file_name, file_offset_bytes, warned).

(** [TraceReader::read_mapped_region]; [data] is [None] for a null
    pointer and [Some] of what the caller's object holds otherwise. *)
Definition read_mapped_region (fs_stat : string -> option StatBuf) (r : TraceReader)
    (data : option MappedData) (validate : ValidateSourceFile)
    (time_constraint : TimeConstraint)
  : outcome (MappedRegionResult * TraceReader) :=
  let mmaps := r_mmaps r in
  if rd_at_end mmaps then Ok (not_found data, r)
  else
    let mmaps := if is_CURRENT_TIME_ONLY time_constraint then save_state mmaps else mmaps in
    '(map, mmaps) ← rd_message mmaps;
    if is_CURRENT_TIME_ONLY time_constraint && negb (mm_frameTime map =? r_global_time r)
    then Ok (not_found data, r_set_mmaps (restore_state mmaps) r)
    else
      let mmaps :=
        if is_CURRENT_TIME_ONLY time_constraint then discard_state mmaps else mmaps in
      '(data, warned) ←
        match data with
        | None => Ok (None, false)
        | Some d =>
            let time := mm_frameTime map in
            if time <=? 0 then Fatal "Invalid frameTime"
            else
              let file_size_bytes := mm_statSize map in
              match mm_source map with
              | SrcZero =>
                  Ok (Some {| md_time := time; md_source := SOURCE_ZERO;
                              md_file_name := md_file_name d;
                              md_data_offset_bytes := 0;
                              md_file_size_bytes := file_size_bytes |}, false)
              | SrcTrace =>
                  Ok (Some {| md_time := time; md_source := SOURCE_TRACE;
                              md_file_name := md_file_name d;
                              md_data_offset_bytes := 0;
                              md_file_size_bytes := file_size_bytes |}, false)
              | SrcFile backingFileName =>
                  '(file_name, offset, warned) ←
                    read_file_source (r_trace_dir r) fs_stat validate map backingFileName;
                  Ok (Some {| md_time := time; md_source := SOURCE_FILE;
                              md_file_name := file_name;
                              md_data_offset_bytes := offset;
                              md_file_size_bytes := file_size_bytes |}, warned)
              end
        end;
      Ok ({| mr_mapping := KernelMapping_of_msg map; mr_data := data; mr_found := true;
             mr_warned := warned |},
          r_set_mmaps mmaps r).

(** ** The trace directory (bootstrap) *)

(** The environment and the part of the file system [stat] sees. *)
Record Environ : Type := {
  getenv : string -> option string;
  stat_ok : string -> bool            (* stat(path, &dummy) == 0 *)
}.

Definition string_empty (s : string) : bool :=
  match s with EmptyString => true | String _ _ => false end.

(** [dir_exists] *)
Definition dir_exists (E : Environ) (dir : string) : bool :=
  negb (string_empty dir) && stat_ok E dir.

(** [default_rr_trace_dir]: the directory and the static [cached_dir]
    afterwards. *)
Definition default_rr_trace_dir (E : Environ) (cached_dir : string) : string * string :=
  if negb (string_empty cached_dir) then (cached_dir, cached_dir)
  else
    let home := getenv E "HOME" in
    let dot_dir :=
      match home with
      | Some home => home +:+ "/.rr"
      | None => EmptyString
      end in
    let xdg_data_home := getenv E "XDG_DATA_HOME" in
    let xdg_dir :=
      match xdg_data_home, home with
      | Some xdg_data_home, _ => xdg_data_home +:+ "/rr"
      | None, Some home => home +:+ "/.local/share/rr"
      | None, None => EmptyString
      end in
    let cached_dir :=
      if dir_exists E xdg_dir then xdg_dir
      else if dir_exists E dot_dir then dot_dir
      else if negb (string_empty xdg_dir) then xdg_dir
      else "/tmp/rr" in
    (cached_dir, cached_dir).

(** [trace_save_dir] *)
Definition trace_save_dir (E : Environ) (cached_dir : string) : string * string :=
  match getenv E "_RR_TRACE_DIR" with
  | Some output_dir => (output_dir, cached_dir)
  | None => default_rr_trace_dir E cached_dir
  end.

(** [latest_trace_symlink] *)
Definition latest_trace_symlink (E : Environ) (cached_dir : string) : string * string :=
  let '(dir, cached_dir) := trace_save_dir E cached_dir in
  (dir +:+ "/latest-trace", cached_dir).

(** The resolution order in the words of the specification: the
    override, then [$XDG_DATA_HOME/rr] if it exists, then [$HOME/.rr] if
    it exists, then [$XDG_DATA_HOME/rr] or [$HOME/.local/share/rr] when
    the variable is set, then [/tmp/rr]. *)
Definition spec_trace_root (E : Environ) : string :=
  match getenv E "_RR_TRACE_DIR" with
  | Some output_dir => output_dir
  | None =>
      let fallback :=
        match getenv E "XDG_DATA_HOME", getenv E "HOME" with
        | Some xdg, _ => xdg +:+ "/rr"
        | None, Some home => home +:+ "/.local/share/rr"
        | None, None => "/tmp/rr"
        end in
      let dot :=
        match getenv E "HOME" with
        | Some home => if dir_exists E (home +:+ "/.rr") then home +:+ "/.rr" else fallback
        | None => fallback
        end in
      match getenv E "XDG_DATA_HOME" with
      | Some xdg => if dir_exists E (xdg +:+ "/rr") then xdg +:+ "/rr" else dot
      | None => dot
      end
  end.

(** The XDG directory of [default_rr_trace_dir]: under [$XDG_DATA_HOME]
    when that is set, under [$HOME/.local/share] when only [$HOME] is. *)
Definition xdg_directory (E : Environ) : option string :=
  match getenv E "XDG_DATA_HOME", getenv E "HOME" with
  | Some xdg, _ => Some (xdg +:+ "/rr")
  | None, Some home => Some (home +:+ "/.local/share/rr")
  | None, None => None
  end.

Definition dot_directory (E : Environ) : option string :=
  match getenv E "HOME" with
  | Some home => Some (home +:+ "/.rr")
  | None => None
  end.

(** An environment with only [$HOME] set, where every path exists. *)
Definition env_home_only : Environ :=
  {| getenv := fun name => if String.eqb name "HOME" then Some "/h" else None;
     stat_ok := fun _ => true |}.

(** [needle] occurs in [s]. *)
Definition mentions (needle s : string) : Prop :=
  exists pre post, s = pre +:+ needle +:+ post.

(** A collaborator to run the model with: an event is its encoding,
    bit 0 of which says whether the frame has exec info and bit 1 the
    architecture; the register blocks have the sizes of the kernel's
    [user_regs_struct]; [set_to_raw_data] keeps what it is given. *)
Definition plain_collab : Collab :=
  {| Event := Z;
     Event_default := 0;
     Event_encode := fun e => e;
     Event_decode := fun e => e;
     has_exec_info := fun e => Z.testbit e 0;
     Event_arch := fun e => if Z.testbit e 1 then x86_64 else x86;
     sizeof_x86_user_regs := 68;
     sizeof_x64_user_regs := 216;
     sizeof_CPUIDRecord := 24;
     XSaveLayout := unit;
     xsave_layout_from_trace := fun _ => tt;
     set_to_raw_data := fun a format data _ =>
       Some {| er_format := format; er_arch := a; er_data := data |} |}.

(** A trace directory with no records. *)
Definition empty_files (v : VersionFile) : TraceFiles :=
  {| file_version := v; file_events := []; file_data_header := []; file_data := [];
     file_mmaps := []; file_tasks := []; file_generic := [] |}.

(** The version file of scenario S4: the text is the line [1]. *)
Definition version_file_1 : VersionFile :=
  {| vf_text := ["1"%byte; "010"%byte];
     vf_header := Some {| h_bindToCpu := 0; h_hasCpuidFaulting := false;
                          h_cpuidRecords := []; h_uuid := [] |} |}.

(** [n] calls of [read_frame] in a row. *)
Fixpoint read_frames (X : Collab) (n : nat) (r : TraceReader)
  : outcome (list (TraceFrame (Event X)) * TraceReader) :=
  match n with
  | O => Ok ([], r)
  | S n' =>
      '(frame, r) ← read_frame X r;
      '(frames, r) ← read_frames X n' r;
      Ok (frame :: frames, r)
  end.

(** *** What the writer puts into the events substream for a frame *)

Definition BasicInfo_of_frame (X : Collab) (frame : TraceFrame (Event X)) : BasicInfo :=
  {| bi_global_time := frame_time frame;
     bi_tid := frame_tid frame;
     bi_ev := Event_encode X (frame_event frame);
     bi_ticks := frame_ticks frame;
     bi_monotonic_sec := frame_monotonic frame |}.

Definition exec_info_bytes (X : Collab) (frame : TraceFrame (Event X)) : list byte :=
  let extra := recorded_extra_regs frame in
  let extra_reg_bytes := cast c_int (Z.of_nat (length (er_data extra))) in
  put c_char (arch_tag (regs_arch (recorded_regs frame)))
  ++ regs_data (recorded_regs frame)
  ++ put c_char (cast c_char (er_format extra))
  ++ put c_int extra_reg_bytes
  ++ (if 0 <? extra_reg_bytes then take (Z.to_nat extra_reg_bytes) (er_data extra) else []).

Definition frame_bytes (X : Collab) (frame : TraceFrame (Event X)) : list byte :=
  BasicInfo_bytes (BasicInfo_of_frame X frame)
  ++ (if has_exec_info X (frame_event frame) then exec_info_bytes X frame else []).

(** The fields of [BasicInfo] hold values of their C types. *)
Definition BasicInfo_valid (b : BasicInfo) : Prop :=
  in_range c_int64 (bi_global_time b) /\ in_range c_int (bi_tid b)
  /\ in_range c_int (bi_ev b) /\ in_range c_int64 (bi_ticks b)
  /\ in_range c_double (bi_monotonic_sec b).

Definition user_regs_size (X : Collab) (a : SupportedArch) : nat :=
  match a with
  | x86 => sizeof_x86_user_regs X
  | x86_64 => sizeof_x64_user_regs X
  end.

(** A frame as the recorder makes it and as the reader can take it back:
    its fields hold values of their C types, its event is the one its
    encoding decodes to, with exec info its register block has the size
    of its architecture and its extra registers are what
    [set_to_raw_data] makes of their bytes (none when there are no
    bytes), and without exec info it carries no registers. *)
Definition frame_wf (X : Collab) (layout : XSaveLayout X) (frame : TraceFrame (Event X))
  : Prop :=
  BasicInfo_valid (BasicInfo_of_frame X frame)
  /\ Event_decode X (Event_encode X (frame_event frame)) = frame_event frame
  /\ if has_exec_info X (frame_event frame) then
       length (regs_data (recorded_regs frame))
         = user_regs_size X (regs_arch (recorded_regs frame))
       /\ in_range c_char (er_format (recorded_extra_regs frame))
       /\ in_range c_int (Z.of_nat (length (er_data (recorded_extra_regs frame))))
       /\ match er_data (recorded_extra_regs frame) with
          | [] => recorded_extra_regs frame
                  = ExtraRegisters_empty (Event_arch X (frame_event frame))
          | _ :: _ =>
              set_to_raw_data X (Event_arch X (frame_event frame))
                (er_format (recorded_extra_regs frame))
                (er_data (recorded_extra_regs frame)) layout
              = Some (recorded_extra_regs frame)
          end
     else
       recorded_regs frame = Registers_default
       /\ recorded_extra_regs frame = ExtraRegisters_empty x86.

(** *** The stream part of [read_frame]

    [read_frame] decodes a frame from the events substream, then ticks
    the clock and checks the frame against it; [decode_frame] is the
    first part, which touches nothing but the substream. *)
Definition decode_frame (X : Collab) (layout : XSaveLayout X)
    (events : CompressedReader byte)
  : outcome (TraceFrame (Event X) * CompressedReader byte) :=
  '(bytes, events) ← rd_read sizeof_BasicInfo events;
  let basic_info := BasicInfo_of_bytes bytes in
  let frame :=
    TraceFrame_new X Registers_default (ExtraRegisters_empty x86)
      (bi_global_time basic_info) (bi_tid basic_info)
      (Event_decode X (bi_ev basic_info)) (bi_ticks basic_info)
      (bi_monotonic_sec basic_info) in
  if has_exec_info X (frame_event frame) then
    '(a, events) ← rd_get c_char events;
    '(regs, events) ←
      match arch_of_tag a with
      | Some x86 =>
          '(buf, events) ← rd_read (sizeof_x86_user_regs X) events;
          Ok ({| regs_arch := x86; regs_data := buf |}, events)
      | Some x86_64 =>
          '(buf, events) ← rd_read (sizeof_x64_user_regs X) events;
          Ok ({| regs_arch := x86_64; regs_data := buf |}, events)
      | None => Fatal "Unknown arch"
      end;
    '(extra_reg_format, events) ← rd_get c_char events;
    '(extra_reg_bytes, events) ← rd_get c_int events;
    if 0 <? extra_reg_bytes then
      '(data, events) ← rd_read (Z.to_nat extra_reg_bytes) events;
      match set_to_raw_data X (Event_arch X (frame_event frame)) extra_reg_format
              data layout with
      | Some extra => Ok (set_regs X regs extra frame, events)
      | None => Fatal "Invalid XSAVE data in trace"
      end
    else
      _ ← c_assert (extra_reg_format =? NONE) "extra_reg_format == ExtraRegisters::NONE";
      Ok (set_regs X regs (ExtraRegisters_empty (Event_arch X (frame_event frame))) frame,
          events)
  else Ok (frame, events).

(** The XSAVE layout a reader derives from its CPUID records. *)
Definition reader_layout (X : Collab) (r : TraceReader) : XSaveLayout X :=
  xsave_layout_from_trace X (cpuid_records_ r).

(** The same substream reader with another saved state. *)
Definition set_saved {A} (s : option (list A)) (r : CompressedReader A)
  : CompressedReader A :=
  {| rd_rest := rd_rest r; rd_saved := s |}.

(** Two frames written at times 1 and 2, the second with exec info. *)
Definition frame_1 : TraceFrame (Event plain_collab) :=
  {| frame_time := 1; frame_tid := 42; frame_event := 4; frame_ticks := 0;
     frame_monotonic := 0; recorded_regs := Registers_default;
     recorded_extra_regs := ExtraRegisters_empty x86 |}.

Definition frame_2 : TraceFrame (Event plain_collab) :=
  {| frame_time := 2; frame_tid := 42; frame_event := 1; frame_ticks := 7;
     frame_monotonic := 0;
     recorded_regs := {| regs_arch := x86; regs_data := repeat "000"%byte 68 |};
     recorded_extra_regs :=
       {| er_format := XSAVE; er_arch := x86; er_data := ["001"%byte; "002"%byte] |} |}.

(** The version file a writer leaves behind. *)
Definition version_file_ok : VersionFile :=
  w_version (TraceWriter_new "/t" 0 false [] [] false).

(** A reader on a trace that holds [frame_1] and [frame_2]. *)
Definition reader_two_frames : TraceReader :=
  {| r_trace_dir := "/t"; r_global_time := 0;
     r_events := rd_open (frame_bytes plain_collab frame_1
                          ++ frame_bytes plain_collab frame_2);
     r_data_header := rd_open []; r_data := rd_open [];
     r_mmaps := rd_open []; r_tasks := rd_open []; r_generic := rd_open [];
     r_bind_to_cpu := 0; trace_uses_cpuid_faulting := false; cpuid_records_ := [] |}.

(** A result on a substream, with the saved state replaced. *)
Definition lift_saved {A B} (s : option (list B)) (o : outcome (A * CompressedReader B))
  : outcome (A * CompressedReader B) :=
  '(a, r) ← o; Ok (a, set_saved s r).

(** A reader whose events substream is exhausted. *)
Definition reader_at_end : TraceReader :=
  {| r_trace_dir := "/t"; r_global_time := 2;
     r_events := rd_open []; r_data_header := rd_open []; r_data := rd_open [];
     r_mmaps := rd_open []; r_tasks := rd_open []; r_generic := rd_open [];
     r_bind_to_cpu := 0; trace_uses_cpuid_faulting := false; cpuid_records_ := [] |}.

(** *** Raw data records *)

(** The time of the next record of the data_header substream, when
    there is one. *)
Definition next_raw_time (r : TraceReader) : option Z :=
  if rd_at_end (r_data_header r) then None
  else
    match rd_get c_int64 (r_data_header r) with
    | Ok (time, _) => Some time
    | _ => None
    end.

(** What [write_raw] puts into the data_header substream. *)
Definition raw_header_bytes (time rec_tid addr len : Z) : list byte :=
  put c_int64 time ++ put c_int rec_tid ++ put c_size_t addr ++ put c_size_t len.

(** A raw record as [write_raw] takes it: a tid, an address, and bytes
    whose number fits [size_t]. *)
Definition raw_valid (d : RawData) : Prop :=
  in_range c_int (raw_rec_tid d) /\ in_range c_size_t (raw_addr d)
  /\ in_range c_size_t (Z.of_nat (length (raw_data d))).

(** Scenario S2: the reader has read the frame of time 1, and one raw
    record was written for it. *)
Definition raw_abc : RawData :=
  {| raw_data := ["a"%byte; "b"%byte; "c"%byte]; raw_addr := 4096; raw_rec_tid := 7 |}.

Definition reader_raw_abc : TraceReader :=
  {| r_trace_dir := "/t"; r_global_time := 1;
     r_events := rd_open [];
     r_data_header := rd_open (raw_header_bytes 1 7 4096 3);
     r_data := rd_open (raw_data raw_abc);
     r_mmaps := rd_open []; r_tasks := rd_open []; r_generic := rd_open [];
     r_bind_to_cpu := 0; trace_uses_cpuid_faulting := false; cpuid_records_ := [] |}.

Definition no_raw : RawData := {| raw_data := []; raw_addr := 0; raw_rec_tid := 0 |}.

(** A frame with exec info whose extra registers have format [NONE]
    and one byte of data. *)
Definition frame_none_with_data : TraceFrame (Event plain_collab) :=
  {| frame_time := 1; frame_tid := 42; frame_event := 1; frame_ticks := 0;
     frame_monotonic := 0;
     recorded_regs := {| regs_arch := x86; regs_data := repeat "000"%byte 68 |};
     recorded_extra_regs :=
       {| er_format := NONE; er_arch := x86; er_data := ["001"%byte] |} |}.

(** A reader about to read the frame whose bytes are [events]. *)
Definition reader_on_events (time : Z) (events : list byte) : TraceReader :=
  {| r_trace_dir := "/t"; r_global_time := time;
     r_events := rd_open events;
     r_data_header := rd_open []; r_data := rd_open [];
     r_mmaps := rd_open []; r_tasks := rd_open []; r_generic := rd_open [];
     r_bind_to_cpu := 0; trace_uses_cpuid_faulting := false; cpuid_records_ := [] |}.

(** A new writer. *)
Definition writer_0 : TraceWriter := TraceWriter_new "/t" 0 false [] [] false.

(** *** The rules of the mapping classifier, as the specification
    lists them *)

Definition rule_remap_or_patch (origin : MappingOrigin) : Prop :=
  origin = REMAP_MAPPING \/ origin = PATCH_MAPPING.

Definition rule_sysv (km : KernelMapping) : Prop :=
  String.prefix "/SYSV" (km_fsname km) = true.

Definition rule_anonymous (origin : MappingOrigin) (km : KernelMapping) : Prop :=
  origin = SYSCALL_MAPPING
  /\ (km_inode km = 0 \/ km_fsname km = "/dev/zero (deleted)"%string).

Definition rule_rr_buffer (origin : MappingOrigin) : Prop :=
  origin = RR_BUFFER_MAPPING.

Definition is_map_private (km : KernelMapping) : Prop :=
  Z.land (km_flags km) MAP_PRIVATE <> 0.

(** The clone attempted for a [MAP_PRIVATE] mapping (rule 5): its
    result and the file system after it; no attempt for other
    mappings. *)
Definition private_clone (K : Kernel) (w : TraceWriter) (t : RecordTask)
    (km : KernelMapping) (k : World K) : option string * World K :=
  if negb (Z.land (km_flags km) MAP_PRIVATE =? 0)
  then try_clone_file K w t (km_fsname km) k
  else (None, k).

Definition rule_copy (K : Kernel) (w : TraceWriter) (km : KernelMapping) (stat : StatBuf)
    (k : World K) : Prop :=
  should_copy_mmap_region K k km stat = true
  /\ (st_dev stat, st_ino stat) ∉ files_assumed_immutable w.

Definition clone_name (w : TraceWriter) (file_name : string) : string :=
  "mmap_clone_" +:+ decimal (mmap_count w) +:+ "_" +:+ base_file_name file_name.

Definition hardlink_name (w : TraceWriter) (file_name : string) : string :=
  "mmap_hardlink_" +:+ decimal (mmap_count w) +:+ "_" +:+ base_file_name file_name.

(** The backing of the last rule: the clone name, else the hardlink
    name, else the original path. *)
Definition fallback_backing (K : Kernel) (w : TraceWriter) (t : RecordTask)
    (km : KernelMapping) (k : World K) : string :=
  match try_clone_file K w t (km_fsname km) k with
  | (Some _, _) => clone_name w (km_fsname km)
  | (None, k) =>
      if fst (sys_link K (km_fsname km)
                (w_trace_dir w +:+ "/" +:+ hardlink_name w (km_fsname km)) k)
      then hardlink_name w (km_fsname km)
      else km_fsname km
  end.

(** The source of the record [write_mapped_region] has just emitted. *)
Definition emitted_source (w : TraceWriter) : option MMapSource :=
  mm_source <$> last (cw_data (w_mmaps w)).

(** A file system where every call succeeds and nothing is thought
    worth copying, and one where every call fails. *)
Definition kernel_all_ok : Kernel :=
  {| World := unit;
     sys_open_rdonly := fun _ k => (true, k);
     sys_open_excl := fun _ k => (true, k);
     sys_ioctl_clone := fun _ _ k => (true, k);
     sys_unlink := fun _ k => k;
     sys_link := fun _ _ k => (true, k);
     should_copy_mmap_region := fun _ _ _ => false |}.

Definition kernel_all_fail : Kernel :=
  {| World := unit;
     sys_open_rdonly := fun _ k => (false, k);
     sys_open_excl := fun _ k => (false, k);
     sys_ioctl_clone := fun _ _ k => (false, k);
     sys_unlink := fun _ k => k;
     sys_link := fun _ _ k => (false, k);
     should_copy_mmap_region := fun _ _ _ => false |}.

Definition task_cloning : RecordTask := {| use_file_cloning := true |}.

(** A shared mapping of a library, and its [stat]. *)
Definition km_shared_lib : KernelMapping :=
  {| km_start := 4096; km_end := 8192; km_fsname := "/lib/x.so"; km_device := 8;
     km_inode := 77; km_prot := 5; km_flags := 1; km_file_offset_bytes := 0 |}.

Definition stat_lib : StatBuf :=
  {| st_dev := 8; st_ino := 77; st_mode := 33261; st_uid := 0; st_gid := 0;
     st_size := 100; st_mtime := 1 |}.

(** *** Recording frame by frame

    The recorder writes the records that belong to a frame (task
    events, mapped regions, raw data, generic payloads) at the time of
    that frame, and then the frame, which ticks the clock. *)

Inductive SideRecord : Type :=
| TaskRecord (event : TraceTaskEvent)
| MappedRecord (t : RecordTask) (km : KernelMapping) (stat : StatBuf) (origin : MappingOrigin)
| RawRecord (d : RawData)
| GenericRecord (d : list byte).

Definition write_side (K : Kernel) (rec : SideRecord) (s : TraceWriter * World K)
  : outcome (TraceWriter * World K) :=
  let '(w, k) := s in
  match rec with
  | TaskRecord event => w ← write_task_event w event; Ok (w, k)
  | MappedRecord t km stat origin =>
      let '(_, w, k) := write_mapped_region K w t km stat origin k in Ok (w, k)
  | RawRecord d => Ok (write_raw w (raw_rec_tid d) (raw_data d) (raw_addr d), k)
  | GenericRecord d => Ok (write_generic w d, k)
  end.

Fixpoint write_sides (K : Kernel) (recs : list SideRecord) (s : TraceWriter * World K)
  : outcome (TraceWriter * World K) :=
  match recs with
  | [] => Ok s
  | rec :: recs => s ← write_side K rec s; write_sides K recs s
  end.

(** The records of a frame, then the frame. *)
Definition write_group (X : Collab) (K : Kernel)
    (g : list SideRecord * TraceFrame (Event X)) (s : TraceWriter * World K)
  : outcome (TraceWriter * World K) :=
  '(w, k) ← write_sides K (fst g) s;
  w ← write_frame X w (snd g);
  Ok (w, k).

Fixpoint write_groups (X : Collab) (K : Kernel)
    (gs : list (list SideRecord * TraceFrame (Event X))) (s : TraceWriter * World K)
  : outcome (TraceWriter * World K) :=
  match gs with
  | [] => Ok s
  | g :: gs => s ← write_group X K g s; write_groups X K gs s
  end.

(** *** Reading back frame by frame *)

Inductive SideKind : Type := KTask | KMapped | KRaw | KGeneric.

Definition kind_of (rec : SideRecord) : SideKind :=
  match rec with
  | TaskRecord _ => KTask
  | MappedRecord _ _ _ _ => KMapped
  | RawRecord _ => KRaw
  | GenericRecord _ => KGeneric
  end.

(** What a read operation hands back. *)
Inductive ReadBack : Type :=
| GotTask (event : TraceTaskEvent)
| GotMapped (km : KernelMapping) (data : option MappedData) (found : bool)
| GotRaw (d : RawData)
| GotGeneric (d : list byte).

(** The read operation for a kind of record; [d0] is the object the
    caller passes to [read_mapped_region]. *)
Definition read_side (fs_stat : string -> option StatBuf) (validate : ValidateSourceFile)
    (time_constraint : TimeConstraint) (d0 : MappedData) (kind : SideKind)
    (r : TraceReader) : outcome (ReadBack * TraceReader) :=
  match kind with
  | KTask => '(event, r) ← read_task_event r; Ok (GotTask event, r)
  | KMapped =>
      '(res, r) ← read_mapped_region fs_stat r (Some d0) validate time_constraint;
      Ok (GotMapped (mr_mapping res) (mr_data res) (mr_found res), r)
  | KRaw => '(d, r) ← read_raw_data r; Ok (GotRaw d, r)
  | KGeneric => '(d, r) ← read_generic r; Ok (GotGeneric d, r)
  end.

Fixpoint read_sides (fs_stat : string -> option StatBuf) (validate : ValidateSourceFile)
    (time_constraint : TimeConstraint) (d0 : MappedData) (kinds : list SideKind)
    (r : TraceReader) : outcome (list ReadBack * TraceReader) :=
  match kinds with
  | [] => Ok ([], r)
  | kind :: kinds =>
      '(got, r) ← read_side fs_stat validate time_constraint d0 kind r;
      '(gots, r) ← read_sides fs_stat validate time_constraint d0 kinds r;
      Ok (got :: gots, r)
  end.

(** The frame, then its records. *)
Definition read_group (X : Collab) (fs_stat : string -> option StatBuf)
    (validate : ValidateSourceFile) (time_constraint : TimeConstraint) (d0 : MappedData)
    (kinds : list SideKind) (r : TraceReader)
  : outcome (TraceFrame (Event X) * list ReadBack * TraceReader) :=
  '(frame, r) ← read_frame X r;
  '(gots, r) ← read_sides fs_stat validate time_constraint d0 kinds r;
  Ok (frame, gots, r).

Fixpoint read_groups (X : Collab) (fs_stat : string -> option StatBuf)
    (validate : ValidateSourceFile) (time_constraint : TimeConstraint) (d0 : MappedData)
    (shape : list (list SideKind)) (r : TraceReader)
  : outcome (list (TraceFrame (Event X) * list ReadBack) * TraceReader) :=
  match shape with
  | [] => Ok ([], r)
  | kinds :: shape =>
      '(frame, gots, r) ← read_group X fs_stat validate time_constraint d0 kinds r;
      '(rest, r) ← read_groups X fs_stat validate time_constraint d0 shape r;
      Ok ((frame, gots) :: rest, r)
  end.

(** *** What is to come back *)

Definition source_kind (src : MMapSource) : MappedDataSource :=
  match src with
  | SrcZero => SOURCE_ZERO
  | SrcTrace => SOURCE_TRACE
  | SrcFile _ => SOURCE_FILE
  end.

(** A backing name as the reader resolves it: relative names are under
    the trace directory. *)
Definition resolve_backing (trace_dir name : string) : string :=
  if starts_with_slash name then name else trace_dir +:+ "/" +:+ name.

(** For a record written in state [s]: the record itself; for a mapped
    region the mapping, and the time, source, backing file and size
    that were recorded for it. *)
Definition expect_side (K : Kernel) (d0 : MappedData) (rec : SideRecord)
    (s : TraceWriter * World K) : ReadBack :=
  match rec with
  | TaskRecord event => GotTask event
  | RawRecord d => GotRaw d
  | GenericRecord d => GotGeneric d
  | MappedRecord t km stat origin =>
      let src := fst (fst (classify_mapping K (fst s) t km stat origin (snd s))) in
      GotMapped km
        (Some {| md_time := w_global_time (fst s);
                 md_source := source_kind src;
                 md_file_name :=
                   match src with
                   | SrcFile name => resolve_backing (w_trace_dir (fst s)) (data_to_str name)
                   | _ => md_file_name d0
                   end;
                 md_data_offset_bytes :=
                   match src with
                   | SrcFile _ => km_file_offset_bytes km
                   | _ => 0
                   end;
                 md_file_size_bytes := st_size stat |})
        true
  end.

Fixpoint expect_sides (K : Kernel) (d0 : MappedData) (recs : list SideRecord)
    (s : TraceWriter * World K) : list ReadBack :=
  match recs with
  | [] => []
  | rec :: recs =>
      expect_side K d0 rec s
      :: match write_side K rec s with
         | Ok s' => expect_sides K d0 recs s'
         | _ => []
         end
  end.

Fixpoint expect_groups (X : Collab) (K : Kernel) (d0 : MappedData)
    (gs : list (list SideRecord * TraceFrame (Event X))) (s : TraceWriter * World K)
  : list (TraceFrame (Event X) * list ReadBack) :=
  match gs with
  | [] => []
  | g :: gs =>
      (snd g, expect_sides K d0 (fst g) s)
      :: match write_group X K g s with
         | Ok s' => expect_groups X K d0 gs s'
         | _ => []
         end
  end.

(** *** Records the recorder makes *)

Definition task_event_wf (event : TraceTaskEvent) : Prop :=
  0 < tte_tid event
  /\ match tte_type event with
     | TTE_NONE => False
     | CLONE parent_tid own_ns_tid _ => 0 < parent_tid /\ 0 < own_ns_tid
     | EXEC _ _ | EXIT _ => True
     end.

Definition side_wf (rec : SideRecord) : Prop :=
  match rec with
  | TaskRecord event => task_event_wf event
  | MappedRecord _ km stat _ => 0 <= st_size stat /\ 0 <= km_file_offset_bytes km
  | RawRecord d => raw_valid d
  | GenericRecord d => in_range c_size_t (Z.of_nat (length d))
  end.

(** The groups written from clock [time] on: each frame is well formed
    and carries the time of the clock, which it then advances. *)
Fixpoint groups_wf (X : Collab) (layout : XSaveLayout X) (time : Z)
    (gs : list (list SideRecord * TraceFrame (Event X))) : Prop :=
  match gs with
  | [] => True
  | g :: gs =>
      frame_wf X layout (snd g) /\ frame_time (snd g) = time
      /\ Forall side_wf (fst g)
      /\ groups_wf X layout (time + 1) gs
  end.

(** *** The contents of the six substreams *)

Record Contents : Type := {
  c_events : list byte;
  c_data_header : list byte;
  c_data : list byte;
  c_mmaps : list MMapMsg;
  c_tasks : list TaskEventMsg;
  c_generic : list byte
}.

Definition c_nil : Contents :=
  {| c_events := []; c_data_header := []; c_data := []; c_mmaps := []; c_tasks := [];
     c_generic := [] |}.

Definition c_app (a b : Contents) : Contents :=
  {| c_events := c_events a ++ c_events b;
     c_data_header := c_data_header a ++ c_data_header b;
     c_data := c_data a ++ c_data b;
     c_mmaps := c_mmaps a ++ c_mmaps b;
     c_tasks := c_tasks a ++ c_tasks b;
     c_generic := c_generic a ++ c_generic b |}.

(** What a writer has written, and what a reader has yet to read. *)
Definition w_contents (w : TraceWriter) : Contents :=
  {| c_events := cw_data (w_events w);
     c_data_header := cw_data (w_data_header w);
     c_data := cw_data (w_data w);
     c_mmaps := cw_data (w_mmaps w);
     c_tasks := cw_data (w_tasks w);
     c_generic := cw_data (w_generic w) |}.

Definition r_contents (r : TraceReader) : Contents :=
  {| c_events := rd_rest (r_events r);
     c_data_header := rd_rest (r_data_header r);
     c_data := rd_rest (r_data r);
     c_mmaps := rd_rest (r_mmaps r);
     c_tasks := rd_rest (r_tasks r);
     c_generic := rd_rest (r_generic r) |}.

(** The message [write_mapped_region] builds. *)
Definition MMap_of (time : Z) (km : KernelMapping) (stat : StatBuf) (src : MMapSource)
  : MMapMsg :=
  {| mm_frameTime := time;
     mm_start := km_start km; mm_end := km_end km;
     mm_fsname := str_to_data (km_fsname km);
     mm_device := km_device km; mm_inode := km_inode km;
     mm_prot := km_prot km; mm_flags := km_flags km;
     mm_fileOffsetBytes := km_file_offset_bytes km;
     mm_statMode := st_mode stat; mm_statUid := st_uid stat;
     mm_statGid := st_gid stat; mm_statSize := st_size stat;
     mm_statMTime := st_mtime stat;
     mm_source := src |}.

(** The message [write_task_event] builds, for an event that is not
    [NONE]. *)
Definition TaskEvent_of (time : Z) (event : TraceTaskEvent) : TaskEventMsg :=
  {| te_frameTime := time;
     te_tid := tte_tid event;
     te_which :=
       match tte_type event with
       | CLONE p o f => MsgClone p o f
       | EXEC file cmd => MsgExec (str_to_data file) (map str_to_data cmd)
       | EXIT status => MsgExit status
       | TTE_NONE => MsgExit 0
       end |}.

(** What writing a record in state [s] adds to the substreams. *)
Definition side_contents (K : Kernel) (rec : SideRecord) (s : TraceWriter * World K)
  : Contents :=
  let time := w_global_time (fst s) in
  match rec with
  | TaskRecord event =>
      {| c_events := []; c_data_header := []; c_data := []; c_mmaps := [];
         c_tasks := [TaskEvent_of time event]; c_generic := [] |}
  | MappedRecord t km stat origin =>
      let src := fst (fst (classify_mapping K (fst s) t km stat origin (snd s))) in
      {| c_events := []; c_data_header := []; c_data := [];
         c_mmaps := [MMap_of time km stat src]; c_tasks := []; c_generic := [] |}
  | RawRecord d =>
      {| c_events := [];
         c_data_header := raw_header_bytes time (raw_rec_tid d) (raw_addr d)
                                           (Z.of_nat (length (raw_data d)));
         c_data := raw_data d; c_mmaps := []; c_tasks := []; c_generic := [] |}
  | GenericRecord d =>
      {| c_events := []; c_data_header := []; c_data := []; c_mmaps := []; c_tasks := [];
         c_generic := put c_int64 time ++ put c_size_t (Z.of_nat (length d)) ++ d |}
  end.

Definition frame_contents (X : Collab) (frame : TraceFrame (Event X)) : Contents :=
  {| c_events := frame_bytes X frame; c_data_header := []; c_data := []; c_mmaps := [];
     c_tasks := []; c_generic := [] |}.

Fixpoint sides_contents (K : Kernel) (recs : list SideRecord) (s : TraceWriter * World K)
  : Contents :=
  match recs with
  | [] => c_nil
  | rec :: recs =>
      c_app (side_contents K rec s)
            match write_side K rec s with
            | Ok s' => sides_contents K recs s'
            | _ => c_nil
            end
  end.

Fixpoint groups_contents (X : Collab) (K : Kernel)
    (gs : list (list SideRecord * TraceFrame (Event X))) (s : TraceWriter * World K)
  : Contents :=
  match gs with
  | [] => c_nil
  | g :: gs =>
      c_app (c_app (sides_contents K (fst g) s) (frame_contents X (snd g)))
            match write_group X K g s with
            | Ok s' => groups_contents X K gs s'
            | _ => c_nil
            end
  end.

(** What stays as it is in a reader while it reads records. *)
Definition same_reader (r r' : TraceReader) : Prop :=
  r_global_time r' = r_global_time r
  /\ r_trace_dir r' = r_trace_dir r
  /\ cpuid_records_ r' = cpuid_records_ r.

(** The XSAVE layout a reader derives from the CPUID records of a
    header. *)
Definition layout_of_header (X : Collab) (cpuid_records : list byte) : XSaveLayout X :=
  xsave_layout_from_trace X
    (chunks (sizeof_CPUIDRecord X)
            (length cpuid_records / sizeof_CPUIDRecord X) cpuid_records).

(** The kinds of records to read back, frame by frame. *)
Definition shape_of {E} (gs : list (list SideRecord * TraceFrame E)) : list (list SideKind) :=
  map (fun g => map kind_of (fst g)) gs.

(** A record and what is read back for it: the record itself, and for
    a mapped region its mapping with the recorded time and size. *)
Definition side_matches (time : Z) (rec : SideRecord) (got : ReadBack) : Prop :=
  match rec with
  | TaskRecord event => got = GotTask event
  | RawRecord d => got = GotRaw d
  | GenericRecord d => got = GotGeneric d
  | MappedRecord _ km stat _ =>
      exists data, got = GotMapped km (Some data) true
                   /\ md_time data = time
                   /\ md_file_size_bytes data = st_size stat
  end.

Definition group_matches {E} (g : list SideRecord * TraceFrame E)
    (got : TraceFrame E * list ReadBack) : Prop :=
  fst got = snd g /\ Forall2 (side_matches (frame_time (snd g))) (fst g) (snd got).

(** Scenario S6 and S2 in one frame: a clone, an exec whose command
    line has a NUL inside an argument, an exit, and a raw record, all
    written for [frame_1]; then [frame_2]. *)
Definition cmd_line_nul : list string :=
  ["ls"%string; String "a" (String "000" (String "b" EmptyString)); EmptyString].

Definition groups_demo : list (list SideRecord * TraceFrame (Event plain_collab)) :=
  [ ([ TaskRecord {| tte_tid := 43; tte_type := CLONE 42 1 17 |};
       TaskRecord {| tte_tid := 43; tte_type := EXEC "/bin/ls" cmd_line_nul |};
       MappedRecord task_cloning km_shared_lib stat_lib EXEC_MAPPING;
       RawRecord raw_abc;
       GenericRecord ["x"%byte];
       TaskRecord {| tte_tid := 43; tte_type := EXIT 0 |} ],
     frame_1);
    ([], frame_2) ].

Definition no_mapped_data : MappedData :=
  {| md_time := 0; md_source := SOURCE_ZERO; md_file_name := EmptyString;
     md_data_offset_bytes := 0; md_file_size_bytes := 0 |}.

(** A frame stamped with a time that is not the writer's clock. *)
Definition frame_at_5 : TraceFrame (Event plain_collab) :=
  {| frame_time := 5; frame_tid := 42; frame_event := 4; frame_ticks := 0;
     frame_monotonic := 0; recorded_regs := Registers_default;
     recorded_extra_regs := ExtraRegisters_empty x86 |}.

(** The trace a new reader is opened on. *)
Definition open_trace (X : Collab) (trace_dir : string) (files : TraceFiles)
  : outcome TraceReader :=
  TraceReader_new X trace_dir (Readable (file_version files)) files.

(** *** Version lines that are a number in decimal *)

Fixpoint string_forall (P : ascii -> bool) (s : string) : bool :=
  match s with
  | EmptyString => true
  | String c s' => P c && string_forall P s'
  end.

(** The characters [printf("%ld")] produces. *)
Definition is_decimal_char (c : ascii) : bool :=
  Ascii.eqb c "-" || match digit_value c with Some _ => true | None => false end.

(** A version file whose text is the number [n] in decimal and a
    newline. *)
Definition version_file_of (n : Z) (header : option HeaderMsg) : VersionFile :=
  {| vf_text := list_byte_of_string (decimal n +:+ nl); vf_header := header |}.

(** ** The substreams

    Modelled from the spec: [enum Substream] is declared in
    [TraceStream.h]; the enumerators number the rows of the table
    [substreams] in the order of the specification. *)
Inductive Substream : Type :=
| EVENTS | RAW_DATA_HEADER | RAW_DATA | MMAPS | TASKS | GENERIC.

Definition substream_index (s : Substream) : nat :=
  match s with
  | EVENTS => 0 | RAW_DATA_HEADER => 1 | RAW_DATA => 2
  | MMAPS => 3 | TASKS => 4 | GENERIC => 5
  end%nat.

(** [struct SubstreamData] *)
Record SubstreamData : Type := {
  sd_name : string;
  sd_block_size : Z;
  sd_threads : Z
}.

(** The static table [substreams] as it is initialised. *)
Definition substreams : list SubstreamData :=
  [ {| sd_name := "events"; sd_block_size := 1024 * 1024; sd_threads := 1 |};
    {| sd_name := "data_header"; sd_block_size := 1024 * 1024; sd_threads := 1 |};
    {| sd_name := "data"; sd_block_size := 1024 * 1024; sd_threads := 0 |};
    {| sd_name := "mmaps"; sd_block_size := 64 * 1024; sd_threads := 1 |};
    {| sd_name := "tasks"; sd_block_size := 64 * 1024; sd_threads := 1 |};
    {| sd_name := "generic"; sd_block_size := 64 * 1024; sd_threads := 1 |} ].

(** [substreams[s]]; the index of an enumerator is always in the table. *)
Definition substreams_at (table : list SubstreamData) (s : Substream) : SubstreamData :=
  default {| sd_name := ""; sd_block_size := 0; sd_threads := 0 |}
          (table !! substream_index s).

(** [substream(s)]: the row of [s] and the table afterwards; [num_cpus]
    is what [get_num_cpus()] returns. *)
Definition substream (num_cpus : Z) (table : list SubstreamData) (s : Substream)
  : SubstreamData * list SubstreamData :=
  let table :=
    if sd_threads (substreams_at table RAW_DATA) =? 0 then
      let row := substreams_at table RAW_DATA in
      <[ substream_index RAW_DATA :=
           {| sd_name := sd_name row; sd_block_size := sd_block_size row;
              sd_threads := Z.min 8 num_cpus |} ]> table
    else table in
  (substreams_at table s, table).

(** [TraceStream::path] *)
Definition path (trace_dir : string) (num_cpus : Z) (table : list SubstreamData)
    (s : Substream) : string * list SubstreamData :=
  let '(row, table) := substream num_cpus table s in
  (trace_dir +:+ "/" +:+ sd_name row, table).

(** [TraceStream::mmaps_block_size] *)
Definition mmaps_block_size (table : list SubstreamData) : Z :=
  sd_block_size (substreams_at table MMAPS).

(** The table after the calls [substream(s)] for the [s] of [calls]. *)
Definition substream_calls (num_cpus : Z) (calls : list Substream) : list SubstreamData :=
  foldl (fun table s => snd (substream num_cpus table s)) substreams calls.

(** [TaskUid]: the tid and the serial number of a task. *)
Record TaskUid : Type := {
  tuid_tid : Z;
  tuid_serial : Z
}.

(** [TraceStream::file_data_clone_file_name] *)
Definition file_data_clone_file_name (trace_dir : string) (tuid : TaskUid) : string :=
  trace_dir +:+ "/cloned_data_" +:+ decimal (tuid_tid tuid) +:+ "_"
  +:+ decimal (tuid_serial tuid).

(** [c] does not occur in [s]. *)
Definition no_char (c : ascii) (s : string) : bool :=
  string_forall (fun a => negb (Ascii.eqb a c)) s.

(** The record [read_mapped_region] hands back when it finds [map] and
    was given no [data] to fill in. *)
Definition found_mapping (map : MMapMsg) : MappedRegionResult :=
  {| mr_mapping := KernelMapping_of_msg map; mr_data := None; mr_found := true;
     mr_warned := false |}.

(** [has_stat_buf] of [read_mapped_region]. *)
Definition has_stat_buf (map : MMapMsg) : bool :=
  negb (mm_statMode map =? 0) || negb (mm_statUid map =? 0)
  || negb (mm_statGid map =? 0) || negb (mm_statMTime map =? 0).

(** The backing file has the metadata that was recorded. *)
Definition same_metadata (backing_stat : StatBuf) (map : MMapMsg) : Prop :=
  st_ino backing_stat = mm_inode map /\ st_mode backing_stat = mm_statMode map
  /\ st_uid backing_stat = mm_statUid map /\ st_gid backing_stat = mm_statGid map
  /\ st_size backing_stat = mm_statSize map /\ st_mtime backing_stat = mm_statMTime map.

(** A file system with no file in it. *)
Definition no_files : string -> option StatBuf := fun _ => None.

(** A reader at clock [time] with only mapped region records left. *)
Definition reader_on_mmaps (time : Z) (mmaps : list MMapMsg) : TraceReader :=
  {| r_trace_dir := "/t"; r_global_time := time;
     r_events := rd_open []; r_data_header := rd_open []; r_data := rd_open [];
     r_mmaps := rd_open mmaps; r_tasks := rd_open []; r_generic := rd_open [];
     r_bind_to_cpu := 0; trace_uses_cpuid_faulting := false; cpuid_records_ := [] |}.

(** A reader at clock [time] with only task records left. *)
Definition reader_on_tasks (time : Z) (tasks : list TaskEventMsg) : TraceReader :=
  {| r_trace_dir := "/t"; r_global_time := time;
     r_events := rd_open []; r_data_header := rd_open []; r_data := rd_open [];
     r_mmaps := rd_open []; r_tasks := rd_open tasks; r_generic := rd_open [];
     r_bind_to_cpu := 0; trace_uses_cpuid_faulting := false; cpuid_records_ := [] |}.

(** A reader at clock [time] with only generic records left. *)
Definition reader_on_generic (time : Z) (generic : list byte) : TraceReader :=
  {| r_trace_dir := "/t"; r_global_time := time;
     r_events := rd_open []; r_data_header := rd_open []; r_data := rd_open [];
     r_mmaps := rd_open []; r_tasks := rd_open []; r_generic := rd_open generic;
     r_bind_to_cpu := 0; trace_uses_cpuid_faulting := false; cpuid_records_ := [] |}.

(** What [write_generic] puts into the generic substream. *)
Definition generic_bytes (time : Z) (d : list byte) : list byte :=
  put c_int64 time ++ put c_size_t (Z.of_nat (length d)) ++ d.

(** What a reader keeps while it reads records that are not frames: the
    clock, the events substream, the directory and the header fields. *)
Definition same_frame_state (r r' : TraceReader) : Prop :=
  r_global_time r' = r_global_time r
  /\ r_events r' = r_events r
  /\ r_trace_dir r' = r_trace_dir r
  /\ r_bind_to_cpu r' = r_bind_to_cpu r
  /\ trace_uses_cpuid_faulting r' = trace_uses_cpuid_faulting r
  /\ cpuid_records_ r' = cpuid_records_ r.

(** [TraceWriter::write_mapped_region_to_alternative_stream]: the record
    is written to the stream that is passed.  Modelled from the spec:
    the schema is not in [TraceStream.cc]; the fields of a new capnp
    record that are not set (here the mode, uid, gid and mtime of
    [stat]) hold their default, zero. *)
Definition write_mapped_region_to_alternative_stream (mmaps : CompressedWriter MMapMsg)
    (data : MappedData) (km : KernelMapping) : CompressedWriter MMapMsg :=
  let map :=
    {| mm_frameTime := md_time data;
       mm_start := km_start km;
       mm_end := km_end km;
       mm_fsname := str_to_data (km_fsname km);
       mm_device := km_device km;
       mm_inode := km_inode km;
       mm_prot := km_prot km;
       mm_flags := km_flags km;
       mm_fileOffsetBytes := km_file_offset_bytes km;
       mm_statMode := 0;
       mm_statUid := 0;
       mm_statGid := 0;
       mm_statSize := md_file_size_bytes data;
       mm_statMTime := 0;
       mm_source :=
         match md_source data with
         | SOURCE_ZERO => SrcZero
         | SOURCE_TRACE => SrcTrace
         | SOURCE_FILE => SrcFile (str_to_data (md_file_name data))
         end |} in
  cw_write [map] mmaps.

(** A reader in [trace_dir] at clock [time] with only mapped region
    records left. *)
Definition reader_in (trace_dir : string) (time : Z) (mmaps : list MMapMsg) : TraceReader :=
  {| r_trace_dir := trace_dir; r_global_time := time;
     r_events := rd_open []; r_data_header := rd_open []; r_data := rd_open [];
     r_mmaps := rd_open mmaps; r_tasks := rd_open []; r_generic := rd_open [];
     r_bind_to_cpu := 0; trace_uses_cpuid_faulting := false; cpuid_records_ := [] |}.

(** ** Making the trace directory

    The system calls of [ensure_dir] and [make_trace_dir], over a state
    of the file system, the environment, and [basename] of the C
    library.  Path names hold no
    NUL, so that a [string] and its [c_str()] name the same file. *)
Record FileSys : Type := {
  FS : Type;
  (* stat(path, &st): st.st_mode when it returns 0, errno otherwise *)
  fs_stat : string -> FS -> Z + Z;
  (* mkdir(path, mode): None when it returns 0, errno otherwise *)
  fs_mkdir : string -> Z -> FS -> option Z * FS;
  (* access(path, W_OK) == 0 *)
  fs_access_w : string -> FS -> bool;
  fs_getenv : string -> option string;
  libc_basename : string -> string
}.

(** [errno.h] and [sys/stat.h] *)
Definition EEXIST : Z := 17.
Definition S_IFDIR : Z := 16384.   (* 0040000 *)
Definition S_IRWXU : Z := 448.     (* 0700 *)
Definition S_IRWXG : Z := 56.      (* 0070 *)

(** The loop of [ensure_dir] that drops the slashes at the end of the
    name. *)
Fixpoint strip_slashes (d : string) : string :=
  match d with
  | EmptyString => EmptyString
  | String a d' =>
      match strip_slashes d' with
      | EmptyString => if Ascii.eqb a "/" then EmptyString else String a EmptyString
      | s => String a s
      end
  end.

(** [n] slashes. *)
Fixpoint slashes (n : nat) : string :=
  match n with
  | O => EmptyString
  | S n' => String "/" (slashes n')
  end.

(** The last character of a string is [c]. *)
Fixpoint ends_with (c : ascii) (s : string) : bool :=
  match s with
  | EmptyString => false
  | String a EmptyString => Ascii.eqb a c
  | String _ s' => ends_with c s'
  end.

Section Bootstrap.
Context (F : FileSys).

(** The checks at the end of [ensure_dir], on the [st] that [stat]
    filled in. *)
Definition ensure_dir_checks (dir d : string) (st_mode : Z) (k : FS F) : outcome (FS F) :=
  if Z.land S_IFDIR st_mode =? 0 then
    Fatal ("`" +:+ dir +:+ "' exists but isn't a directory.")
  else if negb (fs_access_w F d k) then
    Fatal ("Can't write to `" +:+ dir +:+ "'.")
  else Ok k.

(** [ensure_dir]; it calls itself on a proper prefix of [dir], [fuel]
    bounds the depth of the calls and [None] is a bound that was too
    small. *)
Fixpoint ensure_dir_fuel (fuel : nat) (dir : string) (mode : Z) (k : FS F)
  : option (outcome (FS F)) :=
  match fuel with
  | O => None
  | S fuel =>
      let d := strip_slashes dir in
      match fs_stat F d k with
      | inl st_mode => Some (ensure_dir_checks dir d st_mode k)
      | inr errno =>
          if negb (errno =? ENOENT) then
            Some (Fatal ("Error accessing trace directory `" +:+ dir +:+ "'"))
          else
            match rfind "/" d with
            | None | Some O =>
                Some (Fatal ("Can't find trace directory `" +:+ dir +:+ "'"))
            | Some last_slash =>
                match ensure_dir_fuel fuel (String.substring 0 last_slash d) mode k with
                | None => None
                | Some (Ok k) =>
                    let '(ret, k) := fs_mkdir F d mode k in
                    let failed :=
                      match ret with
                      | Some errno => negb (errno =? EEXIST)
                      | None => false
                      end in
                    if failed then
                      Some (Fatal ("Can't create trace directory `" +:+ dir +:+ "'"))
                    else
                      match fs_stat F d k with
                      | inr _ =>
                          Some (Fatal ("Can't stat trace directory `" +:+ dir +:+ "'"))
                      | inl st_mode => Some (ensure_dir_checks dir d st_mode k)
                      end
                | Some failure => Some failure
                end
            end
      end
  end.

(** The depth of the calls is at most the length of the name. *)
Definition ensure_dir (dir : string) (mode : Z) (k : FS F) : option (outcome (FS F)) :=
  ensure_dir_fuel (S (String.length dir)) dir mode k.

(** What [getenv] and [dir_exists] see in state [k]. *)
Definition environ_of (k : FS F) : Environ :=
  {| getenv := fs_getenv F;
     stat_ok := fun path => match fs_stat F path k with inl _ => true | inr _ => false end |}.

(** [ensure_default_rr_trace_dir]: the static [cached_dir] and the file
    system afterwards. *)
Definition ensure_default_rr_trace_dir (cached_dir : string) (k : FS F)
  : option (outcome (string * FS F)) :=
  let '(dir, cached_dir) := default_rr_trace_dir (environ_of k) cached_dir in
  o ← ensure_dir dir S_IRWXU k;
  Some (k ← o; Ok (cached_dir, k)).

(** The name [make_trace_dir] tries for a nonce. *)
Definition trace_dir_name (exe_path : string) (nonce : Z) (cached_dir : string) (k : FS F)
  : string :=
  fst (trace_save_dir (environ_of k) cached_dir) +:+ "/" +:+ libc_basename F exe_path
  +:+ "-" +:+ decimal nonce.

(** The loop of [make_trace_dir] from [nonce] on; [fuel] bounds the
    number of names tried, [None] is a bound that was too small, and
    the nonce does not overflow. *)
Fixpoint make_trace_dir_loop (fuel : nat) (exe_path : string) (nonce : Z)
    (cached_dir : string) (k : FS F) : option (outcome (string * string * FS F)) :=
  match fuel with
  | O => None
  | S fuel =>
      let dir := trace_dir_name exe_path nonce cached_dir k in
      let cached_dir := snd (trace_save_dir (environ_of k) cached_dir) in
      let '(ret, k) := fs_mkdir F dir (Z.lor S_IRWXU S_IRWXG) k in
      match ret with
      | Some errno =>
          if errno =? EEXIST then make_trace_dir_loop fuel exe_path (nonce + 1) cached_dir k
          else Some (Fatal ("Unable to create trace directory `" +:+ dir +:+ "'"))
      | None => Some (Ok (dir, cached_dir, k))
      end
  end.

(** [make_trace_dir]: the directory, the static [cached_dir] and the
    file system afterwards. *)
Definition make_trace_dir (fuel : nat) (exe_path : string) (cached_dir : string) (k : FS F)
  : option (outcome (string * string * FS F)) :=
  o ← ensure_default_rr_trace_dir cached_dir k;
  match o with
  | Ok (cached_dir, k) => make_trace_dir_loop fuel exe_path 0 cached_dir k
  | Fatal msg => Some (Fatal msg)
  | AssertFail cond => Some (AssertFail cond)
  | Exit status msg => Some (Exit status msg)
  | Throw what => Some (Throw what)
  | ShortRead => Some ShortRead
  end.

(** The name without the slashes at its end is something [stat] finds
    with the bit [S_IFDIR] in its mode and that can be written to. *)
Definition ensured (dir : string) (k : FS F) : Prop :=
  exists st_mode,
    fs_stat F (strip_slashes dir) k = inl st_mode
    /\ Z.land S_IFDIR st_mode <> 0
    /\ fs_access_w F (strip_slashes dir) k = true.

End Bootstrap.

(** A file system that is a list of directories, all of them writable:
    [mkdir] adds a directory whose parent exists. *)
Definition dir_in (path : string) (dirs : list string) : bool :=
  existsb (String.eqb path) dirs.

Definition parent_of (path : string) : string :=
  match rfind "/" path with
  | Some i => String.substring 0 i path
  | None => EmptyString
  end.

Definition fs_dirs (env : string -> option string) : FileSys :=
  {| FS := list string;
     fs_stat := fun path dirs => if dir_in path dirs then inl 16877 else inr ENOENT;
     fs_mkdir := fun path _ dirs =>
       if dir_in path dirs then (Some EEXIST, dirs)
       else if dir_in (parent_of path) dirs then (None, path :: dirs)
       else (Some ENOENT, dirs);
     fs_access_w := fun _ _ => true;
     fs_getenv := env;
     libc_basename := base_file_name |}.

Definition env_home (name : string) : option string :=
  if String.eqb name "HOME" then Some "/h"%string else None.

(** *** Recording in any order

    A call of the recorder on the writer: a frame, or a record that is
    not a frame. *)
Inductive WriterOp (E : Type) : Type :=
| OpFrame (frame : TraceFrame E)
| OpRecord (rec : SideRecord).
Arguments OpFrame {E} frame.
Arguments OpRecord {E} rec.

Definition write_op (X : Collab) (K : Kernel) (op : WriterOp (Event X))
    (s : TraceWriter * World K) : outcome (TraceWriter * World K) :=
  match op with
  | OpFrame frame => w ← write_frame X (fst s) frame; Ok (w, snd s)
  | OpRecord rec => write_side K rec s
  end.

Fixpoint write_ops (X : Collab) (K : Kernel) (ops : list (WriterOp (Event X)))
    (s : TraceWriter * World K) : outcome (TraceWriter * World K) :=
  match ops with
  | [] => Ok s
  | op :: ops => s ← write_op X K op s; write_ops X K ops s
  end.

Definition is_frame_op {E} (op : WriterOp E) : bool :=
  match op with OpFrame _ => true | OpRecord _ => false end.

Definition is_mapped_op {E} (op : WriterOp E) : bool :=
  match op with OpRecord (MappedRecord _ _ _ _) => true | _ => false end.

(** The frame times of a structured substream are in order and none is
    later than [clock]. *)
Definition times_in_order (clock : Z) (times : list Z) : Prop :=
  StronglySorted Z.le times /\ Forall (fun time => 1 <= time <= clock) times.

(** What every writer keeps: its substreams are good, [mmap_count]
    counts the records of the mmaps substream, and the records of the
    mmaps and tasks substreams are in the order of the clock. *)
Definition writer_inv (w : TraceWriter) : Prop :=
  w_good w = true
  /\ mmap_count w = Z.of_nat (length (cw_data (w_mmaps w)))
  /\ times_in_order (w_global_time w) (map mm_frameTime (cw_data (w_mmaps w)))
  /\ times_in_order (w_global_time w) (map te_frameTime (cw_data (w_tasks w))).

(** A task event before the first frame, and a mapped region and a task
    event after it. *)
Definition ops_demo : list (WriterOp (Event plain_collab)) :=
  [OpRecord (TaskRecord {| tte_tid := 43; tte_type := EXIT 0 |});
   OpFrame frame_1;
   OpRecord (MappedRecord task_cloning km_shared_lib stat_lib EXEC_MAPPING);
   OpRecord (TaskRecord {| tte_tid := 44; tte_type := EXIT 0 |})].

(** A reader at clock [time] with only raw data records left. *)
Definition reader_on_raw (time : Z) (data_header data : list byte) : TraceReader :=
  {| r_trace_dir := "/t"; r_global_time := time;
     r_events := rd_open []; r_data_header := rd_open data_header; r_data := rd_open data;
     r_mmaps := rd_open []; r_tasks := rd_open []; r_generic := rd_open [];
     r_bind_to_cpu := 0; trace_uses_cpuid_faulting := false; cpuid_records_ := [] |}.

(** The bytes [write_frame] appends for the registers of a frame: the
    arch tag, the register block, format and length of the extra
    registers, and their data. *)
Definition exec_info_size (X : Collab) (frame : TraceFrame (Event X)) : nat :=
  (1 + length (regs_data (recorded_regs frame)) + 5
   + length (er_data (recorded_extra_regs frame)))%nat.

(** The value [strtol] returns for a number that may not fit a [long]. *)
Definition clamp_long (n : Z) : Z := Z.max LONG_MIN (Z.min LONG_MAX n).

(** A version file that records a number too large for a [long]. *)
Definition version_file_huge : VersionFile :=
  version_file_of 99999999999999999999
    (Some {| h_bindToCpu := 0; h_hasCpuidFaulting := false;
             h_cpuidRecords := []; h_uuid := [] |}).

(** * Properties *)

(** ** Outcomes and object representations *)

Lemma bind_Ok_inv {A B} (m : outcome A) (k : A -> outcome B) (b : B) :
  m ≫= k = Ok b -> exists a, m = Ok a /\ k a = Ok b.
Proof. destruct m; simpl; intros H; try discriminate; eauto. Qed.

Lemma c_assert_Ok_inv b cond u : c_assert b cond = Ok u -> b = true.
Proof. destruct b; simpl; [reflexivity | discriminate]. Qed.

Lemma Z_of_byte_range b : 0 <= Z_of_byte b < 256.
Proof.
  unfold Z_of_byte. pose proof (Byte.to_N_bounded b) as Hb.
  split; [apply N2Z.is_nonneg | ].
  apply N.lt_succ_r in Hb. change (N.succ 255) with 256%N in Hb.
  change 256 with (Z.of_N 256). apply N2Z.inj_lt. exact Hb.
Qed.

Lemma Z_of_byte_of_Z v : Z_of_byte (byte_of_Z v) = v mod 256.
Proof.
  unfold byte_of_Z, Z_of_byte.
  assert (Hr : 0 <= v mod 256 < 256) by (apply Z.mod_pos_bound; lia).
  destruct (Byte.of_N (Z.to_N (v mod 256))) as [b|] eqn:E.
  - apply Byte.to_of_N in E. rewrite E. rewrite Z2N.id; lia.
  - apply Byte.of_N_None_iff in E.
    apply N2Z.inj_lt in E. rewrite Z2N.id in E by lia. simpl in E. lia.
Qed.

Lemma byte_of_Z_of_byte b : byte_of_Z (Z_of_byte b) = b.
Proof.
  unfold byte_of_Z. pose proof (Z_of_byte_range b) as Hr.
  rewrite Z.mod_small by lia. unfold Z_of_byte. rewrite N2Z.id.
  rewrite Byte.of_to_N. reflexivity.
Qed.

Lemma length_le_encode n v : length (le_encode n v) = n.
Proof. revert v; induction n as [|n IH]; intros v; simpl; [reflexivity|]. now rewrite IH. Qed.

Lemma le_decode_encode n v : le_decode (le_encode n v) = v mod 256 ^ Z.of_nat n.
Proof.
  revert v; induction n as [|n IH]; intros v.
  - simpl. now rewrite Z.mod_1_r.
  - cbn [le_encode le_decode]. rewrite IH, Z_of_byte_of_Z.
    rewrite Nat2Z.inj_succ, Z.pow_succ_r by lia.
    rewrite Z.rem_mul_r by lia. lia.
Qed.

Lemma le_decode_range bs : 0 <= le_decode bs < 256 ^ Z.of_nat (length bs).
Proof.
  induction bs as [|b bs IH].
  - simpl. lia.
  - cbn [le_decode length]. pose proof (Z_of_byte_range b).
    rewrite Nat2Z.inj_succ, Z.pow_succ_r by lia. lia.
Qed.

Lemma le_encode_decode bs : le_encode (length bs) (le_decode bs) = bs.
Proof.
  induction bs as [|b bs IH]; [reflexivity|].
  cbn [le_decode length le_encode]. pose proof (Z_of_byte_range b) as Hb.
  f_equal.
  - rewrite <- (byte_of_Z_of_byte b) at 2. unfold byte_of_Z.
    replace ((Z_of_byte b + 256 * le_decode bs) mod 256) with (Z_of_byte b mod 256);
      [reflexivity|].
    rewrite (Z.mod_small (Z_of_byte b)) by lia.
    apply (Z.mod_unique _ _ (le_decode bs)); lia.
  - replace ((Z_of_byte b + 256 * le_decode bs) / 256) with (le_decode bs); [exact IH|].
    apply (Z.div_unique _ _ _ (Z_of_byte b)); lia.
Qed.

Lemma modulus_pos t : 0 < modulus t.
Proof. unfold modulus. apply Z.pow_pos_nonneg; lia. Qed.

Lemma modulus_even t : modulus t = 2 * (modulus t / 2).
Proof. destruct t; reflexivity. Qed.

Lemma cast_in_range t v : in_range t v -> cast t v = v.
Proof.
  unfold in_range, cast. pose proof (modulus_pos t) as Hp.
  pose proof (modulus_even t) as He.
  destruct (is_signed t); simpl; intros Hv.
  - destruct (Z_lt_le_dec v 0) as [Hneg|Hpos].
    + assert (Hm : v mod modulus t = v + modulus t).
      { symmetry. apply (Z.mod_unique _ _ (-1)); lia. }
      rewrite Hm. destruct (Z.leb_spec (modulus t / 2) (v + modulus t)); lia.
    + rewrite Z.mod_small by lia.
      destruct (Z.leb_spec (modulus t / 2) v); lia.
  - now rewrite Z.mod_small.
Qed.

Lemma cast_range t v : in_range t (cast t v).
Proof.
  unfold in_range, cast. pose proof (modulus_pos t) as Hp.
  pose proof (modulus_even t) as He.
  pose proof (Z.mod_pos_bound v (modulus t) Hp) as Hm.
  destruct (is_signed t); simpl; [|lia].
  destruct (Z.leb_spec (modulus t / 2) (v mod modulus t)); lia.
Qed.

Lemma cast_mod t v : cast t (v mod modulus t) = cast t v.
Proof. unfold cast. now rewrite Z.mod_mod by (pose proof (modulus_pos t); lia). Qed.

Lemma length_put t v : length (put t v) = sizeof t.
Proof. apply length_le_encode. Qed.

Lemma get_put_cast t v : get t (put t v) = cast t v.
Proof. unfold get, put. rewrite le_decode_encode. apply cast_mod. Qed.

Lemma get_put t v : in_range t v -> get t (put t v) = v.
Proof. intros Hv. rewrite get_put_cast. now apply cast_in_range. Qed.

Lemma data_to_str_to_data s : data_to_str (str_to_data s) = s.
Proof. apply string_of_list_byte_of_string. Qed.

Lemma map_data_to_str_to_data l : map data_to_str (map str_to_data l) = l.
Proof.
  induction l as [|s l IH]; simpl; [reflexivity|].
  now rewrite data_to_str_to_data, IH.
Qed.

(** ** The trace directory *)

Lemma string_empty_append s t : string_empty t = false -> string_empty (s +:+ t) = false.
Proof. destruct s; simpl; auto. Qed.

Lemma dir_exists_empty E : dir_exists E EmptyString = false.
Proof. reflexivity. Qed.

Lemma dir_exists_append E s t :
  string_empty t = false -> dir_exists E (s +:+ t) = stat_ok E (s +:+ t).
Proof. intros H. unfold dir_exists. now rewrite string_empty_append. Qed.

(** C9, as stated, fails: with only [$HOME] set and both
    [$HOME/.local/share/rr] and [$HOME/.rr] present, the code takes the
    former, the stated order the latter. *)
Lemma trace_root_order_counterexample :
  fst (trace_save_dir env_home_only EmptyString) = "/h/.local/share/rr"
  /\ spec_trace_root env_home_only = "/h/.rr"
  /\ fst (trace_save_dir env_home_only EmptyString) <> spec_trace_root env_home_only.
Proof. repeat split; vm_compute; congruence. Qed.

(** C9, amended: the override first; otherwise, on the first resolution,
    the XDG directory ([$XDG_DATA_HOME/rr], or [$HOME/.local/share/rr]
    when only [$HOME] is set) if it exists, else [$HOME/.rr] if it
    exists, else the XDG directory when there is one, else [/tmp/rr];
    later resolutions return the directory cached by the first. *)
Theorem trace_root_order (E : Environ) (cached_dir : string) :
  (forall output_dir, getenv E "_RR_TRACE_DIR" = Some output_dir ->
     fst (trace_save_dir E cached_dir) = output_dir)
  /\ (getenv E "_RR_TRACE_DIR" = None -> string_empty cached_dir = false ->
      fst (trace_save_dir E cached_dir) = cached_dir)
  /\ (getenv E "_RR_TRACE_DIR" = None -> cached_dir = EmptyString ->
      (forall xdg, xdg_directory E = Some xdg -> stat_ok E xdg = true ->
         fst (trace_save_dir E cached_dir) = xdg)
      /\ (forall dot, (forall xdg, xdg_directory E = Some xdg -> stat_ok E xdg = false) ->
           dot_directory E = Some dot -> stat_ok E dot = true ->
           fst (trace_save_dir E cached_dir) = dot)
      /\ (forall xdg, xdg_directory E = Some xdg -> stat_ok E xdg = false ->
           (forall dot, dot_directory E = Some dot -> stat_ok E dot = false) ->
           fst (trace_save_dir E cached_dir) = xdg)
      /\ (xdg_directory E = None -> fst (trace_save_dir E cached_dir) = "/tmp/rr")).
Proof.
  unfold trace_save_dir, default_rr_trace_dir, xdg_directory, dot_directory.
  split; [intros d ->; reflexivity|].
  split; [intros -> ->; reflexivity|].
  intros -> ->. cbn [string_empty negb].
  destruct (getenv E "XDG_DATA_HOME") as [xdg|], (getenv E "HOME") as [home|];
    rewrite ?dir_exists_empty, ?dir_exists_append by reflexivity;
    rewrite ?string_empty_append by reflexivity; cbn [negb fst];
    (split; [intros x [= <-] Hx; now rewrite Hx|]);
    (split; [intros dot Hx [= <-] Hd; try (rewrite (Hx _ eq_refl)); now rewrite ?Hd|]);
    (split; [intros x [= <-] Hx Hd; rewrite Hx; try (rewrite (Hd _ eq_refl)); reflexivity|]);
    intros [=]; reflexivity.
Qed.

Lemma trace_root_order_witness :
  getenv env_home_only "_RR_TRACE_DIR" = None
  /\ xdg_directory env_home_only = Some "/h/.local/share/rr"
  /\ stat_ok env_home_only "/h/.local/share/rr" = true
  /\ fst (trace_save_dir env_home_only EmptyString) = "/h/.local/share/rr".
Proof.
  split; [reflexivity|]. split; [reflexivity|]. split; [reflexivity|].
  exact (proj1 (proj2 (proj2 (trace_root_order env_home_only EmptyString)) eq_refl eq_refl)
           "/h/.local/share/rr" eq_refl eq_refl).
Defined.

(** ** The version handshake *)

Lemma append_assoc (a b c : string) : (a +:+ b) +:+ c = a +:+ (b +:+ c).
Proof.
  induction a as [|x a IH]; [reflexivity|].
  change (String x ((a +:+ b) +:+ c) = String x (a +:+ (b +:+ c))). now rewrite IH.
Qed.

Lemma mentions_here needle post : mentions needle (needle +:+ post).
Proof. exists EmptyString, post. reflexivity. Qed.

Lemma mentions_skip needle p s : mentions needle s -> mentions needle (p +:+ s).
Proof.
  intros (pre & post & ->). exists (p +:+ pre), post. now rewrite append_assoc.
Qed.

Create HintDb mentions.
#[local] Hint Resolve mentions_here mentions_skip : mentions.

Lemma chunks_concat n len bs : length bs = (len * n)%nat -> concat (chunks n len bs) = bs.
Proof.
  revert bs; induction len as [|len IH]; intros bs Hlen; simpl in *.
  - now destruct bs.
  - rewrite IH.
    + apply take_drop.
    + rewrite length_drop. lia.
Qed.

(** The version check on what [strtol] makes of the version line. *)
Lemma version_check_parsed (X : Collab) (trace_dir : string) (vf : VersionFile)
    (files : TraceFiles) (version_str : string) (rest : list byte) (version : Z) :
  read_version_line (vf_text vf) EmptyString = Some (version_str, rest) ->
  strtol (c_str version_str) = (version, EmptyString) ->
  (version <> TRACE_VERSION ->
     TraceReader_new X trace_dir (Readable vf) files
       = Exit EX_DATAERR (msg_incompatible_version (version_path trace_dir) version)
     /\ EX_DATAERR = 65 /\ TRACE_VERSION = 85
     /\ mentions (decimal version)
                 (msg_incompatible_version (version_path trace_dir) version)
     /\ mentions (decimal TRACE_VERSION)
                 (msg_incompatible_version (version_path trace_dir) version))
  /\ (version = TRACE_VERSION ->
      forall header n,
        rest = [] -> vf_header vf = Some header ->
        length (h_cpuidRecords header) = (n * sizeof_CPUIDRecord X)%nat ->
        exists r,
          TraceReader_new X trace_dir (Readable vf) files = Ok r
          /\ r_bind_to_cpu r = h_bindToCpu header
          /\ trace_uses_cpuid_faulting r = h_hasCpuidFaulting header
          /\ concat (cpuid_records_ r) = h_cpuidRecords header
          /\ r_global_time r = 0).
Proof.
  intros Hline Hparse. unfold TraceReader_new. rewrite Hline, Hparse. cbn [String.eqb negb].
  split.
  - intros Hne.
    destruct (Z.eqb_spec TRACE_VERSION version) as [E|_]; [congruence|]. cbn [negb].
    repeat split; unfold msg_incompatible_version; auto 20 with mentions.
  - intros -> header n -> Hh Hlen. rewrite Z.eqb_refl, Hh. cbn [negb].
    set (sz := sizeof_CPUIDRecord X) in *.
    assert (Hdiv : (length (h_cpuidRecords header) / sz * sz)%nat
                   = length (h_cpuidRecords header)).
    { rewrite Hlen. destruct sz as [|sz']; [simpl; lia|].
      now rewrite Nat.div_mul by lia. }
    cbn [mbind outcome_bind]. rewrite Hdiv, Nat.eqb_refl. cbn [c_assert].
    eexists. split; [reflexivity|]. cbn.
    repeat split; auto. apply chunks_concat. lia.
Qed.

(** ** Numbers in the version line *)

Ltac eval_digit :=
  repeat match goal with
         | |- context [digit_value ?c] =>
             let x := eval vm_compute in (digit_value c) in
             change (digit_value c) with x
         | |- context [isspace ?c] =>
             let x := eval vm_compute in (isspace c) in
             change (isspace c) with x
         end.

Lemma strtol_digits_acc d : forall acc,
  strtol_digits (NilEmpty.string_of_uint d) (Z.pos acc)
  = (Z.pos (Pos.of_uint_acc d acc), EmptyString).
Proof.
  induction d; intros acc; cbn [NilEmpty.string_of_uint strtol_digits Pos.of_uint_acc];
    [reflexivity|..]; eval_digit; cbv iota; rewrite <- IHd; f_equal; lia.
Qed.

Lemma strtol_digits_uint d :
  strtol_digits (NilEmpty.string_of_uint d) 0 = (Z.of_N (Pos.of_uint d), EmptyString).
Proof.
  induction d; cbn [NilEmpty.string_of_uint strtol_digits Pos.of_uint];
    [reflexivity|..]; eval_digit; cbv iota;
    [exact IHd | exact (strtol_digits_acc d _) ..].
Qed.

Lemma strtol_uint d :
  d <> Decimal.Nil ->
  strtol (NilEmpty.string_of_uint d)
  = (Z.max LONG_MIN (Z.min LONG_MAX (Z.of_N (Pos.of_uint d))), EmptyString).
Proof.
  intros Hd. pose proof (strtol_digits_uint d) as H.
  destruct d; [contradiction|..];
    unfold strtol; cbn [NilEmpty.string_of_uint skip_spaces] in *; eval_digit; cbv iota;
    eval_digit; cbv iota; rewrite H; reflexivity.
Qed.

Lemma strtol_neg_uint d :
  d <> Decimal.Nil ->
  strtol (String "-" (NilEmpty.string_of_uint d))
  = (Z.max LONG_MIN (Z.min LONG_MAX (- Z.of_N (Pos.of_uint d))), EmptyString).
Proof.
  intros Hd. pose proof (strtol_digits_uint d) as H.
  destruct d; [contradiction|..];
    unfold strtol; cbn [NilEmpty.string_of_uint skip_spaces] in *; eval_digit; cbv iota;
    eval_digit; cbv iota; rewrite H; reflexivity.
Qed.

Lemma decimal_pos p : decimal (Z.pos p) = NilEmpty.string_of_uint (Pos.to_uint p).
Proof.
  unfold decimal. cbn [Z.to_int NilZero.string_of_int]. unfold NilZero.string_of_uint.
  pose proof (DecimalPos.Unsigned.to_uint_nonnil p) as Hn.
  now destruct (Pos.to_uint p).
Qed.

Lemma decimal_neg p :
  decimal (Z.neg p) = String "-" (NilEmpty.string_of_uint (Pos.to_uint p)).
Proof.
  unfold decimal. cbn [Z.to_int NilZero.string_of_int]. unfold NilZero.string_of_uint.
  pose proof (DecimalPos.Unsigned.to_uint_nonnil p) as Hn.
  now destruct (Pos.to_uint p).
Qed.

Lemma uint_decimal_chars d : string_forall is_decimal_char (NilEmpty.string_of_uint d) = true.
Proof. induction d; cbn [NilEmpty.string_of_uint string_forall]; [reflexivity|..];
  rewrite IHd; reflexivity. Qed.

Lemma decimal_chars n : string_forall is_decimal_char (decimal n) = true.
Proof.
  destruct n as [|p|p]; [reflexivity| |].
  - rewrite decimal_pos. apply uint_decimal_chars.
  - rewrite decimal_neg. cbn [string_forall]. rewrite uint_decimal_chars. reflexivity.
Qed.

Lemma decimal_char_not_nul c : is_decimal_char c = true -> Ascii.eqb c "000" = false.
Proof. destruct c as [[] [] [] [] [] [] [] []]; vm_compute; congruence. Qed.

Lemma decimal_char_not_newline c :
  is_decimal_char c = true -> Byte.eqb (byte_of_ascii c) "010"%byte = false.
Proof. destruct c as [[] [] [] [] [] [] [] []]; vm_compute; congruence. Qed.

Lemma c_str_decimal_chars s : string_forall is_decimal_char s = true -> c_str s = s.
Proof.
  induction s as [|c s IH]; [reflexivity|]. cbn [string_forall c_str].
  intros H. apply andb_true_iff in H as [Hc Hs].
  rewrite (decimal_char_not_nul c Hc). now rewrite IH.
Qed.

Lemma append_nil_r s : s +:+ EmptyString = s.
Proof.
  induction s as [|c s IH]; [reflexivity|].
  change (String c (s +:+ EmptyString) = String c s). now rewrite IH.
Qed.

Lemma read_version_line_decimal_chars s : forall acc rest,
  string_forall is_decimal_char s = true ->
  read_version_line (list_byte_of_string (s +:+ nl) ++ rest) acc = Some (acc +:+ s, rest).
Proof.
  induction s as [|c s IH]; intros acc rest H.
  - rewrite append_nil_r. reflexivity.
  - cbn [string_forall] in H. apply andb_true_iff in H as [Hc Hs].
    change (list_byte_of_string (String c s +:+ nl) ++ rest)
      with (byte_of_ascii c :: (list_byte_of_string (s +:+ nl) ++ rest)).
    cbn [read_version_line]. rewrite (decimal_char_not_newline c Hc).
    rewrite IH by assumption. rewrite ascii_of_byte_of_ascii, append_assoc. reflexivity.
Qed.

(** [strtol] reads what [printf] prints, as far as a [long] goes. *)
Lemma strtol_decimal_clamped n : strtol (decimal n) = (clamp_long n, EmptyString).
Proof.
  unfold clamp_long. destruct n as [|p|p].
  - reflexivity.
  - rewrite decimal_pos, strtol_uint by apply DecimalPos.Unsigned.to_uint_nonnil.
    now rewrite DecimalPos.Unsigned.of_to.
  - rewrite decimal_neg, strtol_neg_uint by apply DecimalPos.Unsigned.to_uint_nonnil.
    now rewrite DecimalPos.Unsigned.of_to.
Qed.

Lemma clamp_long_in_range n : LONG_MIN <= n <= LONG_MAX -> clamp_long n = n.
Proof. unfold clamp_long. lia. Qed.

Lemma clamp_long_version n : clamp_long n = TRACE_VERSION <-> n = TRACE_VERSION.
Proof.
  unfold clamp_long, TRACE_VERSION, LONG_MIN, LONG_MAX.
  change (2 ^ 63) with 9223372036854775808. lia.
Qed.

(** The version line of a file that records [n], whatever [n]. *)
Lemma version_line_recorded n header :
  read_version_line (vf_text (version_file_of n header)) EmptyString
  = Some (decimal n, [])
  /\ strtol (c_str (decimal n)) = (clamp_long n, EmptyString).
Proof.
  split.
  - cbn [version_file_of vf_text].
    rewrite <- (app_nil_r (list_byte_of_string (decimal n +:+ nl))).
    now rewrite read_version_line_decimal_chars by apply decimal_chars.
  - rewrite c_str_decimal_chars by apply decimal_chars. apply strtol_decimal_clamped.
Qed.

Lemma substring_append_here (pre needle post : string) :
  String.substring (String.length pre) (String.length needle) (pre +:+ needle +:+ post)
  = needle.
Proof.
  induction pre as [|a pre IH]; [|exact IH].
  change (EmptyString +:+ needle +:+ post) with (needle +:+ post).
  cbn [String.length].
  induction needle as [|b needle IH]; [now destruct post|].
  change (String b needle +:+ post) with (String b (needle +:+ post)).
  cbn [String.length String.substring]. now rewrite IH.
Qed.

(** A string that [index] does not find does not occur. *)
Lemma not_mentioned needle s :
  needle <> EmptyString -> String.index 0 needle s = None -> ~ mentions needle s.
Proof.
  intros Hne Hindex (pre & post & ->).
  apply (index_correct3 0 (String.length pre) _ _ Hindex Hne); [lia|].
  apply substring_append_here.
Qed.

(** C5, as stated, fails: the version file records
    99999999999999999999, which is not 85; the constructor exits with
    65, but the number in its message is what [strtol] made of the line,
    [LONG_MAX], and the recorded number is nowhere in it. *)
Lemma version_handshake_counterexample :
  99999999999999999999 <> TRACE_VERSION
  /\ vf_text version_file_huge = list_byte_of_string ("99999999999999999999" +:+ nl)
  /\ TraceReader_new plain_collab "/t" (Readable version_file_huge)
       (empty_files version_file_huge)
     = Exit 65 (msg_incompatible_version "/t/version" 9223372036854775807)
  /\ ~ mentions "99999999999999999999"
         (msg_incompatible_version "/t/version" 9223372036854775807).
Proof.
  split; [discriminate|]. split; [reflexivity|]. split; [reflexivity|].
  apply not_mentioned; [discriminate|reflexivity].
Qed.

(** C5, amended: a version file whose line [strtol] reads to its end as
    a number other than [TRACE_VERSION], which is 85, makes the
    constructor exit with [EX_DATAERR], which is 65, and a message that
    gives 85 and the number as [strtol] read it; a line read as 85 makes
    it go on to the header, whose fields the reader then holds.  For a
    file that records [n] in decimal, whatever [n], the number read is
    [n] brought into the range of [long]: it is [n], and the message
    gives the recorded number, when [n] fits a [long]. *)
Theorem version_handshake (X : Collab) (trace_dir : string) (files : TraceFiles) :
  (forall vf version_str rest version,
     read_version_line (vf_text vf) EmptyString = Some (version_str, rest) ->
     strtol (c_str version_str) = (version, EmptyString) ->
     (version <> TRACE_VERSION ->
        TraceReader_new X trace_dir (Readable vf) files
        = Exit EX_DATAERR (msg_incompatible_version (version_path trace_dir) version)
        /\ mentions (decimal version)
                    (msg_incompatible_version (version_path trace_dir) version)
        /\ mentions (decimal TRACE_VERSION)
                    (msg_incompatible_version (version_path trace_dir) version))
     /\ (version = TRACE_VERSION ->
         forall h k,
           rest = [] -> vf_header vf = Some h ->
           length (h_cpuidRecords h) = (k * sizeof_CPUIDRecord X)%nat ->
           exists r,
             TraceReader_new X trace_dir (Readable vf) files = Ok r
             /\ r_bind_to_cpu r = h_bindToCpu h
             /\ trace_uses_cpuid_faulting r = h_hasCpuidFaulting h
             /\ concat (cpuid_records_ r) = h_cpuidRecords h
             /\ r_global_time r = 0))
  /\ (forall n header,
        (n <> TRACE_VERSION ->
           TraceReader_new X trace_dir (Readable (version_file_of n header)) files
           = Exit EX_DATAERR
               (msg_incompatible_version (version_path trace_dir) (clamp_long n))
           /\ mentions (decimal (clamp_long n))
                       (msg_incompatible_version (version_path trace_dir) (clamp_long n))
           /\ mentions (decimal TRACE_VERSION)
                       (msg_incompatible_version (version_path trace_dir) (clamp_long n))
           /\ (LONG_MIN <= n <= LONG_MAX ->
               clamp_long n = n
               /\ mentions (decimal n)
                    (msg_incompatible_version (version_path trace_dir) (clamp_long n))))
        /\ (n = TRACE_VERSION ->
            forall h k,
              header = Some h ->
              length (h_cpuidRecords h) = (k * sizeof_CPUIDRecord X)%nat ->
              exists r,
                TraceReader_new X trace_dir (Readable (version_file_of n header)) files
                = Ok r
                /\ r_bind_to_cpu r = h_bindToCpu h
                /\ trace_uses_cpuid_faulting r = h_hasCpuidFaulting h
                /\ concat (cpuid_records_ r) = h_cpuidRecords h
                /\ r_global_time r = 0))
  /\ EX_DATAERR = 65 /\ TRACE_VERSION = 85.
Proof.
  split; [|split; [|split; reflexivity]].
  - intros vf version_str rest version Hline Hparse.
    destruct (version_check_parsed X trace_dir vf files version_str rest version
                Hline Hparse) as (Hne & Heq).
    split; [|exact Heq].
    intros H. destruct (Hne H) as (Hexit & _ & _ & Hm1 & Hm2). auto.
  - intros n header. destruct (version_line_recorded n header) as (Hline & Hparse).
    destruct (version_check_parsed X trace_dir (version_file_of n header) files
                (decimal n) [] (clamp_long n) Hline Hparse) as (Hne & Heq).
    split.
    + intros H. destruct Hne as (Hexit & _ & _ & Hm1 & Hm2);
        [now rewrite clamp_long_version|].
      split; [exact Hexit|]. split; [exact Hm1|]. split; [exact Hm2|].
      intros Hn. split; [now apply clamp_long_in_range|].
      now rewrite <- (clamp_long_in_range n Hn) at 1.
    + intros E h k Hh Hlen.
      apply (Heq (proj2 (clamp_long_version n) E) h k eq_refl); [now rewrite Hh|exact Hlen].
Qed.

Lemma version_handshake_witness :
  TraceReader_new plain_collab "/t" (Readable version_file_1) (empty_files version_file_1)
  = Exit 65 (msg_incompatible_version "/t/version" 1).
Proof.
  exact (proj1 (proj1 (proj1 (version_handshake plain_collab "/t"
                                (empty_files version_file_1))
                             version_file_1 "1" [] 1 eq_refl eq_refl)
                      ltac:(vm_compute; congruence))).
Defined.

(** ** Reading back what was written: the events substream *)

Lemma rd_read_app {A} (xs rest : list A) (s : option (list A)) (n : nat) :
  n = length xs ->
  rd_read n {| rd_rest := xs ++ rest; rd_saved := s |}
  = Ok (xs, {| rd_rest := rest; rd_saved := s |}).
Proof.
  intros ->. unfold rd_read. cbn [rd_rest rd_saved].
  rewrite length_app.
  destruct (Nat.ltb_spec (length xs + length rest) (length xs)) as [H|_]; [lia|].
  now rewrite take_app_length, drop_app_length.
Qed.

Lemma rd_read_nil {A} (r : CompressedReader A) : rd_read 0 r = Ok ([], r).
Proof. destruct r as [rest s]. unfold rd_read. cbn. now rewrite drop_0. Qed.

Lemma rd_get_put_cast t v rest s :
  rd_get t {| rd_rest := put t v ++ rest; rd_saved := s |}
  = Ok (cast t v, {| rd_rest := rest; rd_saved := s |}).
Proof.
  unfold rd_get. rewrite rd_read_app by now rewrite length_put.
  cbn. now rewrite get_put_cast.
Qed.

Lemma rd_get_put t v rest s :
  in_range t v ->
  rd_get t {| rd_rest := put t v ++ rest; rd_saved := s |}
  = Ok (v, {| rd_rest := rest; rd_saved := s |}).
Proof. intros Hv. rewrite rd_get_put_cast. now rewrite cast_in_range. Qed.

Lemma length_BasicInfo_bytes b : length (BasicInfo_bytes b) = sizeof_BasicInfo.
Proof. unfold BasicInfo_bytes. rewrite !length_app, !length_put. reflexivity. Qed.

Lemma BasicInfo_of_bytes_bytes b :
  BasicInfo_valid b -> BasicInfo_of_bytes (BasicInfo_bytes b) = b.
Proof.
  intros (Ht & Htid & Hev & Hticks & Hm). destruct b as [t tid ev ticks m].
  cbn [bi_global_time bi_tid bi_ev bi_ticks bi_monotonic_sec] in *.
  unfold BasicInfo_of_bytes, BasicInfo_bytes.
  cbn [bi_global_time bi_tid bi_ev bi_ticks bi_monotonic_sec].
  assert (Hlen : forall t' v n, n = sizeof t' -> n = length (put t' v))
    by (intros t' v n ->; now rewrite length_put).
  f_equal.
  - rewrite take_app_length' by now apply Hlen. now apply get_put.
  - rewrite drop_app_length' by now apply Hlen.
    rewrite take_app_length' by now apply Hlen. now apply get_put.
  - change 12%nat with (8 + 4)%nat.
    rewrite drop_app_add' by now apply Hlen.
    rewrite drop_app_length' by now apply Hlen.
    rewrite take_app_length' by now apply Hlen. now apply get_put.
  - change 16%nat with (8 + (4 + 4))%nat.
    rewrite !drop_app_add' by now apply Hlen.
    rewrite drop_app_length' by now apply Hlen.
    rewrite take_app_length' by now apply Hlen. now apply get_put.
  - change 24%nat with (8 + (4 + (4 + 8)))%nat.
    rewrite !drop_app_add' by now apply Hlen.
    rewrite drop_app_length' by now apply Hlen.
    rewrite firstn_all2 by (rewrite length_put; simpl; lia). now apply get_put.
Qed.

Lemma read_frame_decode X r :
  read_frame X r
  = '(frame, events) ← decode_frame X (reader_layout X r) (r_events r);
    let r' := r_tick_time (r_set_events events r) in
    _ ← c_assert (r_global_time r' =? frame_time frame) "time() == frame.time()";
    Ok (frame, r').
Proof.
  unfold read_frame, decode_frame, reader_layout.
  destruct (rd_read sizeof_BasicInfo (r_events r)) as [[bytes events]| | | | |];
    reflexivity.
Qed.

Lemma arch_of_tag_tag a : arch_of_tag (arch_tag a) = Some a.
Proof. now destruct a. Qed.

Lemma arch_tag_range a : in_range c_char (arch_tag a).
Proof. destruct a; vm_compute; intuition congruence. Qed.

Lemma read_regs X a regs rest s :
  length regs = user_regs_size X a ->
  match a with
  | x86 =>
      '(buf, events) ← rd_read (sizeof_x86_user_regs X)
                         {| rd_rest := regs ++ rest; rd_saved := s |};
      Ok ({| regs_arch := x86; regs_data := buf |}, events)
  | x86_64 =>
      '(buf, events) ← rd_read (sizeof_x64_user_regs X)
                         {| rd_rest := regs ++ rest; rd_saved := s |};
      Ok ({| regs_arch := x86_64; regs_data := buf |}, events)
  end
  = Ok ({| regs_arch := a; regs_data := regs |}, {| rd_rest := rest; rd_saved := s |}).
Proof. intros Hlen. destruct a; cbn in Hlen; now rewrite rd_read_app. Qed.

(** Decoding a frame with exec info from its bytes, whatever format and
    length are recorded. *)
Lemma decode_frame_exec_info X layout bi a regs fmt len data rest s :
  BasicInfo_valid bi ->
  has_exec_info X (Event_decode X (bi_ev bi)) = true ->
  length regs = user_regs_size X a ->
  in_range c_char fmt -> in_range c_int len ->
  length data = Z.to_nat len ->
  decode_frame X layout
    {| rd_rest := BasicInfo_bytes bi ++ put c_char (arch_tag a) ++ regs
                  ++ put c_char fmt ++ put c_int len ++ data ++ rest;
       rd_saved := s |}
  = let ev := Event_decode X (bi_ev bi) in
    let frame regs extra :=
      TraceFrame_new X regs extra (bi_global_time bi) (bi_tid bi) ev (bi_ticks bi)
                     (bi_monotonic_sec bi) in
    let events := {| rd_rest := rest; rd_saved := s |} in
    if 0 <? len then
      match set_to_raw_data X (Event_arch X ev) fmt data layout with
      | Some extra => Ok (frame {| regs_arch := a; regs_data := regs |} extra, events)
      | None => Fatal "Invalid XSAVE data in trace"
      end
    else if fmt =? NONE then
      Ok (frame {| regs_arch := a; regs_data := regs |}
                (ExtraRegisters_empty (Event_arch X ev)), events)
    else AssertFail "extra_reg_format == ExtraRegisters::NONE".
Proof.
  intros Hbi Hexec Hregs Hfmt Hlen Hdata. unfold decode_frame.
  rewrite rd_read_app by now rewrite length_BasicInfo_bytes.
  cbn [mbind outcome_bind]. rewrite BasicInfo_of_bytes_bytes by assumption.
  cbn [TraceFrame_new frame_event]. rewrite Hexec.
  rewrite rd_get_put by apply arch_tag_range.
  cbn [mbind outcome_bind]. rewrite arch_of_tag_tag.
  rewrite (read_regs X a regs _ s Hregs). cbn [mbind outcome_bind].
  rewrite rd_get_put by assumption. cbn [mbind outcome_bind].
  rewrite rd_get_put by assumption. cbn [mbind outcome_bind].
  destruct (0 <? len) eqn:Hpos.
  - rewrite rd_read_app by (symmetry; assumption). cbn [mbind outcome_bind].
    destruct (set_to_raw_data X _ fmt data layout); reflexivity.
  - destruct (fmt =? NONE); cbn [c_assert mbind outcome_bind]; [|reflexivity].
    assert (data = []) as ->.
    { apply Z.ltb_ge in Hpos. apply length_zero_iff_nil. rewrite Hdata. lia. }
    reflexivity.
Qed.

Lemma decode_frame_no_exec_info X layout bi rest s :
  BasicInfo_valid bi ->
  has_exec_info X (Event_decode X (bi_ev bi)) = false ->
  decode_frame X layout {| rd_rest := BasicInfo_bytes bi ++ rest; rd_saved := s |}
  = Ok (TraceFrame_new X Registers_default (ExtraRegisters_empty x86)
          (bi_global_time bi) (bi_tid bi) (Event_decode X (bi_ev bi)) (bi_ticks bi)
          (bi_monotonic_sec bi),
        {| rd_rest := rest; rd_saved := s |}).
Proof.
  intros Hbi Hexec. unfold decode_frame.
  rewrite rd_read_app by now rewrite length_BasicInfo_bytes.
  cbn [mbind outcome_bind]. rewrite BasicInfo_of_bytes_bytes by assumption.
  cbn [TraceFrame_new frame_event]. now rewrite Hexec.
Qed.

(** A well-formed frame is decoded from its bytes as it was. *)
Lemma decode_frame_encoded X layout frame rest s :
  frame_wf X layout frame ->
  decode_frame X layout {| rd_rest := frame_bytes X frame ++ rest; rd_saved := s |}
  = Ok (frame, {| rd_rest := rest; rd_saved := s |}).
Proof.
  intros (Hbi & Hev & Hwf). unfold frame_bytes.
  destruct (has_exec_info X (frame_event frame)) eqn:Hexec.
  - destruct Hwf as (Hregs & Hfmt & Hlen & Hextra).
    unfold exec_info_bytes. rewrite !(cast_in_range c_int), !(cast_in_range c_char) by assumption.
    rewrite <- !app_assoc.
    rewrite (decode_frame_exec_info X layout (BasicInfo_of_frame X frame)
               (regs_arch (recorded_regs frame)) (regs_data (recorded_regs frame))
               (er_format (recorded_extra_regs frame))
               (Z.of_nat (length (er_data (recorded_extra_regs frame))))); try assumption.
    + cbn [BasicInfo_of_frame bi_ev bi_global_time bi_tid bi_ticks bi_monotonic_sec].
      rewrite Hev. destruct frame as [t tid ev ticks m [a regs] extra].
      cbn [recorded_extra_regs recorded_regs frame_event regs_arch regs_data
           frame_time frame_tid frame_ticks frame_monotonic] in *.
      destruct (er_data extra) as [|b data] eqn:Hdata.
      * cbn [length Z.of_nat Z.ltb Z.compare]. rewrite Hextra. reflexivity.
      * assert (Hpos : (0 <? Z.of_nat (length (b :: data))) = true)
          by (apply Z.ltb_lt; cbn [length]; lia).
        rewrite Hpos, Nat2Z.id, firstn_all, Hextra. reflexivity.
    + cbn [BasicInfo_of_frame bi_ev]. now rewrite Hev.
    + destruct (0 <? Z.of_nat (length (er_data (recorded_extra_regs frame)))) eqn:Hpos.
      * now rewrite Nat2Z.id, firstn_all.
      * apply Z.ltb_ge in Hpos.
        assert (length (er_data (recorded_extra_regs frame)) = 0%nat) as -> by lia.
        reflexivity.
  - destruct Hwf as (Hregs & Hextra). rewrite app_nil_r.
    rewrite decode_frame_no_exec_info; try assumption.
    + cbn [BasicInfo_of_frame bi_ev bi_global_time bi_tid bi_ticks bi_monotonic_sec].
      rewrite Hev. destruct frame as [t tid ev ticks m regs extra].
      cbn in Hregs, Hextra. subst. reflexivity.
    + cbn [BasicInfo_of_frame bi_ev]. now rewrite Hev.
Qed.

Lemma read_frame_encoded X r frame rest :
  frame_wf X (reader_layout X r) frame ->
  rd_rest (r_events r) = frame_bytes X frame ++ rest ->
  frame_time frame = r_global_time r + 1 ->
  read_frame X r
  = Ok (frame, r_tick_time (r_set_events (set_saved (rd_saved (r_events r))
                                            (rd_open rest)) r)).
Proof.
  intros Hwf Hrest Htime. rewrite read_frame_decode.
  destruct (r_events r) as [ev_rest s] eqn:Hevents. cbn [rd_rest rd_saved] in *. subst ev_rest.
  rewrite decode_frame_encoded by assumption. cbn [mbind outcome_bind].
  cbn [r_tick_time r_set_time r_set_events r_global_time].
  rewrite Htime, Z.eqb_refl. reflexivity.
Qed.

(** ** The frame clock *)

Lemma TraceReader_new_time X trace_dir version files r :
  TraceReader_new X trace_dir version files = Ok r -> r_global_time r = 0.
Proof.
  unfold TraceReader_new. destruct version as [vf|errno].
  - destruct (read_version_line (vf_text vf) EmptyString) as [[version_str rest]|];
      [|discriminate].
    destruct (strtol (c_str version_str)) as [version end_ptr].
    destruct (negb (String.eqb end_ptr EmptyString)); [discriminate|].
    destruct (negb (TRACE_VERSION =? version)); [discriminate|].
    intros H. apply bind_Ok_inv in H as (header & _ & H).
    apply bind_Ok_inv in H as (_ & _ & H). now inversion H.
  - destruct (errno =? ENOENT); discriminate.
Qed.

Lemma read_frame_time X r frame r' :
  read_frame X r = Ok (frame, r') ->
  r_global_time r' = r_global_time r + 1 /\ frame_time frame = r_global_time r'.
Proof.
  rewrite read_frame_decode. intros H.
  apply bind_Ok_inv in H as ([frame0 events] & _ & H). cbv zeta in H.
  apply bind_Ok_inv in H as (u & Hassert & H). inversion H; subst; clear H.
  apply c_assert_Ok_inv in Hassert. apply Z.eqb_eq in Hassert.
  split; [reflexivity | now symmetry].
Qed.

Lemma read_frames_time X n : forall r frames r',
  read_frames X n r = Ok (frames, r') ->
  r_global_time r' = r_global_time r + Z.of_nat n
  /\ length frames = n
  /\ forall i frame, frames !! i = Some frame ->
       frame_time frame = r_global_time r + Z.of_nat (S i).
Proof.
  induction n as [|n IH]; intros r frames r' H.
  - inversion H; subst. repeat split; [lia | intros i frame Hi; discriminate].
  - cbn [read_frames] in H.
    apply bind_Ok_inv in H as ([frame r1] & Hread & H).
    apply bind_Ok_inv in H as ([frames1 r2] & Hrest & H). inversion H; subst; clear H.
    apply read_frame_time in Hread as (Ht1 & Hf).
    apply IH in Hrest as (Ht2 & Hlen & Hnth).
    repeat split; [lia | cbn; lia | ].
    intros [|i] frame' Hi; cbn in Hi.
    + inversion Hi; subst. lia.
    + apply Hnth in Hi. lia.
Qed.

(** C4: a reader starts at time 0; a [read_frame] that returns has
    advanced the clock by one and the frame it returns carries the new
    time; so after [n] frames read from a new reader the clock is [n]
    and the frames read are those of times 1 to [n]. *)
Theorem reader_clock (X : Collab) (trace_dir : string) (version : VersionOnDisk)
    (files : TraceFiles) (r0 : TraceReader) :
  TraceReader_new X trace_dir version files = Ok r0 ->
  r_global_time r0 = 0
  /\ (forall r frame r', read_frame X r = Ok (frame, r') ->
        r_global_time r' = r_global_time r + 1 /\ frame_time frame = r_global_time r')
  /\ (forall n frames r', read_frames X n r0 = Ok (frames, r') ->
        r_global_time r' = Z.of_nat n
        /\ forall i frame, frames !! i = Some frame -> frame_time frame = Z.of_nat (S i)).
Proof.
  intros Hnew. pose proof (TraceReader_new_time _ _ _ _ _ Hnew) as H0.
  split; [assumption|]. split; [apply read_frame_time|].
  intros n frames r' H. apply read_frames_time in H as (Ht & _ & Hnth).
  rewrite H0 in *. split; [lia|]. intros i frame Hi. rewrite (Hnth i frame Hi). lia.
Qed.

Lemma reader_clock_witness :
  exists r', read_frames plain_collab 2 reader_two_frames = Ok ([frame_1; frame_2], r')
             /\ r_global_time r' = 2.
Proof.
  pose (files := {| file_version := version_file_ok;
                    file_events := frame_bytes plain_collab frame_1
                                   ++ frame_bytes plain_collab frame_2;
                    file_data_header := []; file_data := []; file_mmaps := [];
                    file_tasks := []; file_generic := [] |}).
  assert (Hnew : TraceReader_new plain_collab "/t" (Readable version_file_ok) files
                 = Ok reader_two_frames) by (vm_compute; reflexivity).
  assert (Hread : exists r', read_frames plain_collab 2 reader_two_frames
                             = Ok ([frame_1; frame_2], r'))
    by (vm_compute; eexists; reflexivity).
  destruct Hread as (r' & Hread). exists r'. split; [exact Hread|].
  exact (proj1 (proj2 (proj2 (reader_clock plain_collab "/t" (Readable version_file_ok)
                                files reader_two_frames Hnew))
                      2%nat _ r' Hread)).
Defined.

(** ** Looking ahead *)

Lemma rd_read_saved {A} (s : option (list A)) n (r : CompressedReader A) :
  rd_read n (set_saved s r) = lift_saved s (rd_read n r).
Proof.
  unfold rd_read, set_saved, lift_saved. cbn [rd_rest rd_saved].
  destruct (length (rd_rest r) <? n)%nat; reflexivity.
Qed.

Lemma rd_get_saved s t (r : CompressedReader byte) :
  rd_get t (set_saved s r) = lift_saved s (rd_get t r).
Proof.
  unfold rd_get. rewrite rd_read_saved.
  destruct (rd_read (sizeof t) r) as [[bs r']| | | | |]; reflexivity.
Qed.

Ltac saved_step :=
  first [rewrite rd_read_saved | rewrite rd_get_saved];
  match goal with
  | |- context [lift_saved _ (rd_read ?n ?r)] =>
      destruct (rd_read n r) as [[? ?]| | | | |]; try reflexivity
  | |- context [lift_saved _ (rd_get ?t ?r)] =>
      destruct (rd_get t r) as [[? ?]| | | | |]; try reflexivity
  end;
  cbn [lift_saved mbind outcome_bind].

Lemma decode_frame_saved X layout s events :
  decode_frame X layout (set_saved s events) = lift_saved s (decode_frame X layout events).
Proof.
  unfold decode_frame. saved_step.
  destruct (has_exec_info X _); [|reflexivity].
  saved_step.
  destruct (arch_of_tag _) as [[|]|]; try reflexivity;
    (saved_step; saved_step; saved_step;
     destruct (0 <? _);
     [ saved_step; destruct (set_to_raw_data X _ _ _ layout); reflexivity
     | destruct (_ =? NONE); reflexivity ]).
Qed.

Lemma peek_frame_spec X r :
  peek_frame X r
  = if at_end r then
      Ok (TraceFrame_default X, r_set_events (set_saved None (r_events r)) r)
    else
      '(frame, _) ← read_frame X r;
      Ok (frame, r_set_events (set_saved None (r_events r)) r).
Proof.
  unfold peek_frame. cbv zeta.
  change (at_end (r_set_events (save_state (r_events r)) r)) with (at_end r).
  destruct (at_end r).
  - destruct r as [d t [rest s] h dt m ts g b c recs]. reflexivity.
  - cbn [negb]. rewrite !read_frame_decode.
    change (reader_layout X (r_set_events (save_state (r_events r)) r))
      with (reader_layout X r).
    change (r_events (r_set_events (save_state (r_events r)) r))
      with (set_saved (Some (rd_rest (r_events r))) (r_events r)).
    rewrite decode_frame_saved.
    destruct (decode_frame X (reader_layout X r) (r_events r)) as [[frame ev]| | | | |];
      try reflexivity.
    cbn [lift_saved mbind outcome_bind].
    cbn [r_tick_time r_set_time r_set_events r_global_time].
    destruct (r_global_time r + 1 =? frame_time frame); [|reflexivity].
    destruct r as [d t [rest s] h dt m ts g b c recs]. destruct ev. reflexivity.
Qed.

Lemma read_frame_saved X s r :
  read_frame X (r_set_events (set_saved s (r_events r)) r)
  = '(frame, r') ← read_frame X r;
    Ok (frame, r_set_events (set_saved s (r_events r')) r').
Proof.
  rewrite !read_frame_decode.
  change (reader_layout X (r_set_events (set_saved s (r_events r)) r))
    with (reader_layout X r).
  change (r_events (r_set_events (set_saved s (r_events r)) r))
    with (set_saved s (r_events r)).
  rewrite decode_frame_saved.
  destruct (decode_frame X (reader_layout X r) (r_events r)) as [[frame ev]| | | | |];
    try reflexivity.
  cbn [lift_saved mbind outcome_bind].
  cbn [r_tick_time r_set_time r_set_events r_global_time].
  destruct (r_global_time r + 1 =? frame_time frame); reflexivity.
Qed.

(** C7: while frames remain, [peek_frame] returns a frame exactly when
    [read_frame] would; after it the clock and the events cursor (and
    every other substream) are as before, and the [read_frame] that
    follows returns the same frame and advances the clock once. *)
Theorem peek_frame_then_read (X : Collab) (r : TraceReader) :
  at_end r = false ->
  (forall frame r2, read_frame X r = Ok (frame, r2) ->
     exists r1, peek_frame X r = Ok (frame, r1))
  /\ (forall frame r1, peek_frame X r = Ok (frame, r1) ->
        r_global_time r1 = r_global_time r
        /\ rd_rest (r_events r1) = rd_rest (r_events r)
        /\ r1 = r_set_events (r_events r1) r
        /\ exists r2, read_frame X r1 = Ok (frame, r2)
                      /\ r_global_time r2 = r_global_time r + 1).
Proof.
  intros Hend. rewrite peek_frame_spec, Hend. split.
  - intros frame r2 Hread. rewrite Hread. eexists. reflexivity.
  - intros frame r1 H. apply bind_Ok_inv in H as ([frame' r2] & Hread & H).
    inversion H; subst; clear H.
    split; [reflexivity|]. split; [reflexivity|]. split.
    + destruct r as [d t [rest s] h dt m ts g b c recs]. reflexivity.
    + rewrite read_frame_saved, Hread. eexists. split; [reflexivity|].
      apply read_frame_time in Hread as (Ht & _). exact Ht.
Qed.

Lemma peek_frame_then_read_witness :
  exists r1, peek_frame plain_collab reader_two_frames = Ok (frame_1, r1)
             /\ r_global_time r1 = 0
             /\ exists r2, read_frame plain_collab r1 = Ok (frame_1, r2)
                           /\ r_global_time r2 = 1.
Proof.
  destruct (proj1 (peek_frame_then_read plain_collab reader_two_frames eq_refl)
              frame_1
              (r_tick_time (r_set_events
                 (rd_open (frame_bytes plain_collab frame_2)) reader_two_frames))
              ltac:(vm_compute; reflexivity)) as (r1 & Hpeek).
  exists r1. split; [exact Hpeek|].
  destruct (proj2 (peek_frame_then_read plain_collab reader_two_frames eq_refl)
              frame_1 r1 Hpeek) as (Ht & _ & _ & r2 & Hread & Ht2).
  split; [exact Ht|]. exists r2. split; [exact Hread | exact Ht2].
Defined.

(** C10: at the end of the events substream [peek_frame] returns the
    default frame, and the clock and the events cursor stay as they
    were. *)
Theorem peek_frame_at_end (X : Collab) (r : TraceReader) :
  at_end r = true ->
  exists r1,
    peek_frame X r = Ok (TraceFrame_default X, r1)
    /\ r_global_time r1 = r_global_time r
    /\ rd_rest (r_events r1) = rd_rest (r_events r)
    /\ r1 = r_set_events (r_events r1) r.
Proof.
  intros Hend. rewrite peek_frame_spec, Hend. eexists. split; [reflexivity|].
  split; [reflexivity|]. split; [reflexivity|].
  destruct r as [d t [rest s] h dt m ts g b c recs]. reflexivity.
Qed.

Lemma peek_frame_at_end_witness :
  exists r1,
    peek_frame plain_collab reader_at_end = Ok (TraceFrame_default plain_collab, r1)
    /\ r_global_time r1 = 2
    /\ rd_rest (r_events r1) = [].
Proof.
  destruct (peek_frame_at_end plain_collab reader_at_end eq_refl)
    as (r1 & Hpeek & Ht & Hrest & _).
  exists r1. split; [exact Hpeek|]. split; [exact Ht | exact Hrest].
Defined.

(** ** Raw data *)

Lemma restore_set_saved {A} (x : list A) (r : CompressedReader A) :
  restore_state (set_saved (Some x) r) = rd_open x.
Proof. reflexivity. Qed.

(** [read_raw_data] on a record as [write_raw] lays it out. *)
Lemma read_raw_data_encoded r d hrest drest :
  raw_valid d ->
  in_range c_int64 (r_global_time r) ->
  rd_rest (r_data_header r)
  = raw_header_bytes (r_global_time r) (raw_rec_tid d) (raw_addr d)
                     (Z.of_nat (length (raw_data d))) ++ hrest ->
  rd_rest (r_data r) = raw_data d ++ drest ->
  read_raw_data r
  = Ok (d, r_set_raw (set_saved (rd_saved (r_data_header r)) (rd_open hrest))
                     (set_saved (rd_saved (r_data r)) (rd_open drest)) r).
Proof.
  intros (Htid & Haddr & Hlen) Htime Hh Hd. unfold read_raw_data.
  destruct (r_data_header r) as [h hs]. destruct (r_data r) as [dt ds].
  cbn [rd_rest rd_saved] in *. subst h dt. unfold raw_header_bytes.
  rewrite <- !app_assoc.
  rewrite rd_get_put by assumption. cbn [mbind outcome_bind].
  rewrite rd_get_put by assumption. cbn [mbind outcome_bind].
  rewrite rd_get_put by assumption. cbn [mbind outcome_bind].
  rewrite rd_get_put by assumption. cbn [mbind outcome_bind].
  rewrite Z.eqb_refl. cbn [c_assert mbind outcome_bind].
  rewrite Nat2Z.id, rd_read_app by reflexivity. cbn [mbind outcome_bind].
  destruct d. reflexivity.
Qed.

(** C6: when [read_raw_data_for_frame] returns, it returns true exactly
    if the next data_header record carries the time of the frame, and
    after false nothing was consumed from data_header or data; a next
    record older than the frame fails the assertion; a next record of
    the frame, which is the reader's current frame, is read. *)
Theorem read_raw_data_for_frame_spec (X : Collab) (r : TraceReader)
    (frame : TraceFrame (Event X)) (d : RawData) :
  (forall found d' r',
     read_raw_data_for_frame X r frame d = Ok (found, d', r') ->
     (found = true <-> next_raw_time r = Some (frame_time frame))
     /\ (found = false ->
         d' = d
         /\ rd_rest (r_data_header r') = rd_rest (r_data_header r)
         /\ rd_rest (r_data r') = rd_rest (r_data r)
         /\ r' = r_set_raw (r_data_header r') (r_data r') r))
  /\ (forall time, next_raw_time r = Some time -> time < frame_time frame ->
        read_raw_data_for_frame X r frame d = AssertFail "time >= frame.time()")
  /\ (forall time, next_raw_time r = Some time -> frame_time frame < time ->
        exists r', read_raw_data_for_frame X r frame d = Ok (false, d, r'))
  /\ (forall rec hrest drest,
        raw_valid rec -> in_range c_int64 (r_global_time r) ->
        frame_time frame = r_global_time r ->
        rd_rest (r_data_header r)
        = raw_header_bytes (frame_time frame) (raw_rec_tid rec) (raw_addr rec)
                           (Z.of_nat (length (raw_data rec))) ++ hrest ->
        rd_rest (r_data r) = raw_data rec ++ drest ->
        exists r', read_raw_data_for_frame X r frame d = Ok (true, rec, r')
                   /\ rd_rest (r_data_header r') = hrest
                   /\ rd_rest (r_data r') = drest).
Proof.
  unfold read_raw_data_for_frame, next_raw_time.
  change (save_state (r_data_header r))
    with (set_saved (Some (rd_rest (r_data_header r))) (r_data_header r)).
  rewrite rd_get_saved.
  split; [|split; [|split]].
  - intros found d' r'.
    destruct (rd_at_end (r_data_header r)).
    { intros [= <- <- <-]. split; [split; discriminate|].
      intros _. split; [reflexivity|]. split; [reflexivity|]. split; [reflexivity|].
      now destruct r. }
    destruct (rd_get c_int64 (r_data_header r)) as [[time h]| | | | |]; try discriminate.
    cbn [lift_saved mbind outcome_bind]. rewrite restore_set_saved.
    destruct (Z.leb_spec (frame_time frame) time) as [Hle|Hlt];
      cbn [c_assert mbind outcome_bind]; [|discriminate].
    destruct (Z.ltb_spec (frame_time frame) time) as [Hlt|Hge].
    + intros [= <- <- <-]. split.
      * split; [discriminate|]. intros [= E]. lia.
      * intros _. split; [reflexivity|]. split; [reflexivity|]. split; [reflexivity|].
        now destruct r.
    + intros H. apply bind_Ok_inv in H as ([d1 r1] & _ & [= <- <- <-]).
      split; [|discriminate]. split; [|reflexivity]. intros _. f_equal. lia.
  - intros time.
    destruct (rd_at_end (r_data_header r)); [discriminate|].
    destruct (rd_get c_int64 (r_data_header r)) as [[time' h]| | | | |]; try discriminate.
    intros [= ->] Hlt. cbn [lift_saved mbind outcome_bind].
    destruct (Z.leb_spec (frame_time frame) time); [lia|]. reflexivity.
  - intros time.
    destruct (rd_at_end (r_data_header r)); [discriminate|].
    destruct (rd_get c_int64 (r_data_header r)) as [[time' h]| | | | |]; try discriminate.
    intros [= ->] Hlt. cbn [lift_saved mbind outcome_bind].
    destruct (Z.leb_spec (frame_time frame) time); [|lia]. cbn [c_assert mbind outcome_bind].
    destruct (Z.ltb_spec (frame_time frame) time); [|lia]. eexists. reflexivity.
  - intros rec hrest drest Hrec Hrange Htime Hh Hd.
    assert (Hend : rd_at_end (r_data_header r) = false).
    { unfold rd_at_end. rewrite Hh. unfold raw_header_bytes, put. reflexivity. }
    rewrite Hend.
    assert (Hget : rd_get c_int64 (r_data_header r)
                   = Ok (frame_time frame,
                         set_saved (rd_saved (r_data_header r))
                           (rd_open (put c_int (raw_rec_tid rec) ++ put c_size_t (raw_addr rec)
                                     ++ put c_size_t (Z.of_nat (length (raw_data rec)))
                                     ++ hrest)))).
    { destruct (r_data_header r) as [h hs]. cbn [rd_rest rd_saved] in *. subst h.
      unfold raw_header_bytes. rewrite <- !app_assoc.
      now rewrite rd_get_put by (rewrite Htime; assumption). }
    rewrite Hget. cbn [lift_saved mbind outcome_bind]. rewrite restore_set_saved.
    destruct (Z.leb_spec (frame_time frame) (frame_time frame)); [|lia].
    cbn [c_assert mbind outcome_bind].
    destruct (Z.ltb_spec (frame_time frame) (frame_time frame)); [lia|].
    rewrite (read_raw_data_encoded _ rec hrest drest); try assumption.
    + cbn [mbind outcome_bind]. eexists. split; [reflexivity|]. split; reflexivity.
    + cbn [r_set_raw r_data_header r_global_time rd_open rd_rest]. now rewrite <- Htime.
Qed.

Lemma read_raw_data_for_frame_witness :
  exists r', read_raw_data_for_frame plain_collab reader_raw_abc frame_1 no_raw
             = Ok (true, raw_abc, r')
             /\ rd_rest (r_data_header r') = [] /\ rd_rest (r_data r') = [].
Proof.
  exact (proj2 (proj2 (proj2 (read_raw_data_for_frame_spec plain_collab reader_raw_abc
                                frame_1 no_raw)))
               raw_abc [] []
               ltac:(vm_compute; intuition congruence)
               ltac:(vm_compute; intuition congruence)
               eq_refl eq_refl eq_refl).
Defined.

(** ** Extra registers *)

Lemma cw_write_good {A} (xs : list A) (w : CompressedWriter A) :
  cw_good w = true ->
  cw_write xs w = {| cw_data := cw_data w ++ xs; cw_good := true |}.
Proof. intros H. unfold cw_write. now rewrite H. Qed.

Lemma cw_write_data {A} (xs : list A) (w : CompressedWriter A) :
  cw_good w = true -> cw_data (cw_write xs w) = cw_data w ++ xs.
Proof. intros H. now rewrite cw_write_good. Qed.

Lemma cw_write_keeps_good {A} (xs : list A) (w : CompressedWriter A) :
  cw_good (cw_write xs w) = cw_good w.
Proof. unfold cw_write. destruct (cw_good w) eqn:E; [reflexivity | exact E]. Qed.

(** [write_frame] appends the bytes of the frame, format and length of
    the extra registers as the frame has them, and ticks the clock. *)
Lemma write_frame_good X w frame :
  cw_good (w_events w) = true ->
  write_frame X w frame
  = Ok (w_tick_time (w_set_events (cw_write (frame_bytes X frame) (w_events w)) w)).
Proof.
  intros Hgood. unfold write_frame, frame_bytes, exec_info_bytes.
  fold (BasicInfo_of_frame X frame).
  destruct (w_events w) as [written good] eqn:Hevents. cbn [cw_good] in Hgood. subst good.
  unfold cw_write. cbn [cw_good cw_data negb].
  destruct (has_exec_info X (frame_event frame)).
  - destruct (0 <? cast c_int _); cbn [cw_good cw_data negb mbind outcome_bind];
      now rewrite ?app_nil_r, <- ?app_assoc.
  - cbn [mbind outcome_bind]. now rewrite app_nil_r.
Qed.

(** What [write_frame] appends for a frame with exec info. *)
Lemma write_frame_exec_info X w frame :
  cw_good (w_events w) = true ->
  has_exec_info X (frame_event frame) = true ->
  in_range c_char (er_format (recorded_extra_regs frame)) ->
  in_range c_int (Z.of_nat (length (er_data (recorded_extra_regs frame)))) ->
  exists w',
    write_frame X w frame = Ok w'
    /\ cw_data (w_events w')
       = cw_data (w_events w)
         ++ BasicInfo_bytes (BasicInfo_of_frame X frame)
         ++ put c_char (arch_tag (regs_arch (recorded_regs frame)))
         ++ regs_data (recorded_regs frame)
         ++ put c_char (er_format (recorded_extra_regs frame))
         ++ put c_int (Z.of_nat (length (er_data (recorded_extra_regs frame))))
         ++ er_data (recorded_extra_regs frame).
Proof.
  intros Hgood Hexec Hfmt Hlen. rewrite write_frame_good by assumption.
  eexists. split; [reflexivity|].
  cbn [w_tick_time w_set_time w_set_events w_events].
  rewrite cw_write_data by assumption. f_equal.
  unfold frame_bytes, exec_info_bytes. rewrite Hexec.
  rewrite (cast_in_range c_int), (cast_in_range c_char) by assumption.
  do 5 f_equal.
  destruct (Z.ltb_spec 0 (Z.of_nat (length (er_data (recorded_extra_regs frame))))).
  - now rewrite Nat2Z.id, firstn_all.
  - destruct (er_data (recorded_extra_regs frame)); [reflexivity|cbn [length] in *; lia].
Qed.

(** C8, as stated, fails: [write_frame] records, and [read_frame] with
    a [set_to_raw_data] that takes the bytes it is given returns, a
    frame with exec info whose extra registers have one byte and the
    format [NONE]. *)
Lemma extra_regs_equivalence_counterexample :
  has_exec_info plain_collab (frame_event frame_none_with_data) = true
  /\ er_format (recorded_extra_regs frame_none_with_data) = NONE
  /\ length (er_data (recorded_extra_regs frame_none_with_data)) = 1%nat
  /\ (exists w, write_frame plain_collab writer_0 frame_none_with_data = Ok w
                /\ cw_data (w_events w) = frame_bytes plain_collab frame_none_with_data)
  /\ exists r, read_frame plain_collab
                 (reader_on_events 0 (frame_bytes plain_collab frame_none_with_data))
               = Ok (frame_none_with_data, r).
Proof.
  split; [reflexivity|]. split; [reflexivity|]. split; [reflexivity|]. split.
  - eexists. split; [apply write_frame_good; reflexivity | reflexivity].
  - vm_compute. eexists. reflexivity.
Qed.

(** C8, amended: [read_frame] enforces one direction.  For a frame with
    exec info, a recorded length that is not positive requires the
    format [NONE] (asserted); with a positive length the recorded format
    and bytes go to [set_to_raw_data] with the XSAVE layout derived from
    the recorded CPUID records, reading fails fatally when that refuses
    them, and otherwise the frame carries the registers it made of them,
    whatever the format.  [write_frame] records the format and the
    length as the frame has them, and checks neither against the
    other: the bytes read here are the bytes it appends. *)
Theorem extra_regs_decoding (X : Collab) (r : TraceReader) (bi : BasicInfo)
    (a : SupportedArch) (regs : list byte) (fmt len : Z) (data rest : list byte) :
  BasicInfo_valid bi ->
  has_exec_info X (Event_decode X (bi_ev bi)) = true ->
  length regs = user_regs_size X a ->
  in_range c_char fmt -> in_range c_int len ->
  length data = Z.to_nat len ->
  rd_rest (r_events r)
  = BasicInfo_bytes bi ++ put c_char (arch_tag a) ++ regs
    ++ put c_char fmt ++ put c_int len ++ data ++ rest ->
  let ev := Event_decode X (bi_ev bi) in
  let layout := xsave_layout_from_trace X (cpuid_records_ r) in
  let frame extra :=
    TraceFrame_new X {| regs_arch := a; regs_data := regs |} extra
      (bi_global_time bi) (bi_tid bi) ev (bi_ticks bi) (bi_monotonic_sec bi) in
  (len <= 0 -> fmt <> NONE ->
     read_frame X r = AssertFail "extra_reg_format == ExtraRegisters::NONE")
  /\ (len <= 0 -> fmt = NONE -> bi_global_time bi = r_global_time r + 1 ->
      exists r', read_frame X r = Ok (frame (ExtraRegisters_empty (Event_arch X ev)), r'))
  /\ (0 < len -> set_to_raw_data X (Event_arch X ev) fmt data layout = None ->
      read_frame X r = Fatal "Invalid XSAVE data in trace")
  /\ (0 < len -> forall extra,
      set_to_raw_data X (Event_arch X ev) fmt data layout = Some extra ->
      bi_global_time bi = r_global_time r + 1 ->
      exists r', read_frame X r = Ok (frame extra, r'))
  /\ (forall w frame0,
        cw_good (w_events w) = true ->
        has_exec_info X (frame_event frame0) = true ->
        BasicInfo_of_frame X frame0 = bi ->
        recorded_regs frame0 = {| regs_arch := a; regs_data := regs |} ->
        er_format (recorded_extra_regs frame0) = fmt ->
        er_data (recorded_extra_regs frame0) = data ->
        Z.of_nat (length data) = len ->
        exists w',
          write_frame X w frame0 = Ok w'
          /\ cw_data (w_events w')
             = cw_data (w_events w)
               ++ BasicInfo_bytes bi ++ put c_char (arch_tag a) ++ regs
               ++ put c_char fmt ++ put c_int len ++ data).
Proof.
  intros Hbi Hexec Hregs Hfmt Hlen Hdata Hrest ev layout frame.
  assert (Hwrite : forall w frame0,
            cw_good (w_events w) = true ->
            has_exec_info X (frame_event frame0) = true ->
            BasicInfo_of_frame X frame0 = bi ->
            recorded_regs frame0 = {| regs_arch := a; regs_data := regs |} ->
            er_format (recorded_extra_regs frame0) = fmt ->
            er_data (recorded_extra_regs frame0) = data ->
            Z.of_nat (length data) = len ->
            exists w',
              write_frame X w frame0 = Ok w'
              /\ cw_data (w_events w')
                 = cw_data (w_events w)
                   ++ BasicInfo_bytes bi ++ put c_char (arch_tag a) ++ regs
                   ++ put c_char fmt ++ put c_int len ++ data).
  { intros w frame0 Hgood Hexec0 Hbi0 Hregs0 Hfmt0 Hdata0 Hlen0.
    destruct (write_frame_exec_info X w frame0 Hgood Hexec0) as (w' & Hw & Hbytes).
    - now rewrite Hfmt0.
    - now rewrite Hdata0, Hlen0.
    - exists w'. split; [exact Hw|].
      rewrite Hbytes, Hbi0, Hregs0, Hfmt0, Hdata0, Hlen0. reflexivity. }
  rewrite read_frame_decode. destruct (r_events r) as [ev_rest s] eqn:Hevents.
  cbn [rd_rest] in Hrest. subst ev_rest.
  rewrite (decode_frame_exec_info X (reader_layout X r) bi a regs fmt len data rest s)
    by assumption.
  cbv zeta. fold ev. change (reader_layout X r) with layout.
  split; [|split; [|split; [|split; [|exact Hwrite]]]].
  - intros Hle Hne. destruct (Z.ltb_spec 0 len); [lia|].
    destruct (Z.eqb_spec fmt NONE); [contradiction|]. reflexivity.
  - intros Hle -> Htime. destruct (Z.ltb_spec 0 len); [lia|].
    cbn [Z.eqb NONE mbind outcome_bind].
    cbn [r_tick_time r_set_time r_set_events r_global_time TraceFrame_new frame_time].
    rewrite <- Htime, Z.eqb_refl. eexists. reflexivity.
  - intros Hpos Hnone. destruct (Z.ltb_spec 0 len); [|lia]. now rewrite Hnone.
  - intros Hpos extra Hsome Htime. destruct (Z.ltb_spec 0 len); [|lia]. rewrite Hsome.
    cbn [mbind outcome_bind].
    cbn [r_tick_time r_set_time r_set_events r_global_time TraceFrame_new frame_time].
    rewrite <- Htime, Z.eqb_refl. eexists. reflexivity.
Qed.

Lemma extra_regs_decoding_witness :
  (exists r', read_frame plain_collab
                (reader_on_events 1 (frame_bytes plain_collab frame_2)) = Ok (frame_2, r'))
  /\ exists w', write_frame plain_collab writer_0 frame_2 = Ok w'
                /\ cw_data (w_events w') = frame_bytes plain_collab frame_2.
Proof.
  destruct (extra_regs_decoding plain_collab
              (reader_on_events 1 (frame_bytes plain_collab frame_2))
              (BasicInfo_of_frame plain_collab frame_2) x86 (repeat "000"%byte 68)
              XSAVE 2 ["001"%byte; "002"%byte] []
              ltac:(vm_compute; intuition congruence) eq_refl eq_refl
              ltac:(vm_compute; intuition congruence)
              ltac:(vm_compute; intuition congruence) eq_refl eq_refl)
    as (_ & _ & _ & Hread & Hwrite).
  split.
  - exact (Hread ltac:(lia) (recorded_extra_regs frame_2) eq_refl eq_refl).
  - exact (Hwrite writer_0 frame_2 eq_refl eq_refl eq_refl eq_refl eq_refl eq_refl
             eq_refl).
Defined.

(** ** The mapping classifier *)

Lemma find_at_0_prefix needle s :
  needle <> EmptyString -> find_at_0 needle s = String.prefix needle s.
Proof.
  intros Hne. unfold find_at_0.
  destruct (String.prefix needle s) eqn:Hp.
  - apply prefix_correct in Hp.
    destruct (String.index 0 needle s) as [[|m]|] eqn:Hi; [reflexivity| |].
    + exfalso. apply (index_correct2 _ _ _ _ Hi 0%nat); [lia | lia | exact Hp].
    + exfalso. apply (index_correct3 _ 0%nat _ _ Hi Hne); [lia | exact Hp].
  - destruct (String.index 0 needle s) as [[|m]|] eqn:Hi; try reflexivity.
    apply index_correct1 in Hi. apply prefix_correct in Hi. congruence.
Qed.

Lemma try_clone_file_name K w t file_name k name k' :
  try_clone_file K w t file_name k = (Some name, k') -> name = clone_name w file_name.
Proof.
  unfold try_clone_file, clone_name.
  destruct (use_file_cloning t); cbn [negb]; [|discriminate].
  destruct (sys_open_rdonly K file_name k) as [[|] k1]; cbn [negb]; [|discriminate].
  destruct (sys_open_excl K _ k1) as [[|] k2]; cbn [negb]; [|discriminate].
  destruct (sys_ioctl_clone K _ file_name k2) as [[|] k3]; cbn [negb]; [|discriminate].
  now intros [= <- <-].
Qed.

Lemma try_hardlink_file_name K w file_name k :
  fst (try_hardlink_file K w file_name k)
  = if fst (sys_link K file_name (w_trace_dir w +:+ "/" +:+ hardlink_name w file_name) k)
    then hardlink_name w file_name else file_name.
Proof.
  unfold try_hardlink_file, hardlink_name.
  destruct (sys_link K file_name _ k) as [[|] k1]; reflexivity.
Qed.

(** What [classify_mapping] answers, rule by rule. *)
Lemma classify_mapping_rules K w t km stat origin k :
  let src := fst (fst (classify_mapping K w t km stat origin k)) in
  let first := private_clone K w t km k in
  (rule_remap_or_patch origin -> src = SrcZero)
  /\ (~ rule_remap_or_patch origin -> rule_sysv km -> src = SrcTrace)
  /\ (~ rule_remap_or_patch origin -> ~ rule_sysv km -> rule_anonymous origin km ->
      src = SrcZero)
  /\ (~ rule_remap_or_patch origin -> ~ rule_sysv km -> ~ rule_anonymous origin km ->
      rule_rr_buffer origin -> src = SrcZero)
  /\ (~ rule_remap_or_patch origin -> ~ rule_sysv km -> ~ rule_anonymous origin km ->
      ~ rule_rr_buffer origin ->
      (is_map_private km -> forall name, fst first = Some name ->
         name = clone_name w (km_fsname km) /\ src = SrcFile (str_to_data name))
      /\ (fst first = None -> rule_copy K w km stat (snd first) -> src = SrcTrace)
      /\ (fst first = None -> ~ rule_copy K w km stat (snd first) ->
          src = SrcFile (str_to_data (fallback_backing K w t km (snd first))))).
Proof.
  cbv zeta. unfold classify_mapping. rewrite find_at_0_prefix by discriminate.
  fold (private_clone K w t km k).
  assert (L1 : ~ rule_remap_or_patch origin -> is_REMAP_or_PATCH origin = false).
  { unfold rule_remap_or_patch. destruct origin; cbn; intuition congruence. }
  assert (L2 : ~ rule_sysv km -> String.prefix "/SYSV" (km_fsname km) = false).
  { unfold rule_sysv. now destruct (String.prefix "/SYSV" (km_fsname km)). }
  assert (L3 : is_SYSCALL origin
               && ((km_inode km =? 0) || String.eqb (km_fsname km) "/dev/zero (deleted)")
               = true <-> rule_anonymous origin km).
  { unfold rule_anonymous.
    rewrite andb_true_iff, orb_true_iff, Z.eqb_eq, String.eqb_eq.
    destruct origin; cbn; intuition congruence. }
  assert (L4 : ~ rule_rr_buffer origin -> is_RR_BUFFER origin = false).
  { unfold rule_rr_buffer. destruct origin; cbn; intuition congruence. }
  split; [|split; [|split; [|split]]].
  - intros [-> | ->]; reflexivity.
  - intros N1 H2. now rewrite (L1 N1), H2.
  - intros N1 N2 H3. apply L3 in H3. now rewrite (L1 N1), (L2 N2), H3.
  - intros N1 N2 N3 H4. rewrite (L1 N1), (L2 N2).
    destruct (is_SYSCALL origin && _); [reflexivity|]. now rewrite H4.
  - intros N1 N2 N3 N4. rewrite (L1 N1), (L2 N2), (L4 N4).
    destruct (is_SYSCALL origin && _) eqn:E3; [exfalso; apply N3; now apply L3|].
    clear L1 L2 L3 L4 N1 N2 N3 N4 E3. unfold rule_copy.
    destruct (private_clone K w t km k) as [[name|] k5] eqn:Hfirst; cbn [fst snd].
    + split; [|split; discriminate].
      intros _ name' [= <-]. split; [|reflexivity].
      unfold private_clone in Hfirst.
      destruct (negb (Z.land (km_flags km) MAP_PRIVATE =? 0)); [|discriminate].
      now apply try_clone_file_name in Hfirst.
    + split; [discriminate|].
      assert (Hfallback :
        fst (fst (let '(cloned, k6) := try_clone_file K w t (km_fsname km) k5 in
                  match cloned with
                  | Some backing_file_name =>
                      (SrcFile (str_to_data backing_file_name),
                       files_assumed_immutable w, k6)
                  | None =>
                      let '(backing_file_name, k7) :=
                        try_hardlink_file K w (km_fsname km) k6 in
                      (SrcFile (str_to_data backing_file_name),
                       {[(st_dev stat, st_ino stat)]} ∪ files_assumed_immutable w, k7)
                  end))
        = SrcFile (str_to_data (fallback_backing K w t km k5))).
      { unfold fallback_backing.
        destruct (try_clone_file K w t (km_fsname km) k5) as [[name|] k6] eqn:Hsecond.
        - apply try_clone_file_name in Hsecond. now subst.
        - rewrite <- try_hardlink_file_name.
          now destruct (try_hardlink_file K w (km_fsname km) k6). }
      destruct (should_copy_mmap_region K k5 km stat) eqn:Hcopy; cbn [andb].
      * destruct (bool_decide_reflect
                    ((st_dev stat, st_ino stat) ∈ files_assumed_immutable w))
          as [Hin|Hnotin]; cbn [negb].
        -- split; [intros _ [_ Hn]; contradiction|]. intros _ _. exact Hfallback.
        -- split; [reflexivity|]. intros _ Hn. exfalso. now apply Hn.
      * split; [intros _ [Hn _]; discriminate|]. intros _ _. exact Hfallback.
Qed.

Lemma write_mapped_region_parts K w t km stat origin k :
  write_mapped_region K w t km stat origin k
  = let c := classify_mapping K w t km stat origin k in
    let map :=
      {| mm_frameTime := w_global_time w;
         mm_start := km_start km; mm_end := km_end km;
         mm_fsname := str_to_data (km_fsname km);
         mm_device := km_device km; mm_inode := km_inode km;
         mm_prot := km_prot km; mm_flags := km_flags km;
         mm_fileOffsetBytes := km_file_offset_bytes km;
         mm_statMode := st_mode stat; mm_statUid := st_uid stat;
         mm_statGid := st_gid stat; mm_statSize := st_size stat;
         mm_statMTime := st_mtime stat;
         mm_source := fst (fst c) |} in
    (if isTrace (fst (fst c)) then RECORD_IN_TRACE else DONT_RECORD_IN_TRACE,
     w_set_mmaps (cw_write [map] (w_mmaps w)) (mmap_count w + 1) (snd (fst c)) w,
     snd c).
Proof.
  unfold write_mapped_region.
  destruct (classify_mapping K w t km stat origin k) as [[src imm] k']. reflexivity.
Qed.

(** C2: the source in the record [write_mapped_region] emits is that of
    the first rule that applies, in the order of the specification, and
    the call returns [RECORD_IN_TRACE] exactly when that source is
    [Trace]. *)
Theorem write_mapped_region_classification (K : Kernel) (w : TraceWriter) (t : RecordTask)
    (km : KernelMapping) (stat : StatBuf) (origin : MappingOrigin) (k : World K)
    (ret : RecordInTrace) (w' : TraceWriter) (k' : World K) :
  cw_good (w_mmaps w) = true ->
  write_mapped_region K w t km stat origin k = (ret, w', k') ->
  exists src,
    emitted_source w' = Some src
    /\ (ret = RECORD_IN_TRACE <-> src = SrcTrace)
    /\ (rule_remap_or_patch origin -> src = SrcZero)
    /\ (~ rule_remap_or_patch origin -> rule_sysv km -> src = SrcTrace)
    /\ (~ rule_remap_or_patch origin -> ~ rule_sysv km -> rule_anonymous origin km ->
        src = SrcZero)
    /\ (~ rule_remap_or_patch origin -> ~ rule_sysv km -> ~ rule_anonymous origin km ->
        rule_rr_buffer origin -> src = SrcZero)
    /\ (~ rule_remap_or_patch origin -> ~ rule_sysv km -> ~ rule_anonymous origin km ->
        ~ rule_rr_buffer origin ->
        let first := private_clone K w t km k in
        (is_map_private km -> forall name, fst first = Some name ->
           name = clone_name w (km_fsname km) /\ src = SrcFile (str_to_data name))
        /\ (fst first = None -> rule_copy K w km stat (snd first) -> src = SrcTrace)
        /\ (fst first = None -> ~ rule_copy K w km stat (snd first) ->
            src = SrcFile (str_to_data (fallback_backing K w t km (snd first))))).
Proof.
  intros Hgood. rewrite write_mapped_region_parts. cbv zeta. intros [= <- <- <-].
  exists (fst (fst (classify_mapping K w t km stat origin k))).
  split.
  { unfold emitted_source. cbn [w_set_mmaps w_mmaps].
    rewrite cw_write_data by assumption. now rewrite last_snoc. }
  split.
  { destruct (fst (fst (classify_mapping K w t km stat origin k))); cbn [isTrace];
      split; congruence. }
  apply classify_mapping_rules.
Qed.

Lemma write_mapped_region_classification_witness :
  exists src,
    emitted_source
      (snd (fst (write_mapped_region kernel_all_ok writer_0 task_cloning km_shared_lib
                   stat_lib RR_BUFFER_MAPPING tt))) = Some src
    /\ src = SrcZero.
Proof.
  destruct (write_mapped_region_classification kernel_all_ok writer_0 task_cloning
              km_shared_lib stat_lib RR_BUFFER_MAPPING tt
              DONT_RECORD_IN_TRACE
              (snd (fst (write_mapped_region kernel_all_ok writer_0 task_cloning
                           km_shared_lib stat_lib RR_BUFFER_MAPPING tt)))
              tt eq_refl eq_refl)
    as (src & Hsrc & _ & _ & _ & _ & H4 & _).
  exists src. split; [exact Hsrc|].
  apply H4; [intros [H|H]; discriminate | intros H; discriminate
            | intros [H _]; discriminate | reflexivity].
Defined.

(** ** The files assumed immutable *)

Lemma classify_mapping_grows K w t km stat origin k :
  files_assumed_immutable w ⊆ snd (fst (classify_mapping K w t km stat origin k)).
Proof.
  unfold classify_mapping.
  repeat match goal with
         | |- context [if ?b then _ else _] => destruct b
         | |- context [let '(_, _) := ?p in _] => destruct p as [[?|] ?]
         | |- context [let '(_, _) := ?p in _] => destruct p
         end; cbn [fst snd]; set_solver.
Qed.

Lemma classify_mapping_fallback K w t km stat origin k :
  ~ rule_remap_or_patch origin -> ~ rule_sysv km -> ~ rule_anonymous origin km ->
  ~ rule_rr_buffer origin ->
  fst (private_clone K w t km k) = None ->
  ~ rule_copy K w km stat (snd (private_clone K w t km k)) ->
  snd (fst (classify_mapping K w t km stat origin k))
  = match fst (try_clone_file K w t (km_fsname km) (snd (private_clone K w t km k))) with
    | Some _ => files_assumed_immutable w
    | None => {[ (st_dev stat, st_ino stat) ]} ∪ files_assumed_immutable w
    end.
Proof.
  intros N1 N2 N3 N4 Hfirst N6. unfold classify_mapping.
  rewrite find_at_0_prefix by discriminate. fold (private_clone K w t km k).
  assert (is_REMAP_or_PATCH origin = false) as ->.
  { unfold rule_remap_or_patch in N1. destruct origin; cbn; intuition congruence. }
  assert (String.prefix "/SYSV" (km_fsname km) = false) as ->.
  { unfold rule_sysv in N2. now destruct (String.prefix "/SYSV" (km_fsname km)). }
  assert (is_SYSCALL origin
          && ((km_inode km =? 0) || String.eqb (km_fsname km) "/dev/zero (deleted)")
          = false) as ->.
  { apply not_true_is_false. intros H. apply N3. unfold rule_anonymous.
    rewrite andb_true_iff, orb_true_iff, Z.eqb_eq, String.eqb_eq in H.
    destruct origin; cbn in H; intuition congruence. }
  assert (is_RR_BUFFER origin = false) as ->.
  { unfold rule_rr_buffer in N4. destruct origin; cbn; intuition congruence. }
  destruct (private_clone K w t km k) as [first k5]. cbn [fst snd] in *. subst first.
  assert (should_copy_mmap_region K k5 km stat
          && negb (bool_decide ((st_dev stat, st_ino stat) ∈ files_assumed_immutable w))
          = false) as ->.
  { apply not_true_is_false. intros H. apply N6. unfold rule_copy.
    rewrite andb_true_iff, negb_true_iff, bool_decide_eq_false in H. exact H. }
  destruct (try_clone_file K w t (km_fsname km) k5) as [[name|] k6]; cbn [fst snd];
    [reflexivity|].
  now destruct (try_hardlink_file K w (km_fsname km) k6).
Qed.

Lemma write_frame_inv X w frame w' :
  write_frame X w frame = Ok w' ->
  exists events, w' = w_tick_time (w_set_events events w).
Proof.
  unfold write_frame. destruct (negb _); [discriminate|].
  intros H. apply bind_Ok_inv in H as (events & _ & [= <-]). eauto.
Qed.

Lemma write_task_event_inv w event w' :
  write_task_event w event = Ok w' ->
  exists which,
    w' = w_set_tasks (cw_write [ {| te_frameTime := w_global_time w;
                                    te_tid := tte_tid event; te_which := which |} ]
                               (w_tasks w)) w
    /\ match tte_type event with
       | CLONE p o f => which = MsgClone p o f
       | EXEC file cmd => which = MsgExec (str_to_data file) (map str_to_data cmd)
       | EXIT status => which = MsgExit status
       | TTE_NONE => False
       end.
Proof.
  unfold write_task_event. intros H. apply bind_Ok_inv in H as (which & Hw & [= <-]).
  exists which. split; [reflexivity|].
  destruct (tte_type event); inversion Hw; reflexivity.
Qed.

Lemma write_side_immutable K rec w k w' k' :
  write_side K rec (w, k) = Ok (w', k') ->
  files_assumed_immutable w ⊆ files_assumed_immutable w'.
Proof.
  destruct rec as [event|t km stat origin|d|d]; cbn [write_side].
  - intros H. apply bind_Ok_inv in H as (w1 & Hw & [= <- <-]).
    apply write_task_event_inv in Hw as (which & -> & _). reflexivity.
  - rewrite write_mapped_region_parts. cbv zeta. intros [= <- <-].
    apply classify_mapping_grows.
  - intros [= <- <-]. reflexivity.
  - intros [= <- <-]. reflexivity.
Qed.

Lemma write_sides_immutable K recs : forall w k w' k',
  write_sides K recs (w, k) = Ok (w', k') ->
  files_assumed_immutable w ⊆ files_assumed_immutable w'.
Proof.
  induction recs as [|rec recs IH]; intros w k w' k' H; cbn [write_sides] in H.
  - now inversion H.
  - apply bind_Ok_inv in H as ([w1 k1] & H1 & H).
    apply write_side_immutable in H1. apply IH in H. set_solver.
Qed.

Lemma write_groups_immutable X K gs : forall w k w' k',
  write_groups X K gs (w, k) = Ok (w', k') ->
  files_assumed_immutable w ⊆ files_assumed_immutable w'.
Proof.
  induction gs as [|g gs IH]; intros w k w' k' H; cbn [write_groups] in H.
  - now inversion H.
  - apply bind_Ok_inv in H as ([w2 k2] & Hg & H). apply IH in H.
    unfold write_group in Hg. apply bind_Ok_inv in Hg as ([w1 k1] & Hs & Hg).
    apply bind_Ok_inv in Hg as (w3 & Hf & [= <- <-]).
    apply write_sides_immutable in Hs.
    apply write_frame_inv in Hf as (events & ->).
    cbn [w_tick_time w_set_time w_set_events files_assumed_immutable] in H. set_solver.
Qed.

(** C3, as stated, fails: a shared mapping that nothing tells to copy
    reaches the last rule, the clone attempted there succeeds, and the
    file is not put into [files_assumed_immutable]. *)
Lemma fallback_insert_counterexample :
  let w' := snd (fst (write_mapped_region kernel_all_ok writer_0 task_cloning
                        km_shared_lib stat_lib EXEC_MAPPING tt)) in
  ~ rule_remap_or_patch EXEC_MAPPING
  /\ ~ rule_sysv km_shared_lib
  /\ ~ rule_anonymous EXEC_MAPPING km_shared_lib
  /\ ~ rule_rr_buffer EXEC_MAPPING
  /\ fst (private_clone kernel_all_ok writer_0 task_cloning km_shared_lib tt) = None
  /\ ~ rule_copy kernel_all_ok writer_0 km_shared_lib stat_lib tt
  /\ emitted_source w' = Some (SrcFile (str_to_data "mmap_clone_0_x.so"))
  /\ (st_dev stat_lib, st_ino stat_lib) ∉ files_assumed_immutable w'.
Proof.
  cbv zeta.
  split; [intros [H|H]; discriminate|]. split; [intros H; discriminate|].
  split; [intros [H _]; discriminate|]. split; [intros H; discriminate|].
  split; [reflexivity|]. split; [intros [H _]; discriminate|].
  split; [reflexivity|]. apply not_elem_of_empty.
Qed.

(** C3, amended: a call that reaches the last rule puts the pair
    [(st_dev, st_ino)] into [files_assumed_immutable] when the clone
    attempted there fails, and leaves the set as it is when that clone
    succeeds; no call and no recording takes anything out of the set. *)
Theorem files_assumed_immutable_growth (X : Collab) (K : Kernel) :
  (forall w t km stat origin k ret w' k',
     write_mapped_region K w t km stat origin k = (ret, w', k') ->
     files_assumed_immutable w ⊆ files_assumed_immutable w'
     /\ (~ rule_remap_or_patch origin -> ~ rule_sysv km -> ~ rule_anonymous origin km ->
         ~ rule_rr_buffer origin ->
         let first := private_clone K w t km k in
         fst first = None -> ~ rule_copy K w km stat (snd first) ->
         (fst (try_clone_file K w t (km_fsname km) (snd first)) = None ->
            files_assumed_immutable w'
            = {[ (st_dev stat, st_ino stat) ]} ∪ files_assumed_immutable w
            /\ (st_dev stat, st_ino stat) ∈ files_assumed_immutable w')
         /\ (forall name,
               fst (try_clone_file K w t (km_fsname km) (snd first)) = Some name ->
               files_assumed_immutable w' = files_assumed_immutable w)))
  /\ (forall gs w k w' k',
        write_groups X K gs (w, k) = Ok (w', k') ->
        files_assumed_immutable w ⊆ files_assumed_immutable w').
Proof.
  split; [|apply write_groups_immutable].
  intros w t km stat origin k ret w' k'. rewrite write_mapped_region_parts. cbv zeta.
  intros [= <- <- <-]. cbn [w_set_mmaps files_assumed_immutable].
  split; [apply classify_mapping_grows|].
  intros N1 N2 N3 N4 Hfirst N6.
  rewrite (classify_mapping_fallback K w t km stat origin k N1 N2 N3 N4 Hfirst N6).
  split.
  - intros ->. split; [reflexivity | set_solver].
  - intros name ->. reflexivity.
Qed.

Lemma files_assumed_immutable_growth_witness :
  (st_dev stat_lib, st_ino stat_lib)
  ∈ files_assumed_immutable
      (snd (fst (write_mapped_region kernel_all_fail writer_0 task_cloning km_shared_lib
                   stat_lib EXEC_MAPPING tt))).
Proof.
  refine (proj2 (proj1 (proj2 (proj1 (files_assumed_immutable_growth plain_collab
                                        kernel_all_fail)
                          writer_0 task_cloning km_shared_lib stat_lib EXEC_MAPPING tt
                          _ _ _ eq_refl)
                   _ _ _ _ eq_refl _) eq_refl)).
  - intros [H|H]; discriminate.
  - intros H; discriminate.
  - intros [H _]; discriminate.
  - intros H; discriminate.
  - intros [H _]; discriminate.
Defined.

(** ** Round trip *)

Lemma c_app_assoc a b c : c_app (c_app a b) c = c_app a (c_app b c).
Proof. unfold c_app; cbn. now rewrite <- !app_assoc. Qed.

Lemma c_app_nil_r a : c_app a c_nil = a.
Proof. destruct a. unfold c_app; cbn. now rewrite !app_nil_r. Qed.

Lemma c_app_nil_l a : c_app c_nil a = a.
Proof. now destruct a. Qed.

(** A frame goes to the events substream and its records to the others,
    so the two can be read in either order. *)
Lemma c_app_comm_events a b :
  c_events a = [] ->
  c_data_header b = [] -> c_data b = [] -> c_mmaps b = [] -> c_tasks b = [] ->
  c_generic b = [] ->
  c_app a b = c_app b a.
Proof.
  destruct a, b; cbn. intros -> -> -> -> -> ->. unfold c_app; cbn.
  now rewrite !app_nil_r.
Qed.

Ltac split_good H :=
  unfold w_good in H;
  repeat match type of H with
         | _ && _ = true => let H' := fresh "Hgood" in apply andb_true_iff in H as [H H']
         end.

Lemma w_good_intro w :
  cw_good (w_events w) = true -> cw_good (w_data_header w) = true ->
  cw_good (w_data w) = true -> cw_good (w_mmaps w) = true ->
  cw_good (w_tasks w) = true -> cw_good (w_generic w) = true ->
  w_good w = true.
Proof. unfold w_good. now intros -> -> -> -> -> ->. Qed.

(** What one record adds. *)
Lemma write_side_contents K rec w k :
  side_wf rec -> w_good w = true ->
  exists w1 k1,
    write_side K rec (w, k) = Ok (w1, k1)
    /\ w_contents w1 = c_app (w_contents w) (side_contents K rec (w, k))
    /\ w_good w1 = true
    /\ w_global_time w1 = w_global_time w
    /\ w_trace_dir w1 = w_trace_dir w
    /\ w_version w1 = w_version w.
Proof.
  intros Hwf Hgood. split_good Hgood.
  destruct rec as [event|t km stat origin|d|d]; cbn [write_side side_contents fst snd].
  - destruct Hwf as (_ & Htype). unfold write_task_event.
    destruct (tte_type event) eqn:Htt; [contradiction| | |];
      cbn [mbind outcome_bind]; do 2 eexists; (split; [reflexivity|]);
      (split; [unfold w_contents, c_app, TaskEvent_of; cbn;
               rewrite Htt, cw_write_data, !app_nil_r by assumption; reflexivity|]);
      (split; [apply w_good_intro; cbn; rewrite ?cw_write_keeps_good; assumption|]);
      repeat split.
  - rewrite write_mapped_region_parts. cbv zeta. do 2 eexists. split; [reflexivity|].
    split; [unfold w_contents, c_app; cbn;
            rewrite cw_write_data, !app_nil_r by assumption; reflexivity|].
    split; [apply w_good_intro; cbn; rewrite ?cw_write_keeps_good; assumption|].
    repeat split.
  - do 2 eexists. split; [reflexivity|].
    split; [unfold w_contents, c_app, write_raw; cbn;
            rewrite !cw_write_data, !app_nil_r by assumption; reflexivity|].
    split; [apply w_good_intro; unfold write_raw; cbn;
            rewrite ?cw_write_keeps_good; assumption|].
    repeat split.
  - do 2 eexists. split; [reflexivity|].
    split; [unfold w_contents, c_app, write_generic; cbn;
            rewrite !cw_write_data, !app_nil_r, <- ?app_assoc
              by (rewrite ?cw_write_keeps_good; assumption); reflexivity|].
    split; [apply w_good_intro; unfold write_generic; cbn;
            rewrite ?cw_write_keeps_good; assumption|].
    repeat split.
Qed.

Lemma write_frame_contents X w frame :
  w_good w = true ->
  exists w1,
    write_frame X w frame = Ok w1
    /\ w_contents w1 = c_app (w_contents w) (frame_contents X frame)
    /\ w_good w1 = true
    /\ w_global_time w1 = w_global_time w + 1
    /\ w_trace_dir w1 = w_trace_dir w
    /\ w_version w1 = w_version w.
Proof.
  intros Hgood. split_good Hgood. rewrite write_frame_good by assumption.
  eexists. split; [reflexivity|].
  split; [unfold w_contents, c_app; cbn;
          rewrite cw_write_data, !app_nil_r by assumption; reflexivity|].
  split; [apply w_good_intro; cbn; rewrite ?cw_write_keeps_good; assumption|].
  repeat split.
Qed.

Lemma write_sides_contents K recs : forall w k,
  Forall side_wf recs -> w_good w = true ->
  exists w1 k1,
    write_sides K recs (w, k) = Ok (w1, k1)
    /\ w_contents w1 = c_app (w_contents w) (sides_contents K recs (w, k))
    /\ w_good w1 = true
    /\ w_global_time w1 = w_global_time w
    /\ w_trace_dir w1 = w_trace_dir w
    /\ w_version w1 = w_version w.
Proof.
  induction recs as [|rec recs IH]; intros w k Hwf Hgood.
  - exists w, k. cbn [write_sides sides_contents]. rewrite c_app_nil_r. auto 10.
  - inversion Hwf as [|? ? Hrec Hrecs]; subst.
    destruct (write_side_contents K rec w k Hrec Hgood)
      as (w1 & k1 & Hw & Hc & Hg & Ht & Hd & Hv).
    destruct (IH w1 k1 Hrecs Hg) as (w2 & k2 & Hw2 & Hc2 & Hg2 & Ht2 & Hd2 & Hv2).
    exists w2, k2. cbn [write_sides sides_contents]. rewrite Hw. cbn [mbind outcome_bind].
    split; [exact Hw2|]. split; [now rewrite Hc2, Hc, c_app_assoc|].
    split; [assumption|]. repeat split; congruence.
Qed.

Lemma i32_to_tid_pos tid : 0 < tid -> i32_to_tid tid = Ok tid.
Proof. intros H. unfold i32_to_tid. destruct (Z.leb_spec tid 0); [lia | reflexivity]. Qed.

Lemma read_task_event_encoded r time event rest :
  task_event_wf event ->
  rd_rest (r_tasks r) = TaskEvent_of time event :: rest ->
  read_task_event r
  = Ok (event, r_set_tasks (set_saved (rd_saved (r_tasks r)) (rd_open rest)) r).
Proof.
  intros (Htid & Htype) Hrest. unfold read_task_event, rd_at_end, rd_message.
  rewrite Hrest. cbn [mbind outcome_bind TaskEvent_of te_tid te_which].
  rewrite i32_to_tid_pos by assumption. cbn [mbind outcome_bind].
  destruct event as [tid [|p o f|file cmd|status]]; cbn [tte_type tte_tid] in *.
  - contradiction.
  - destruct Htype as (Hp & Ho). rewrite !i32_to_tid_pos by assumption. reflexivity.
  - cbn [mbind outcome_bind]. now rewrite data_to_str_to_data, map_data_to_str_to_data.
  - reflexivity.
Qed.

Lemma KernelMapping_of_MMap time km stat src :
  KernelMapping_of_msg (MMap_of time km stat src) = km.
Proof.
  destruct km. unfold KernelMapping_of_msg, MMap_of. cbn -[data_to_str str_to_data].
  now rewrite data_to_str_to_data.
Qed.

Lemma read_file_source_ok trace_dir fs_stat validate time km stat name :
  0 <= st_size stat -> 0 <= km_file_offset_bytes km ->
  (validate = DONT_VALIDATE \/ forall path, fs_stat path <> None) ->
  exists warned,
    read_file_source trace_dir fs_stat validate (MMap_of time km stat (SrcFile name)) name
    = Ok (resolve_backing trace_dir (data_to_str name), km_file_offset_bytes km, warned).
Proof.
  intros Hsize Hoff Hval. unfold read_file_source, resolve_backing.
  cbn [MMap_of mm_statSize mm_statMode mm_statUid mm_statGid mm_statMTime mm_inode
       mm_fileOffsetBytes].
  destruct (Z.ltb_spec (st_size stat) 0); [lia|].
  destruct (Z.ltb_spec (km_file_offset_bytes km) 0); [lia|].
  destruct (negb (String.prefix "mmap_clone_" (data_to_str name)) && is_VALIDATE validate
            && _) eqn:Hcheck.
  - destruct Hval as [-> | Hstat].
    { cbn [is_VALIDATE] in Hcheck. rewrite andb_false_r in Hcheck. discriminate. }
    destruct (starts_with_slash (data_to_str name)); cbn [negb].
    + destruct (fs_stat (data_to_str name)) as [st|] eqn:Hst; [|now apply Hstat in Hst].
      cbn [mbind outcome_bind]. eexists. reflexivity.
    + destruct (fs_stat (trace_dir +:+ "/" +:+ data_to_str name)) as [st|] eqn:Hst;
        [|now apply Hstat in Hst].
      cbn [mbind outcome_bind]. eexists. reflexivity.
  - cbn [mbind outcome_bind]. exists false.
    destruct (starts_with_slash (data_to_str name)); reflexivity.
Qed.

Lemma read_mapped_region_encoded fs_stat validate tc d0 r km stat src rest :
  0 <= st_size stat -> 0 <= km_file_offset_bytes km ->
  (validate = DONT_VALIDATE \/ forall path, fs_stat path <> None) ->
  0 < r_global_time r ->
  rd_rest (r_mmaps r) = MMap_of (r_global_time r) km stat src :: rest ->
  exists res saved,
    read_mapped_region fs_stat r (Some d0) validate tc
    = Ok (res, r_set_mmaps (set_saved saved (rd_open rest)) r)
    /\ mr_mapping res = km
    /\ mr_found res = true
    /\ mr_data res
       = Some {| md_time := r_global_time r;
                 md_source := source_kind src;
                 md_file_name :=
                   match src with
                   | SrcFile name => resolve_backing (r_trace_dir r) (data_to_str name)
                   | _ => md_file_name d0
                   end;
                 md_data_offset_bytes :=
                   match src with
                   | SrcFile _ => km_file_offset_bytes km
                   | _ => 0
                   end;
                 md_file_size_bytes := st_size stat |}.
Proof.
  intros Hsize Hoff Hval Htime Hrest. unfold read_mapped_region, rd_at_end.
  rewrite Hrest.
  assert (Hmsg : forall s,
    rd_message {| rd_rest := MMap_of (r_global_time r) km stat src :: rest; rd_saved := s |}
    = Ok (MMap_of (r_global_time r) km stat src, {| rd_rest := rest; rd_saved := s |}))
    by reflexivity.
  assert (Hstep :
    (if is_CURRENT_TIME_ONLY tc then save_state (r_mmaps r) else r_mmaps r)
    = {| rd_rest := MMap_of (r_global_time r) km stat src :: rest;
         rd_saved := if is_CURRENT_TIME_ONLY tc
                     then Some (MMap_of (r_global_time r) km stat src :: rest)
                     else rd_saved (r_mmaps r) |}).
  { destruct (r_mmaps r) as [mrest ms]. cbn [rd_rest] in Hrest. subst mrest.
    destruct tc; reflexivity. }
  rewrite Hstep, Hmsg. cbn [mbind outcome_bind].
  replace (mm_frameTime (MMap_of (r_global_time r) km stat src) =? r_global_time r)
    with true by (symmetry; apply Z.eqb_refl).
  rewrite andb_false_r. cbn [negb].
  change (mm_frameTime (MMap_of (r_global_time r) km stat src)) with (r_global_time r).
  destruct (Z.leb_spec (r_global_time r) 0); [lia|].
  change (mm_statSize (MMap_of (r_global_time r) km stat src)) with (st_size stat).
  change (mm_source (MMap_of (r_global_time r) km stat src)) with src.
  destruct src as [| |name].
  - cbn [mbind outcome_bind]. eexists.
    exists (if is_CURRENT_TIME_ONLY tc then None else rd_saved (r_mmaps r)).
    split; [|split; [|split]].
    + destruct tc; reflexivity.
    + apply KernelMapping_of_MMap.
    + reflexivity.
    + reflexivity.
  - cbn [mbind outcome_bind]. eexists.
    exists (if is_CURRENT_TIME_ONLY tc then None else rd_saved (r_mmaps r)).
    split; [|split; [|split]].
    + destruct tc; reflexivity.
    + apply KernelMapping_of_MMap.
    + reflexivity.
    + reflexivity.
  - destruct (read_file_source_ok (r_trace_dir r) fs_stat validate (r_global_time r)
                km stat name Hsize Hoff Hval) as (warned & Hfile).
    rewrite Hfile. cbn [mbind outcome_bind]. eexists.
    exists (if is_CURRENT_TIME_ONLY tc then None else rd_saved (r_mmaps r)).
    split; [|split; [|split]].
    + destruct tc; reflexivity.
    + apply KernelMapping_of_MMap.
    + reflexivity.
    + reflexivity.
Qed.

Lemma read_generic_encoded r d grest :
  in_range c_size_t (Z.of_nat (length d)) ->
  in_range c_int64 (r_global_time r) ->
  rd_rest (r_generic r)
  = (put c_int64 (r_global_time r) ++ put c_size_t (Z.of_nat (length d)) ++ d) ++ grest ->
  read_generic r
  = Ok (d, r_set_generic (set_saved (rd_saved (r_generic r)) (rd_open grest)) r).
Proof.
  intros Hlen Htime Hg. unfold read_generic.
  destruct (r_generic r) as [g gs]. cbn [rd_rest rd_saved] in *. subst g.
  rewrite <- !app_assoc.
  rewrite rd_get_put by assumption. cbn [mbind outcome_bind].
  rewrite rd_get_put by assumption. cbn [mbind outcome_bind].
  rewrite Z.eqb_refl. cbn [c_assert mbind outcome_bind].
  rewrite Nat2Z.id, rd_read_app by reflexivity. reflexivity.
Qed.

Ltac split_contents H rest :=
  destruct rest as [re rh rd rm rt rg];
  unfold r_contents, c_app in H; cbn [c_events c_data_header c_data c_mmaps c_tasks
    c_generic side_contents frame_contents fst snd app] in H;
  injection H as He Hh Hd Hm Ht Hg.

(** Reading one record back. *)
Lemma read_side_contents K fs_stat validate tc d0 rec w k r rest :
  side_wf rec ->
  (validate = DONT_VALIDATE \/ forall path, fs_stat path <> None) ->
  r_contents r = c_app (side_contents K rec (w, k)) rest ->
  r_global_time r = w_global_time w ->
  in_range c_int64 (w_global_time w) -> 0 < w_global_time w ->
  r_trace_dir r = w_trace_dir w ->
  exists r1,
    read_side fs_stat validate tc d0 (kind_of rec) r = Ok (expect_side K d0 rec (w, k), r1)
    /\ r_contents r1 = rest
    /\ same_reader r r1.
Proof.
  intros Hwf Hval Hc Htime Hrange Hpos Hdir.
  destruct rec as [event|t km stat origin|d|d]; split_contents Hc rest;
    cbn [kind_of read_side expect_side fst snd].
  - rewrite (read_task_event_encoded r (w_global_time w) event rt Hwf Ht).
    cbn [mbind outcome_bind]. eexists. split; [reflexivity|].
    split; [|repeat split].
    unfold r_contents. cbn. now rewrite He, Hh, Hd, Hm, Hg.
  - destruct Hwf as (Hsize & Hoff). rewrite <- Htime in *.
    destruct (read_mapped_region_encoded fs_stat validate tc d0 r km stat _ rm
                Hsize Hoff Hval Hpos Hm) as (res & saved & Hread & Hmap & Hfound & Hdata).
    rewrite Hread. cbn [mbind outcome_bind]. rewrite Hmap, Hfound, Hdata, Hdir.
    eexists. split; [reflexivity|].
    split; [|repeat split].
    unfold r_contents. cbn. now rewrite He, Hh, Hd, Ht, Hg.
  - rewrite <- Htime in *.
    rewrite (read_raw_data_encoded r d rh rd Hwf Hrange Hh Hd).
    cbn [mbind outcome_bind]. eexists. split; [reflexivity|].
    split; [|repeat split].
    unfold r_contents. cbn. now rewrite He, Hm, Ht, Hg.
  - rewrite <- Htime in *.
    rewrite (read_generic_encoded r d rg Hwf Hrange Hg).
    cbn [mbind outcome_bind]. eexists. split; [reflexivity|].
    split; [|repeat split].
    unfold r_contents. cbn. now rewrite He, Hh, Hd, Hm, Ht.
Qed.

Lemma read_sides_contents K fs_stat validate tc d0 recs : forall w k r rest,
  Forall side_wf recs -> w_good w = true ->
  (validate = DONT_VALIDATE \/ forall path, fs_stat path <> None) ->
  r_contents r = c_app (sides_contents K recs (w, k)) rest ->
  r_global_time r = w_global_time w ->
  in_range c_int64 (w_global_time w) -> 0 < w_global_time w ->
  r_trace_dir r = w_trace_dir w ->
  exists r1,
    read_sides fs_stat validate tc d0 (map kind_of recs) r
    = Ok (expect_sides K d0 recs (w, k), r1)
    /\ r_contents r1 = rest
    /\ same_reader r r1.
Proof.
  induction recs as [|rec recs IH]; intros w k r rest Hwf Hgood Hval Hc Htime Hrange Hpos Hdir.
  - cbn [sides_contents] in Hc. rewrite c_app_nil_l in Hc.
    exists r. split; [reflexivity|]. split; [exact Hc | repeat split].
  - inversion Hwf as [|? ? Hrec Hrecs]; subst.
    cbn [sides_contents map read_sides expect_sides] in *.
    destruct (write_side_contents K rec w k Hrec Hgood)
      as (w1 & k1 & Hw & _ & Hg1 & Ht1 & Hd1 & _).
    rewrite Hw in *. rewrite c_app_assoc in Hc.
    destruct (read_side_contents K fs_stat validate tc d0 rec w k r _
                Hrec Hval Hc Htime Hrange Hpos Hdir)
      as (r1 & Hread & Hc1 & Hsame1 & Hsd1 & Hsr1).
    rewrite Hread. cbn [mbind outcome_bind].
    destruct (IH w1 k1 r1 rest Hrecs Hg1 Hval Hc1) as (r2 & Hread2 & Hc2 & Hs2 & Hsd2 & Hsr2);
      try congruence.
    rewrite Hread2. cbn [mbind outcome_bind].
    exists r2. split; [reflexivity|]. split; [exact Hc2|].
    repeat split; congruence.
Qed.

Lemma read_frame_contents X r frame rest :
  frame_wf X (reader_layout X r) frame ->
  r_contents r = c_app (frame_contents X frame) rest ->
  frame_time frame = r_global_time r + 1 ->
  exists r1,
    read_frame X r = Ok (frame, r1)
    /\ r_contents r1 = rest
    /\ r_global_time r1 = r_global_time r + 1
    /\ r_trace_dir r1 = r_trace_dir r
    /\ cpuid_records_ r1 = cpuid_records_ r.
Proof.
  intros Hwf Hc Htime. split_contents Hc rest.
  rewrite (read_frame_encoded X r frame re Hwf He Htime).
  eexists. split; [reflexivity|].
  split; [|repeat split].
  unfold r_contents. cbn. now rewrite Hh, Hd, Hm, Ht, Hg.
Qed.

Lemma side_contents_events K rec s : c_events (side_contents K rec s) = [].
Proof. now destruct rec. Qed.

Lemma sides_contents_events K recs : forall s, c_events (sides_contents K recs s) = [].
Proof.
  induction recs as [|rec recs IH]; intros s; [reflexivity|].
  cbn [sides_contents c_app c_events]. rewrite side_contents_events.
  destruct (write_side K rec s); cbn; auto.
Qed.

Lemma write_group_contents X K g w k :
  Forall side_wf (fst g) -> w_good w = true ->
  exists w1 k1,
    write_group X K g (w, k) = Ok (w1, k1)
    /\ w_contents w1
       = c_app (w_contents w)
               (c_app (sides_contents K (fst g) (w, k)) (frame_contents X (snd g)))
    /\ w_good w1 = true
    /\ w_global_time w1 = w_global_time w + 1
    /\ w_trace_dir w1 = w_trace_dir w
    /\ w_version w1 = w_version w.
Proof.
  intros Hwf Hgood. unfold write_group.
  destruct (write_sides_contents K (fst g) w k Hwf Hgood)
    as (w1 & k1 & Hw & Hc & Hg & Ht & Hd & Hv).
  destruct (write_frame_contents X w1 (snd g) Hg) as (w2 & Hw2 & Hc2 & Hg2 & Ht2 & Hd2 & Hv2).
  exists w2, k1. rewrite Hw. cbn [mbind outcome_bind]. rewrite Hw2. cbn [mbind outcome_bind].
  split; [reflexivity|]. split; [now rewrite Hc2, Hc, c_app_assoc|].
  split; [assumption|]. repeat split; congruence.
Qed.

Lemma write_groups_contents X K layout gs : forall time w k,
  groups_wf X layout time gs -> w_good w = true ->
  exists w1 k1,
    write_groups X K gs (w, k) = Ok (w1, k1)
    /\ w_contents w1 = c_app (w_contents w) (groups_contents X K gs (w, k))
    /\ w_global_time w1 = w_global_time w + Z.of_nat (length gs)
    /\ w_trace_dir w1 = w_trace_dir w
    /\ w_version w1 = w_version w.
Proof.
  induction gs as [|g gs IH]; intros time w k Hwf Hgood.
  - exists w, k. cbn [write_groups groups_contents length]. rewrite c_app_nil_r.
    repeat split; lia.
  - destruct Hwf as (_ & _ & Hsides & Hrest).
    destruct (write_group_contents X K g w k Hsides Hgood)
      as (w1 & k1 & Hw & Hc & Hg & Ht & Hd & Hv).
    destruct (IH (time + 1) w1 k1 Hrest Hg) as (w2 & k2 & Hw2 & Hc2 & Ht2 & Hd2 & Hv2).
    exists w2, k2. cbn [write_groups groups_contents]. rewrite Hw. cbn [mbind outcome_bind].
    split; [exact Hw2|]. split; [now rewrite Hc2, Hc, c_app_assoc|].
    cbn [length]. repeat split; try congruence. lia.
Qed.

(** Reading back, frame by frame, what was written frame by frame. *)
Lemma read_groups_contents X K fs_stat validate tc d0 gs : forall w k r rest,
  groups_wf X (reader_layout X r) (w_global_time w) gs ->
  w_good w = true ->
  (validate = DONT_VALIDATE \/ forall path, fs_stat path <> None) ->
  r_contents r = c_app (groups_contents X K gs (w, k)) rest ->
  r_global_time r + 1 = w_global_time w ->
  0 < w_global_time w ->
  r_trace_dir r = w_trace_dir w ->
  exists r1,
    read_groups X fs_stat validate tc d0 (shape_of gs) r
    = Ok (expect_groups X K d0 gs (w, k), r1)
    /\ r_contents r1 = rest
    /\ r_global_time r1 = r_global_time r + Z.of_nat (length gs).
Proof.
  induction gs as [|g gs IH]; intros w k r rest Hwf Hgood Hval Hc Htime Hpos Hdir.
  - cbn [groups_contents] in Hc. rewrite c_app_nil_l in Hc.
    exists r. split; [reflexivity|]. split; [exact Hc | cbn [length]; lia].
  - destruct Hwf as (Hframe & Hft & Hsides & Hrest).
    cbn [shape_of map read_groups expect_groups groups_contents] in *.
    fold (shape_of gs).
    destruct (write_sides_contents K (fst g) w k Hsides Hgood)
      as (w1 & k1 & Hws & _ & Hg1 & Ht1 & Hd1 & _).
    destruct (write_group_contents X K g w k Hsides Hgood)
      as (w2 & k2 & Hw & _ & Hg2 & Ht2 & Hd2 & _).
    rewrite Hw in *.
    rewrite (c_app_comm_events (sides_contents K (fst g) (w, k)) (frame_contents X (snd g)))
      in Hc by (try reflexivity; apply sides_contents_events).
    rewrite !c_app_assoc in Hc.
    destruct (read_frame_contents X r (snd g) _ Hframe Hc) as (r1 & Hread & Hc1 & Hrt1 & Hrd1 & Hrc1);
      [lia|].
    assert (Hrange : in_range c_int64 (w_global_time w)).
    { destruct Hframe as ((Hr & _) & _). cbn [BasicInfo_of_frame bi_global_time] in Hr.
      now rewrite Hft in Hr. }
    destruct (read_sides_contents K fs_stat validate tc d0 (fst g) w k r1 _
                Hsides Hgood Hval Hc1) as (r2 & Hread2 & Hc2 & Hrt2 & Hrd2 & Hrc2);
      try assumption; try congruence; try lia.
    destruct (IH w2 k2 r2 rest) as (r3 & Hread3 & Hc3 & Hrt3); try assumption.
    + unfold reader_layout in *. rewrite Hrc2, Hrc1, Ht2. exact Hrest.
    + lia.
    + lia.
    + congruence.
    + unfold read_group. rewrite Hread. cbn [mbind outcome_bind].
      rewrite Hread2. cbn [mbind outcome_bind]. rewrite Hread3. cbn [mbind outcome_bind].
      exists r3. split; [reflexivity|]. split; [exact Hc3|]. cbn [length]. lia.
Qed.

Lemma TraceReader_new_written X trace_dir header files n :
  length (h_cpuidRecords header) = (n * sizeof_CPUIDRecord X)%nat ->
  TraceReader_new X trace_dir
    (Readable {| vf_text := list_byte_of_string (decimal TRACE_VERSION +:+ nl);
                 vf_header := Some header |}) files
  = Ok {| r_trace_dir := trace_dir;
          r_global_time := 0;
          r_events := rd_open (file_events files);
          r_data_header := rd_open (file_data_header files);
          r_data := rd_open (file_data files);
          r_mmaps := rd_open (file_mmaps files);
          r_tasks := rd_open (file_tasks files);
          r_generic := rd_open (file_generic files);
          r_bind_to_cpu := h_bindToCpu header;
          trace_uses_cpuid_faulting := h_hasCpuidFaulting header;
          cpuid_records_ :=
            chunks (sizeof_CPUIDRecord X)
                   (length (h_cpuidRecords header) / sizeof_CPUIDRecord X)
                   (h_cpuidRecords header) |}.
Proof.
  intros Hlen. unfold TraceReader_new. cbn [vf_text vf_header].
  replace (read_version_line (list_byte_of_string (decimal TRACE_VERSION +:+ nl))
             EmptyString)
    with (Some ("85"%string, @nil byte)) by (vm_compute; reflexivity).
  replace (strtol (c_str "85")) with (85, EmptyString) by (vm_compute; reflexivity).
  cbn [String.eqb negb TRACE_VERSION Z.eqb Pos.eqb mbind outcome_bind].
  assert (Hdiv : (length (h_cpuidRecords header) / sizeof_CPUIDRecord X
                  * sizeof_CPUIDRecord X)%nat = length (h_cpuidRecords header)).
  { rewrite Hlen. destruct (sizeof_CPUIDRecord X) as [|sz]; [simpl; lia|].
    now rewrite Nat.div_mul by lia. }
  rewrite Hdiv, Nat.eqb_refl. reflexivity.
Qed.

Lemma expect_sides_match K d0 recs : forall w k,
  Forall side_wf recs -> w_good w = true ->
  Forall2 (side_matches (w_global_time w)) recs (expect_sides K d0 recs (w, k)).
Proof.
  induction recs as [|rec recs IH]; intros w k Hwf Hgood; [constructor|].
  inversion Hwf as [|? ? Hrec Hrecs]; subst. cbn [expect_sides].
  destruct (write_side_contents K rec w k Hrec Hgood) as (w1 & k1 & Hw & _ & Hg & Ht & _).
  rewrite Hw. constructor.
  - destruct rec; cbn [side_matches expect_side]; try reflexivity.
    eexists. split; [reflexivity|]. split; reflexivity.
  - rewrite <- Ht. now apply IH.
Qed.

Lemma expect_groups_match X K layout d0 gs : forall time w k,
  groups_wf X layout time gs -> w_global_time w = time -> w_good w = true ->
  Forall2 group_matches gs (expect_groups X K d0 gs (w, k)).
Proof.
  induction gs as [|g gs IH]; intros time w k Hwf Htime Hgood; [constructor|].
  destruct Hwf as (_ & Hft & Hsides & Hrest). cbn [expect_groups].
  destruct (write_group_contents X K g w k Hsides Hgood)
    as (w1 & k1 & Hw & _ & Hg & Ht & _).
  rewrite Hw. constructor.
  - split; [reflexivity|]. cbn [snd]. rewrite Hft, <- Htime.
    now apply expect_sides_match.
  - apply (IH (time + 1)); [assumption | lia | assumption].
Qed.

(** C1, as stated, fails, by the way the frame clock joins the
    substreams: a raw record written after the frame of time 1 carries
    time 2 and is not handed back after that frame is read; an exit
    event with tid 0 is written and refused by the reader; a frame
    stamped with another time than the writer's clock is written and
    fails the reader's assertion. *)
Lemma round_trip_counterexample :
  (exists w1 r0 r1,
     write_frame plain_collab writer_0 frame_1 = Ok w1
     /\ open_trace plain_collab "/t"
          (close (write_raw w1 (raw_rec_tid raw_abc) (raw_data raw_abc) (raw_addr raw_abc)))
        = Ok r0
     /\ read_frame plain_collab r0 = Ok (frame_1, r1)
     /\ read_raw_data r1 = AssertFail "time == global_time"
     /\ exists r2, read_raw_data_for_frame plain_collab r1 frame_1 no_raw
                   = Ok (false, no_raw, r2))
  /\ (exists w1 r0,
        write_task_event writer_0 {| tte_tid := 0; tte_type := EXIT 0 |} = Ok w1
        /\ open_trace plain_collab "/t" (close w1) = Ok r0
        /\ read_task_event r0 = Fatal "Invalid tid")
  /\ (exists w1 r0,
        write_frame plain_collab writer_0 frame_at_5 = Ok w1
        /\ open_trace plain_collab "/t" (close w1) = Ok r0
        /\ read_frame plain_collab r0 = AssertFail "time() == frame.time()").
Proof.
  split; [|split].
  - do 3 eexists. split; [vm_compute; reflexivity|].
    split; [vm_compute; reflexivity|]. split; [vm_compute; reflexivity|].
    split; [vm_compute; reflexivity|]. eexists. vm_compute. reflexivity.
  - do 2 eexists. split; [vm_compute; reflexivity|].
    split; [vm_compute; reflexivity|]. vm_compute. reflexivity.
  - do 2 eexists. split; [vm_compute; reflexivity|].
    split; [vm_compute; reflexivity|]. vm_compute. reflexivity.
Qed.

(** C1, amended: records written frame by frame (for each frame its task
    events, mapped regions, raw data and generic payloads, then the
    frame, stamped with the writer's clock), all of them well formed,
    are written without failure, and after [close] a new reader reads
    them back frame by frame (the frame, then its records through their
    read operations) exactly as written and in order, leaving no
    substream unread; for a mapped region it gets the mapping and the
    time, source, backing file and size recorded for it. *)
Theorem trace_round_trip (X : Collab) (K : Kernel) (trace_dir : string) (bind_to_cpu : Z)
    (has_cpuid_faulting : bool) (cpuid_records uuid : list byte) (probe_ok : bool)
    (n : nat) (gs : list (list SideRecord * TraceFrame (Event X))) (k0 : World K)
    (fs_stat : string -> option StatBuf) (validate : ValidateSourceFile)
    (time_constraint : TimeConstraint) (d0 : MappedData) :
  length cpuid_records = (n * sizeof_CPUIDRecord X)%nat ->
  groups_wf X (layout_of_header X cpuid_records) 1 gs ->
  (validate = DONT_VALIDATE \/ forall path, fs_stat path <> None) ->
  let w0 := TraceWriter_new trace_dir bind_to_cpu has_cpuid_faulting cpuid_records uuid
                            probe_ok in
  exists w' k' r0 r',
    write_groups X K gs (w0, k0) = Ok (w', k')
    /\ open_trace X trace_dir (close w') = Ok r0
    /\ read_groups X fs_stat validate time_constraint d0 (shape_of gs) r0
       = Ok (expect_groups X K d0 gs (w0, k0), r')
    /\ Forall2 group_matches gs (expect_groups X K d0 gs (w0, k0))
    /\ r_contents r' = c_nil
    /\ r_global_time r' = Z.of_nat (length gs).
Proof.
  intros Hcpuid Hwf Hval w0.
  assert (Hgood : w_good w0 = true) by reflexivity.
  destruct (write_groups_contents X K _ gs 1 w0 k0 Hwf Hgood)
    as (w' & k' & Hw & Hc & _ & Hd & Hv).
  pose (header := {| h_bindToCpu := bind_to_cpu; h_hasCpuidFaulting := has_cpuid_faulting;
                     h_cpuidRecords := cpuid_records; h_uuid := uuid |}).
  pose proof (TraceReader_new_written X trace_dir header (close w') n Hcpuid) as Hnew.
  match type of Hnew with _ = Ok ?r => set (r0 := r) in * end.
  assert (Hopen : open_trace X trace_dir (close w') = Ok r0).
  { unfold open_trace. cbn [close file_version]. rewrite Hv. exact Hnew. }
  destruct (read_groups_contents X K fs_stat validate time_constraint d0 gs w0 k0 r0 c_nil)
    as (r' & Hread & Hc' & Ht'); try assumption; try reflexivity.
  { rewrite c_app_nil_r.
    change (w_contents w' = groups_contents X K gs (w0, k0)).
    rewrite Hc. apply c_app_nil_l. }
  exists w', k', r0, r'. split; [exact Hw|]. split; [exact Hopen|].
  split; [exact Hread|].
  split; [apply (expect_groups_match X K _ d0 gs 1 w0 k0 Hwf eq_refl Hgood)|].
  split; [exact Hc'|]. rewrite Ht'. reflexivity.
Qed.

Lemma trace_round_trip_witness :
  exists w' k' r0 r',
    write_groups plain_collab kernel_all_ok groups_demo (writer_0, tt) = Ok (w', k')
    /\ open_trace plain_collab "/t" (close w') = Ok r0
    /\ read_groups plain_collab (fun _ => None) DONT_VALIDATE CURRENT_TIME_ONLY
         no_mapped_data (shape_of groups_demo) r0
       = Ok (expect_groups plain_collab kernel_all_ok no_mapped_data groups_demo
               (writer_0, tt), r')
    /\ Forall2 group_matches groups_demo
         (expect_groups plain_collab kernel_all_ok no_mapped_data groups_demo (writer_0, tt))
    /\ r_contents r' = c_nil
    /\ r_global_time r' = 2.
Proof.
  refine (trace_round_trip plain_collab kernel_all_ok "/t" 0 false [] [] false 0
            groups_demo tt (fun _ => None) DONT_VALIDATE CURRENT_TIME_ONLY no_mapped_data
            eq_refl _ (or_introl eq_refl)).
  unfold groups_demo.
  repeat match goal with
         | |- groups_wf _ _ _ (_ :: _) => cbn [groups_wf fst snd]
         | |- groups_wf _ _ _ [] => exact I
         | |- _ /\ _ => split
         | |- Forall _ _ => constructor
         | |- frame_wf _ _ _ => vm_compute
         | |- side_wf _ => vm_compute
         | |- True => exact I
         | |- _ = _ => reflexivity
         | |- _ -> False => discriminate
         end.
Defined.

(** ** Strings *)

Lemma append_inj_l (a b c : string) : a +:+ b = a +:+ c -> b = c.
Proof.
  induction a as [|x a IH]; [trivial|].
  change (String x (a +:+ b) = String x (a +:+ c) -> b = c). intros [= H]. auto.
Qed.

Lemma append_cons x (a b : string) : String x a +:+ b = String x (a +:+ b).
Proof. reflexivity. Qed.

Lemma no_char_append c a b : no_char c (a +:+ b) = no_char c a && no_char c b.
Proof.
  unfold no_char. induction a as [|x a IH]; [reflexivity|].
  rewrite append_cons. cbn [string_forall]. rewrite IH. now rewrite andb_assoc.
Qed.

(** Two strings cut at the first [c] are equal part by part. *)
Lemma append_sep_inj c (s1 t1 s2 t2 : string) :
  no_char c s1 = true -> no_char c s2 = true ->
  s1 +:+ String c t1 = s2 +:+ String c t2 -> s1 = s2 /\ t1 = t2.
Proof.
  unfold no_char. revert s2.
  induction s1 as [|x s1 IH]; intros [|y s2]; cbn [string_forall]; rewrite ?append_cons.
  - intros _ _ [= ->]. auto.
  - intros _ H [= <- _]. rewrite Ascii.eqb_refl in H. discriminate.
  - intros H _ [= -> _]. rewrite Ascii.eqb_refl in H. discriminate.
  - intros H1 H2 [= -> E]. apply andb_true_iff in H1 as [_ H1], H2 as [_ H2].
    destruct (IH s2 H1 H2 E) as [-> ->]. auto.
Qed.

Lemma decimal_char_no_char c x :
  is_decimal_char c = false -> is_decimal_char x = true -> negb (Ascii.eqb x c) = true.
Proof.
  intros Hc Hx. destruct (Ascii.eqb_spec x c) as [->|]; [congruence|reflexivity].
Qed.

Lemma decimal_no_char c n : is_decimal_char c = false -> no_char c (decimal n) = true.
Proof.
  intros Hc. pose proof (decimal_chars n) as H. unfold no_char.
  induction (decimal n) as [|x s IH]; [reflexivity|]. cbn [string_forall] in *.
  apply andb_true_iff in H as [Hx Hs]. rewrite (decimal_char_no_char c x Hc Hx). auto.
Qed.

Lemma uint_head_digit d :
  d <> Decimal.Nil ->
  exists x s, NilEmpty.string_of_uint d = String x s /\ Ascii.eqb x "-" = false.
Proof. destruct d; [congruence|..]; intros _; eexists _, _; split; reflexivity. Qed.

(** [printf("%d")] prints different numbers differently. *)
Lemma decimal_inj a b : decimal a = decimal b -> a = b.
Proof.
  assert (Hu : forall p q, NilEmpty.string_of_uint (Pos.to_uint p)
                           = NilEmpty.string_of_uint (Pos.to_uint q) -> p = q).
  { intros p q H. apply (f_equal NilEmpty.uint_of_string) in H.
    rewrite !NilEmpty.usu in H. injection H as H.
    now apply DecimalPos.Unsigned.to_uint_inj. }
  assert (Hz : forall p, NilEmpty.string_of_uint (Pos.to_uint p) <> "0"%string).
  { intros p H. change "0"%string with (NilEmpty.string_of_uint (Decimal.D0 Decimal.Nil)) in H.
    apply (f_equal NilEmpty.uint_of_string) in H. rewrite !NilEmpty.usu in H.
    injection H as H. apply (f_equal Pos.of_uint) in H.
    rewrite DecimalPos.Unsigned.of_to in H. discriminate. }
  assert (Hs : forall p q, NilEmpty.string_of_uint (Pos.to_uint p)
                           <> String "-" (NilEmpty.string_of_uint (Pos.to_uint q))).
  { intros p q H.
    destruct (uint_head_digit (Pos.to_uint p)) as (x & s & E & Hx);
      [apply DecimalPos.Unsigned.to_uint_nonnil|].
    rewrite E in H. injection H as -> _. discriminate. }
  destruct a as [|p|p], b as [|q|q]; rewrite ?decimal_pos, ?decimal_neg;
    change (decimal 0) with "0"%string; intros H; try reflexivity;
    try (now apply Hz in H); try (symmetry in H; now apply Hz in H);
    try discriminate H; try (now apply Hs in H); try (symmetry in H; now apply Hs in H).
  - f_equal. now apply Hu.
  - injection H as H. f_equal. now apply Hu.
Qed.

(** ** The substream table *)

Lemma substream_names num_cpus table s :
  map sd_name (snd (substream num_cpus table s)) = map sd_name table.
Proof.
  unfold substream. destruct (_ =? 0); [|reflexivity]. cbn [snd].
  unfold substreams_at.
  destruct (table !! substream_index RAW_DATA) as [row|] eqn:E; cbn [default].
  - rewrite list_fmap_insert. apply list_insert_id.
    now rewrite list_lookup_fmap, E.
  - rewrite list_insert_ge; [reflexivity|]. now apply lookup_ge_None.
Qed.

Lemma substream_calls_names num_cpus calls :
  map sd_name (substream_calls num_cpus calls) = map sd_name substreams.
Proof.
  unfold substream_calls. generalize substreams as table.
  induction calls as [|s calls IH]; intros table; [reflexivity|].
  cbn [foldl]. rewrite IH. apply substream_names.
Qed.

Lemma substreams_at_name table table' s :
  map sd_name table = map sd_name table' ->
  sd_name (substreams_at table s) = sd_name (substreams_at table' s).
Proof.
  intros H. unfold substreams_at.
  apply (f_equal (fun l => l !! substream_index s)) in H.
  rewrite !list_lookup_fmap in H.
  destruct (table !! _), (table' !! _); cbn in *; congruence.
Qed.

Lemma path_name trace_dir num_cpus calls s :
  fst (path trace_dir num_cpus (substream_calls num_cpus calls) s)
  = trace_dir +:+ "/" +:+ sd_name (substreams_at substreams s).
Proof.
  unfold path.
  destruct (substream num_cpus (substream_calls num_cpus calls) s) as [row table] eqn:E.
  cbn [fst]. do 2 f_equal.
  assert (row = substreams_at table s) as ->.
  { unfold substream in E. now injection E as <- <-. }
  apply substreams_at_name.
  replace table with (snd (substream num_cpus (substream_calls num_cpus calls) s))
    by now rewrite E.
  rewrite substream_names. apply substream_calls_names.
Qed.

(** X1: whatever calls of [substream] came before, the six substreams
    of a trace directory have six different paths, none of which is the
    path of the version file. *)
Theorem substream_paths_distinct (trace_dir : string) (num_cpus : Z)
    (calls calls' : list Substream) (s s' : Substream) :
  (fst (path trace_dir num_cpus (substream_calls num_cpus calls) s)
   = fst (path trace_dir num_cpus (substream_calls num_cpus calls') s') -> s = s')
  /\ fst (path trace_dir num_cpus (substream_calls num_cpus calls) s)
     <> version_path trace_dir.
Proof.
  rewrite !path_name. unfold version_path. split.
  - intros H. apply append_inj_l in H. destruct s, s'; try reflexivity; discriminate H.
  - intros H. apply append_inj_l in H. destruct s; discriminate H.
Qed.

Lemma substream_first_call num_cpus s :
  snd (substream num_cpus substreams s)
  = <[ 2%nat := {| sd_name := "data"; sd_block_size := 1024 * 1024;
                   sd_threads := Z.min 8 num_cpus |} ]> substreams.
Proof. reflexivity. Qed.

(** X2: with at least one CPU, the first call of [substream] gives the
    compressor of the data substream [min(8, cpus)] threads, between 1
    and 8, every later call leaves the table alone, and the other
    substreams keep one thread and every substream its block size, which
    for the mmaps substream is 64 KiB. *)
Theorem substream_threads (num_cpus : Z) (s0 : Substream) (calls : list Substream)
    (s : Substream) :
  1 <= num_cpus ->
  let table := substream_calls num_cpus (s0 :: calls) in
  table = snd (substream num_cpus substreams s0)
  /\ substream num_cpus table s = (substreams_at table s, table)
  /\ sd_threads (substreams_at table RAW_DATA) = Z.min 8 num_cpus
  /\ 1 <= sd_threads (substreams_at table s) <= 8
  /\ (s <> RAW_DATA -> sd_threads (substreams_at table s) = 1)
  /\ sd_block_size (substreams_at table s) = sd_block_size (substreams_at substreams s)
  /\ mmaps_block_size table = 65536.
Proof.
  intros Hn table.
  assert (Hstable : forall s1,
            snd (substream num_cpus (snd (substream num_cpus substreams s0)) s1)
            = snd (substream num_cpus substreams s0)).
  { intros s1. rewrite substream_first_call. unfold substream.
    change (sd_threads (substreams_at _ RAW_DATA)) with (Z.min 8 num_cpus).
    destruct (Z.eqb_spec (Z.min 8 num_cpus) 0); [lia|reflexivity]. }
  assert (Htable : table = snd (substream num_cpus substreams s0)).
  { subst table. unfold substream_calls. cbn [foldl].
    induction calls as [|s1 calls IH]; [reflexivity|].
    cbn [foldl]. now rewrite Hstable. }
  split; [exact Htable|]. rewrite Htable, substream_first_call.
  split.
  { unfold substream. change (sd_threads (substreams_at _ RAW_DATA)) with (Z.min 8 num_cpus).
    destruct (Z.eqb_spec (Z.min 8 num_cpus) 0); [lia|reflexivity]. }
  split; [reflexivity|].
  split; [destruct s; cbn; lia|].
  split; [destruct s; try reflexivity; congruence|].
  split; [destruct s; reflexivity|reflexivity].
Qed.

Lemma substream_threads_witness :
  sd_threads (substreams_at (substream_calls 16 [EVENTS; RAW_DATA]) RAW_DATA) = 8.
Proof.
  exact (proj1 (proj2 (proj2 (substream_threads 16 EVENTS [RAW_DATA] RAW_DATA
                                ltac:(lia))))).
Defined.

(** X3: the name of the file that holds the cloned data of a task tells
    the task: two task uids get the same name only if they are the same
    uid. *)
Theorem file_data_clone_file_name_inj (trace_dir : string) (tuid tuid' : TaskUid) :
  file_data_clone_file_name trace_dir tuid = file_data_clone_file_name trace_dir tuid'
  <-> tuid = tuid'.
Proof.
  split; [|now intros ->].
  unfold file_data_clone_file_name. intros H.
  apply append_inj_l in H. apply (append_inj_l "/cloned_data_") in H.
  apply append_sep_inj in H as [H1 H2]; try (now apply decimal_no_char).
  apply decimal_inj in H1, H2. destruct tuid, tuid'; cbn in *; congruence.
Qed.

(** ** File names *)

Lemma substring_0_length s : String.substring 0 (String.length s) s = s.
Proof. induction s as [|a s IH]; [reflexivity|]. cbn. now rewrite IH. Qed.

Lemma rfind_None c s : rfind c s = None <-> no_char c s = true.
Proof.
  unfold no_char. induction s as [|a s IH]; cbn [rfind string_forall]; [tauto|].
  destruct (rfind c s) as [i|].
  - split; [discriminate|]. intros H. apply andb_true_iff in H as [_ H].
    apply IH in H. discriminate.
  - destruct (Ascii.eqb a c); cbn; [split; discriminate|]. split; [|trivial].
    intros _. now apply IH.
Qed.

(** [base_file_name] by the first character of the name. *)
Lemma base_file_name_cons a s :
  base_file_name (String a s)
  = if no_char "/" s then (if Ascii.eqb a "/" then s else String a s)
    else base_file_name s.
Proof.
  unfold base_file_name. cbn [rfind].
  destruct (rfind "/" s) as [i|] eqn:E.
  - assert (no_char "/" s = false) as ->.
    { destruct (no_char "/" s) eqn:N; [|reflexivity]. apply rfind_None in N. congruence. }
    reflexivity.
  - assert (no_char "/" s = true) as -> by now apply rfind_None.
    destruct (Ascii.eqb a "/"); [|reflexivity].
    cbn. rewrite Nat.sub_0_r. apply substring_0_length.
Qed.

Lemma base_file_name_no_slash s : no_char "/" (base_file_name s) = true.
Proof.
  induction s as [|a s IH]; [reflexivity|]. rewrite base_file_name_cons.
  destruct (no_char "/" s) eqn:N; [|exact IH].
  destruct (Ascii.eqb a "/") eqn:A; [exact N|].
  unfold no_char in *. cbn [string_forall]. now rewrite A, N.
Qed.

Lemma base_file_name_append dir name :
  no_char "/" name = true -> base_file_name (dir +:+ String "/" name) = name.
Proof.
  intros N. induction dir as [|a dir IH].
  - change (EmptyString +:+ String "/" name) with (String "/" name).
    rewrite base_file_name_cons, N. reflexivity.
  - rewrite append_cons, base_file_name_cons, no_char_append.
    assert (no_char "/" (String "/" name) = false) as -> by reflexivity.
    rewrite andb_false_r. exact IH.
Qed.

(** X4: [base_file_name] returns a name with no slash in it: the part of
    the file name after its last slash, which is the whole name when
    there is no slash and the empty name when the slash comes last. *)
Theorem base_file_name_spec (file_name : string) :
  no_char "/" (base_file_name file_name) = true
  /\ (no_char "/" file_name = true -> base_file_name file_name = file_name)
  /\ (forall dir name, no_char "/" name = true ->
        file_name = dir +:+ "/" +:+ name -> base_file_name file_name = name)
  /\ (forall dir, file_name = dir +:+ "/" -> base_file_name file_name = EmptyString).
Proof.
  split; [apply base_file_name_no_slash|]. split; [|split].
  - intros N. unfold base_file_name. apply rfind_None in N. now rewrite N.
  - intros dir name N ->. now apply base_file_name_append.
  - intros dir ->. now apply (base_file_name_append dir EmptyString).
Qed.

(** ** Names of clones and hard links *)

Lemma try_hardlink_file_linked K w file_name k name k' :
  try_hardlink_file K w file_name k = (name, k') ->
  name = hardlink_name w file_name \/ name = file_name.
Proof.
  unfold try_hardlink_file, hardlink_name.
  destruct (sys_link K _ _ k) as [[] k1]; intros [= <- <-]; auto.
Qed.

Lemma clone_name_inj w w' f f' :
  clone_name w f = clone_name w' f' ->
  mmap_count w = mmap_count w' /\ base_file_name f = base_file_name f'.
Proof.
  unfold clone_name. intros H. apply (append_inj_l "mmap_clone_") in H.
  apply append_sep_inj in H as [H1 H2]; try (now apply decimal_no_char).
  apply decimal_inj in H1. auto.
Qed.

Lemma hardlink_name_inj w w' f f' :
  hardlink_name w f = hardlink_name w' f' ->
  mmap_count w = mmap_count w' /\ base_file_name f = base_file_name f'.
Proof.
  unfold hardlink_name. intros H. apply (append_inj_l "mmap_hardlink_") in H.
  apply append_sep_inj in H as [H1 H2]; try (now apply decimal_no_char).
  apply decimal_inj in H1. auto.
Qed.

(** X5: the files the writer makes in the trace directory for mapped
    regions do not collide: the name of a clone has no slash, carries
    [mmap_count], which every [write_mapped_region] increments, so that
    clones made at different counts have different names, is never the
    name of a hard link, and is never the name of a substream or of the
    version file. *)
Theorem backing_file_names_distinct (K : Kernel) (w : TraceWriter) (t : RecordTask)
    (file_name : string) (k k1 : World K) (name : string) :
  try_clone_file K w t file_name k = (Some name, k1) ->
  no_char "/" name = true
  /\ (forall km stat origin k2 ret w2 k3,
        write_mapped_region K w t km stat origin k2 = (ret, w2, k3) ->
        mmap_count w2 = mmap_count w + 1)
  /\ (forall w' t' file_name' k' name' k1',
        try_clone_file K w' t' file_name' k' = (Some name', k1') ->
        name = name' -> mmap_count w = mmap_count w')
  /\ (forall w' file_name' k',
        file_name' <> name -> fst (try_hardlink_file K w' file_name' k') <> name)
  /\ (forall s, name <> sd_name (substreams_at substreams s))
  /\ name <> "version"%string.
Proof.
  intros Hc. apply try_clone_file_name in Hc as ->.
  split; [|split; [|split; [|split; [|split]]]].
  - unfold clone_name. rewrite !no_char_append, base_file_name_no_slash.
    rewrite (decimal_no_char "/") by reflexivity. reflexivity.
  - intros km stat origin k2 ret w2 k3 H. rewrite write_mapped_region_parts in H.
    now injection H as _ <- _.
  - intros w' t' f' k' name' k1' H' E. apply try_clone_file_name in H' as ->.
    now apply clone_name_inj in E.
  - intros w' f' k' Hne H.
    destruct (try_hardlink_file K w' f' k') as [n k''] eqn:E. cbn [fst] in H. subst n.
    apply try_hardlink_file_linked in E as [E|E]; [|congruence].
    unfold clone_name, hardlink_name in E. discriminate E.
  - intros s. unfold clone_name. destruct s; discriminate.
  - unfold clone_name. discriminate.
Qed.

Lemma backing_file_names_distinct_witness :
  no_char "/" "mmap_clone_0_x.so" = true.
Proof.
  exact (proj1 (backing_file_names_distinct kernel_all_ok writer_0 task_cloning
                  "/lib/x.so" tt tt "mmap_clone_0_x.so" eq_refl)).
Defined.

(** ** Mapped regions read back *)

(** X6: [read_mapped_region] finds nothing and moves nothing at the end
    of the mmaps substream and, under [CURRENT_TIME_ONLY], before a
    record of another time; given no [data] to fill in it checks no
    field of the record and consumes it, under [ANY_TIME] whatever its
    time. *)
Theorem read_mapped_region_found (fs_stat : string -> option StatBuf) (r : TraceReader)
    (validate : ValidateSourceFile) :
  (forall data time_constraint,
     rd_rest (r_mmaps r) = [] ->
     read_mapped_region fs_stat r data validate time_constraint = Ok (not_found data, r))
  /\ (forall data map rest,
        rd_rest (r_mmaps r) = map :: rest -> mm_frameTime map <> r_global_time r ->
        exists r',
          read_mapped_region fs_stat r data validate CURRENT_TIME_ONLY
          = Ok (not_found data, r')
          /\ rd_rest (r_mmaps r') = map :: rest
          /\ r' = r_set_mmaps (r_mmaps r') r)
  /\ (forall map rest,
        rd_rest (r_mmaps r) = map :: rest ->
        exists r',
          read_mapped_region fs_stat r None validate ANY_TIME = Ok (found_mapping map, r')
          /\ rd_rest (r_mmaps r') = rest
          /\ r' = r_set_mmaps (r_mmaps r') r)
  /\ (forall map rest,
        rd_rest (r_mmaps r) = map :: rest -> mm_frameTime map = r_global_time r ->
        exists r',
          read_mapped_region fs_stat r None validate CURRENT_TIME_ONLY
          = Ok (found_mapping map, r')
          /\ rd_rest (r_mmaps r') = rest
          /\ r' = r_set_mmaps (r_mmaps r') r).
Proof.
  unfold read_mapped_region, rd_at_end, rd_message.
  split; [|split; [|split]].
  - intros data tc ->. reflexivity.
  - intros data map rest Hrest Htime. rewrite Hrest. cbn.
    rewrite Hrest. cbn.
    destruct (Z.eqb_spec (mm_frameTime map) (r_global_time r)); [contradiction|].
    cbn. eexists. split; [reflexivity|]. split; [reflexivity|]. now destruct r.
  - intros map rest Hrest. rewrite Hrest. cbn. rewrite Hrest. cbn.
    eexists. split; [reflexivity|]. split; [reflexivity|]. now destruct r.
  - intros map rest Hrest Htime. rewrite Hrest. cbn. rewrite Hrest. cbn.
    destruct (Z.eqb_spec (mm_frameTime map) (r_global_time r)); [|contradiction].
    cbn. eexists. split; [reflexivity|]. split; [reflexivity|]. now destruct r.
Qed.

Lemma prefix_append (p s : string) : String.prefix p (p +:+ s) = true.
Proof.
  induction p as [|a p IH]; [now destruct s|].
  change (String a p +:+ s) with (String a (p +:+ s)). cbn [String.prefix].
  now destruct (ascii_dec a a).
Qed.

Lemma clone_name_prefix w file_name :
  String.prefix "mmap_clone_" (clone_name w file_name) = true
  /\ starts_with_slash (clone_name w file_name) = false.
Proof. split; [apply prefix_append|reflexivity]. Qed.

(** X7: a mapped region whose backing is a clone made by
    [try_clone_file] is read back without [stat]: whatever the file
    system holds at replay and whether or not validation is asked for,
    the read succeeds with no warning, and the file is the clone inside
    the trace directory. *)
Theorem cloned_region_not_validated (K : Kernel) (w : TraceWriter) (t : RecordTask)
    (km : KernelMapping) (stat : StatBuf) (k k1 : World K) (name : string)
    (r : TraceReader) (rest : list MMapMsg) :
  try_clone_file K w t (km_fsname km) k = (Some name, k1) ->
  0 <= st_size stat -> 0 <= km_file_offset_bytes km -> 0 < r_global_time r ->
  rd_rest (r_mmaps r)
  = MMap_of (r_global_time r) km stat (SrcFile (str_to_data name)) :: rest ->
  forall fs_stat validate time_constraint d0,
  exists r',
    read_mapped_region fs_stat r (Some d0) validate time_constraint
    = Ok ({| mr_mapping := km;
             mr_data := Some {| md_time := r_global_time r;
                                md_source := SOURCE_FILE;
                                md_file_name := r_trace_dir r +:+ "/" +:+ name;
                                md_data_offset_bytes := km_file_offset_bytes km;
                                md_file_size_bytes := st_size stat |};
             mr_found := true;
             mr_warned := false |}, r')
    /\ rd_rest (r_mmaps r') = rest.
Proof.
  intros Hclone Hsize Hoff Htime Hrest fs_stat validate tc d0.
  apply try_clone_file_name in Hclone as ->.
  unfold read_mapped_region, rd_at_end, rd_message. rewrite Hrest.
  assert (Hfile :
    read_file_source (r_trace_dir r) fs_stat validate
      (MMap_of (r_global_time r) km stat
         (SrcFile (str_to_data (clone_name w (km_fsname km)))))
      (str_to_data (clone_name w (km_fsname km)))
    = Ok (r_trace_dir r +:+ "/" +:+ clone_name w (km_fsname km),
          km_file_offset_bytes km, false)).
  { unfold read_file_source. rewrite data_to_str_to_data.
    destruct (clone_name_prefix w (km_fsname km)) as [-> ->].
    cbn [MMap_of mm_statSize mm_fileOffsetBytes negb andb mbind outcome_bind].
    destruct (Z.ltb_spec (st_size stat) 0); [lia|].
    destruct (Z.ltb_spec (km_file_offset_bytes km) 0); [lia|]. reflexivity. }
  destruct tc; cbn [is_CURRENT_TIME_ONLY save_state rd_rest rd_saved mbind outcome_bind
                    andb negb discard_state];
    rewrite ?Hrest; cbn [mbind outcome_bind];
    change (mm_frameTime (MMap_of (r_global_time r) km stat _)) with (r_global_time r);
    change (mm_source (MMap_of (r_global_time r) km stat ?s)) with s;
    rewrite ?Z.eqb_refl; cbn [negb];
    (destruct (Z.leb_spec (r_global_time r) 0); [lia|]);
    rewrite Hfile; cbn [mbind outcome_bind]; rewrite KernelMapping_of_MMap;
    eexists; (split; [reflexivity|reflexivity]).
Qed.

Lemma cloned_region_not_validated_witness :
  exists r',
    read_mapped_region no_files
      (reader_on_mmaps 1 [MMap_of 1 km_shared_lib stat_lib
                            (SrcFile (str_to_data "mmap_clone_0_x.so"))])
      (Some no_mapped_data) VALIDATE CURRENT_TIME_ONLY
    = Ok ({| mr_mapping := km_shared_lib;
             mr_data := Some {| md_time := 1; md_source := SOURCE_FILE;
                                md_file_name := "/t/mmap_clone_0_x.so";
                                md_data_offset_bytes := 0;
                                md_file_size_bytes := 100 |};
             mr_found := true; mr_warned := false |}, r')
    /\ rd_rest (r_mmaps r') = [].
Proof.
  exact (cloned_region_not_validated kernel_all_ok writer_0 task_cloning km_shared_lib
           stat_lib tt tt "mmap_clone_0_x.so"
           (reader_on_mmaps 1 [MMap_of 1 km_shared_lib stat_lib
                                 (SrcFile (str_to_data "mmap_clone_0_x.so"))]) []
           eq_refl ltac:(vm_compute; congruence) ltac:(vm_compute; congruence)
           ltac:(reflexivity) eq_refl no_files VALIDATE CURRENT_TIME_ONLY no_mapped_data).
Defined.

Lemma same_metadata_check backing_stat map :
  negb (st_ino backing_stat =? mm_inode map)
  || negb (st_mode backing_stat =? mm_statMode map)
  || negb (st_uid backing_stat =? mm_statUid map)
  || negb (st_gid backing_stat =? mm_statGid map)
  || negb (st_size backing_stat =? mm_statSize map)
  || negb (st_mtime backing_stat =? mm_statMTime map) = false
  <-> same_metadata backing_stat map.
Proof.
  unfold same_metadata.
  destruct (Z.eqb_spec (st_ino backing_stat) (mm_inode map));
    destruct (Z.eqb_spec (st_mode backing_stat) (mm_statMode map));
    destruct (Z.eqb_spec (st_uid backing_stat) (mm_statUid map));
    destruct (Z.eqb_spec (st_gid backing_stat) (mm_statGid map));
    destruct (Z.eqb_spec (st_size backing_stat) (mm_statSize map));
    destruct (Z.eqb_spec (st_mtime backing_stat) (mm_statMTime map));
    cbn; intuition congruence.
Qed.

(** X8: the check of a backing file against the metadata recorded for
    it: a file that cannot be found by [stat] is fatal, a file whose
    metadata changed is a warning with which the read goes on, and there
    is no [stat] at all without [VALIDATE], for a name that starts with
    [mmap_clone_], and for a record whose mode, uid, gid and mtime are
    all zero. *)
Theorem backing_file_validation (trace_dir : string) (fs_stat : string -> option StatBuf)
    (map : MMapMsg) (backingFileName : list byte) :
  0 <= mm_statSize map -> 0 <= mm_fileOffsetBytes map ->
  let file := resolve_backing trace_dir (data_to_str backingFileName) in
  let checked :=
    negb (String.prefix "mmap_clone_" (data_to_str backingFileName)) && has_stat_buf map in
  (checked = true -> fs_stat file = None ->
     read_file_source trace_dir fs_stat VALIDATE map backingFileName
     = Fatal ("Failed to stat " +:+ file +:+ ": replay is impossible"))
  /\ (checked = true -> forall backing_stat, fs_stat file = Some backing_stat ->
      exists warned,
        read_file_source trace_dir fs_stat VALIDATE map backingFileName
        = Ok (file, mm_fileOffsetBytes map, warned)
        /\ (warned = false <-> same_metadata backing_stat map))
  /\ (checked = false ->
      read_file_source trace_dir fs_stat VALIDATE map backingFileName
      = Ok (file, mm_fileOffsetBytes map, false))
  /\ read_file_source trace_dir fs_stat DONT_VALIDATE map backingFileName
     = Ok (file, mm_fileOffsetBytes map, false).
Proof.
  intros Hsize Hoff file checked. subst file checked.
  unfold read_file_source, resolve_backing, has_stat_buf.
  destruct (Z.ltb_spec (mm_statSize map) 0); [lia|].
  destruct (Z.ltb_spec (mm_fileOffsetBytes map) 0); [lia|].
  cbn [is_VALIDATE]. rewrite !andb_false_r, !andb_true_r.
  destruct (starts_with_slash (data_to_str backingFileName)); cbn [negb];
    (split; [|split; [|split]]).
  all: try (intros -> ->; reflexivity).
  all: try (intros ->; reflexivity).
  all: try reflexivity.
  all: intros -> st ->; cbn [mbind outcome_bind]; eexists; (split; [reflexivity|]);
    apply same_metadata_check.
Qed.

Lemma backing_file_validation_witness :
  read_file_source "/t" no_files VALIDATE
    (MMap_of 1 km_shared_lib stat_lib (SrcFile (str_to_data "/lib/x.so")))
    (str_to_data "/lib/x.so")
  = Fatal "Failed to stat /lib/x.so: replay is impossible".
Proof.
  exact (proj1 (backing_file_validation "/t" no_files
                  (MMap_of 1 km_shared_lib stat_lib (SrcFile (str_to_data "/lib/x.so")))
                  (str_to_data "/lib/x.so")
                  ltac:(vm_compute; congruence) ltac:(vm_compute; congruence))
               eq_refl eq_refl).
Defined.

(** ** Task events read back *)

Lemma i32_to_tid_nonpos tid : tid <= 0 -> i32_to_tid tid = Fatal "Invalid tid".
Proof. unfold i32_to_tid. now destruct (Z.leb_spec tid 0); [|lia]. Qed.

(** X9: the event [read_task_event] returns is [NONE] exactly at the end
    of the tasks substream, where it is the default event and nothing
    moves; anywhere else the event has the tid of the next record, which
    is positive, and that record is consumed. *)
Theorem read_task_event_none_at_end (r : TraceReader) (event : TraceTaskEvent)
    (r' : TraceReader) :
  read_task_event r = Ok (event, r') ->
  (tte_type event = TTE_NONE <-> rd_rest (r_tasks r) = [])
  /\ (rd_rest (r_tasks r) = [] ->
      event = {| tte_tid := 0; tte_type := TTE_NONE |} /\ r' = r)
  /\ (forall task rest, rd_rest (r_tasks r) = task :: rest ->
        tte_tid event = te_tid task /\ 0 < tte_tid event
        /\ rd_rest (r_tasks r') = rest /\ r' = r_set_tasks (r_tasks r') r).
Proof.
  unfold read_task_event, rd_at_end, rd_message.
  destruct (rd_rest (r_tasks r)) as [|task rest] eqn:Hrest.
  - intros [= <- <-]. split; [tauto|]. split; [auto|]. discriminate.
  - cbn [mbind outcome_bind].
    destruct (Z.leb_spec (te_tid task) 0) as [|Htid];
      [rewrite i32_to_tid_nonpos by assumption; discriminate|].
    rewrite i32_to_tid_pos by assumption. cbn [mbind outcome_bind]. intros H.
    apply bind_Ok_inv in H as (type & Htype & [= <- <-]).
    split; [|split].
    + split; [|discriminate]. cbn [tte_type]. intros ->.
      destruct (te_which task) as [p o f| |]; [|discriminate Htype..].
      apply bind_Ok_inv in Htype as (? & _ & H). apply bind_Ok_inv in H as (? & _ & H).
      discriminate.
    + discriminate.
    + intros ? ? [= <- <-]. cbn. split; [reflexivity|]. split; [assumption|].
      split; [reflexivity|]. now destruct r.
Qed.

Lemma read_task_event_none_at_end_witness :
  tte_type {| tte_tid := 0; tte_type := TTE_NONE |} = TTE_NONE
  <-> rd_rest (r_tasks (reader_on_tasks 1 [])) = [].
Proof.
  exact (proj1 (read_task_event_none_at_end (reader_on_tasks 1 [])
                  {| tte_tid := 0; tte_type := TTE_NONE |} (reader_on_tasks 1 [])
                  eq_refl)).
Defined.

(** X10: [write_task_event] takes any event but [NONE] and checks no
    tid; [read_task_event] gives the event back when its tids are
    positive and ends with "Invalid tid" when one of them is not. *)
Theorem task_event_tids (w : TraceWriter) (event : TraceTaskEvent) :
  tte_type event <> TTE_NONE -> cw_good (w_tasks w) = true ->
  exists w' task,
    write_task_event w event = Ok w'
    /\ cw_data (w_tasks w') = cw_data (w_tasks w) ++ [task]
    /\ forall r rest, rd_rest (r_tasks r) = task :: rest ->
         (task_event_wf event ->
            exists r', read_task_event r = Ok (event, r') /\ rd_rest (r_tasks r') = rest)
         /\ (~ task_event_wf event -> read_task_event r = Fatal "Invalid tid").
Proof.
  intros Hnone Hgood.
  exists (w_set_tasks (cw_write [TaskEvent_of (w_global_time w) event] (w_tasks w)) w),
         (TaskEvent_of (w_global_time w) event).
  split; [|split].
  - unfold write_task_event, TaskEvent_of.
    destruct (tte_type event); [contradiction|reflexivity..].
  - cbn [w_set_tasks w_tasks]. unfold cw_write. now rewrite Hgood.
  - intros r rest Hrest. split.
    + intros Hwf. rewrite (read_task_event_encoded r _ event rest Hwf Hrest).
      eexists. split; reflexivity.
    + intros Hwf. unfold read_task_event, rd_at_end, rd_message. rewrite Hrest.
      cbn [mbind outcome_bind TaskEvent_of te_tid te_which].
      unfold task_event_wf in Hwf.
      destruct (Z.leb_spec (tte_tid event) 0) as [Htid|Htid].
      { now rewrite i32_to_tid_nonpos. }
      rewrite i32_to_tid_pos by assumption. cbn [mbind outcome_bind].
      destruct (tte_type event) as [|p o f|file cmd|status];
        [contradiction| |exfalso; apply Hwf; auto..].
      destruct (Z.leb_spec p 0) as [Hp|Hp];
        [now rewrite (i32_to_tid_nonpos p) by assumption|].
      rewrite (i32_to_tid_pos p) by assumption. cbn [mbind outcome_bind].
      destruct (Z.leb_spec o 0) as [Ho|Ho];
        [now rewrite (i32_to_tid_nonpos o) by assumption|].
      exfalso. apply Hwf. auto.
Qed.

Lemma task_event_tids_witness :
  exists w' task,
    write_task_event writer_0 {| tte_tid := 0; tte_type := EXIT 0 |} = Ok w'
    /\ cw_data (w_tasks w') = [task]
    /\ read_task_event (reader_on_tasks 1 [task]) = Fatal "Invalid tid".
Proof.
  destruct (task_event_tids writer_0 {| tte_tid := 0; tte_type := EXIT 0 |}
              ltac:(discriminate) eq_refl) as (w' & task & Hw & Hdata & Hread).
  exists w', task. split; [exact Hw|]. split; [exact Hdata|].
  apply (Hread (reader_on_tasks 1 [task]) [] eq_refl).
  unfold task_event_wf. cbn. lia.
Defined.

(** ** Generic payloads *)

Lemma write_generic_data w d :
  cw_good (w_generic w) = true ->
  cw_data (w_generic (write_generic w d))
  = cw_data (w_generic w) ++ generic_bytes (w_global_time w) d.
Proof.
  intros Hgood. unfold write_generic, generic_bytes. cbn [w_set_generic w_generic].
  rewrite !cw_write_data, <- !app_assoc; [reflexivity|assumption|].
  now rewrite cw_write_keeps_good.
Qed.

Lemma peek_generic_time X r frame out time d rest :
  in_range c_int64 time ->
  rd_rest (r_generic r) = generic_bytes time d ++ rest ->
  read_generic_for_frame X r frame out
  = let r1 := r_set_generic (rd_open (rd_rest (r_generic r))) r in
    _ ← c_assert (frame_time frame <=? time) "time >= frame.time()";
    if frame_time frame <? time then Ok (false, out, r1)
    else '(out, r) ← read_generic r1; Ok (true, out, r).
Proof.
  intros Htime Hrest. unfold read_generic_for_frame.
  assert (Hend : rd_at_end (r_generic r) = false).
  { unfold rd_at_end. rewrite Hrest. reflexivity. }
  rewrite Hend.
  change (save_state (r_generic r))
    with (set_saved (Some (rd_rest (r_generic r))) (r_generic r)).
  rewrite rd_get_saved.
  assert (Hget : rd_get c_int64 (r_generic r)
                 = Ok (time, {| rd_rest := put c_size_t (Z.of_nat (length d)) ++ d ++ rest;
                                rd_saved := rd_saved (r_generic r) |})).
  { destruct (r_generic r) as [g gs]. cbn [rd_rest rd_saved] in *. subst g.
    unfold generic_bytes. rewrite <- !app_assoc. now rewrite rd_get_put. }
  rewrite Hget. cbn [lift_saved mbind outcome_bind]. rewrite restore_set_saved.
  reflexivity.
Qed.

(** X11: a payload written by [write_generic] and the frame it is read
    for: [read_generic_for_frame] gives the payload back for the frame of
    the time of writing, after which the substream is at its end and the
    next call returns false; for an earlier frame it returns false and
    consumes nothing; for a later frame the assertion fails. *)
Theorem generic_write_read (X : Collab) (w : TraceWriter) (d : list byte)
    (r : TraceReader) (frame : TraceFrame (Event X)) (out : list byte) :
  cw_good (w_generic w) = true ->
  in_range c_size_t (Z.of_nat (length d)) ->
  in_range c_int64 (w_global_time w) ->
  r_global_time r = w_global_time w ->
  cw_data (w_generic (write_generic w d)) = cw_data (w_generic w) ++ rd_rest (r_generic r) ->
  (frame_time frame = w_global_time w ->
     exists r',
       read_generic_for_frame X r frame out = Ok (true, d, r')
       /\ rd_rest (r_generic r') = []
       /\ read_generic_for_frame X r' frame d = Ok (false, d, r'))
  /\ (frame_time frame < w_global_time w ->
      exists r',
        read_generic_for_frame X r frame out = Ok (false, out, r')
        /\ rd_rest (r_generic r') = rd_rest (r_generic r))
  /\ (w_global_time w < frame_time frame ->
      read_generic_for_frame X r frame out = AssertFail "time >= frame.time()").
Proof.
  intros Hgood Hlen Htime Hclock Hdata.
  rewrite write_generic_data in Hdata by assumption. apply app_inv_head in Hdata.
  assert (Hrest : rd_rest (r_generic r) = generic_bytes (w_global_time w) d ++ [])
    by now rewrite app_nil_r.
  rewrite (peek_generic_time X r frame out _ d [] Htime Hrest). cbn zeta.
  split; [|split].
  - intros Hf. rewrite Hf, Z.leb_refl, Z.ltb_irrefl. cbn [c_assert mbind outcome_bind].
    rewrite (read_generic_encoded _ d []); try assumption.
    + cbn [mbind outcome_bind]. eexists. split; [reflexivity|]. split; reflexivity.
    + cbn [r_set_generic r_global_time]. now rewrite Hclock.
    + cbn [r_set_generic r_generic r_global_time rd_open rd_rest].
      rewrite Hclock. exact Hrest.
  - intros Hf. destruct (Z.leb_spec (frame_time frame) (w_global_time w)); [|lia].
    destruct (Z.ltb_spec (frame_time frame) (w_global_time w)); [|lia].
    cbn [c_assert mbind outcome_bind]. eexists. split; reflexivity.
  - intros Hf. destruct (Z.leb_spec (frame_time frame) (w_global_time w)); [lia|].
    reflexivity.
Qed.

Lemma generic_write_read_witness :
  exists r',
    read_generic_for_frame plain_collab
      (reader_on_generic 1 (cw_data (w_generic (write_generic writer_0 ["x"%byte]))))
      frame_1 []
    = Ok (true, ["x"%byte], r')
    /\ rd_rest (r_generic r') = []
    /\ read_generic_for_frame plain_collab r' frame_1 ["x"%byte]
       = Ok (false, ["x"%byte], r').
Proof.
  exact (proj1 (generic_write_read plain_collab writer_0 ["x"%byte]
                  (reader_on_generic 1
                     (cw_data (w_generic (write_generic writer_0 ["x"%byte]))))
                  frame_1 [] eq_refl
                  ltac:(vm_compute; intuition congruence)
                  ltac:(vm_compute; intuition congruence)
                  eq_refl eq_refl)
               eq_refl).
Defined.

(** ** What reading and writing records leaves alone *)

Ltac bind_inv H :=
  let a := fresh "a" in
  let Ha := fresh "Ha" in
  apply bind_Ok_inv in H as (a & Ha & H).

Lemma same_frame_state_refl r : same_frame_state r r.
Proof. repeat split. Qed.

Lemma read_raw_data_frame_state r d r' :
  read_raw_data r = Ok (d, r') -> same_frame_state r r'.
Proof.
  unfold read_raw_data. intros H.
  bind_inv H. destruct a as [time h1]. bind_inv H. destruct a as [tid h2].
  bind_inv H. destruct a as [addr h3]. bind_inv H. destruct a as [n h4].
  bind_inv H. bind_inv H. destruct a0 as [bytes dt].
  injection H as _ <-. repeat split.
Qed.

Lemma read_generic_frame_state r d r' :
  read_generic r = Ok (d, r') -> same_frame_state r r'.
Proof.
  unfold read_generic. intros H.
  bind_inv H. destruct a as [time g1]. bind_inv H. destruct a as [n g2].
  bind_inv H. bind_inv H. destruct a0 as [bytes g3].
  injection H as _ <-. repeat split.
Qed.

(** X12: only frames move the reader's clock: reading a task event, a
    mapped region, raw data or a generic payload leaves the clock, the
    events substream, the trace directory and the header fields of the
    reader as they were. *)
Theorem side_reads_keep_frame_state (X : Collab) (fs_stat : string -> option StatBuf)
    (r : TraceReader) :
  (forall event r', read_task_event r = Ok (event, r') -> same_frame_state r r')
  /\ (forall data validate time_constraint res r',
        read_mapped_region fs_stat r data validate time_constraint = Ok (res, r') ->
        same_frame_state r r')
  /\ (forall d r', read_raw_data r = Ok (d, r') -> same_frame_state r r')
  /\ (forall frame d found d' r',
        read_raw_data_for_frame X r frame d = Ok (found, d', r') -> same_frame_state r r')
  /\ (forall d r', read_generic r = Ok (d, r') -> same_frame_state r r')
  /\ (forall frame out found out' r',
        read_generic_for_frame X r frame out = Ok (found, out', r') ->
        same_frame_state r r').
Proof.
  split; [|split; [|split; [|split; [|split]]]].
  - intros event r'. unfold read_task_event.
    destruct (rd_at_end (r_tasks r)); [intros [= _ <-]; apply same_frame_state_refl|].
    intros H. bind_inv H. destruct a as [task tasks]. bind_inv H. bind_inv H.
    injection H as _ <-. repeat split.
  - intros data validate tc res r'. unfold read_mapped_region.
    destruct (rd_at_end (r_mmaps r)); [intros [= _ <-]; apply same_frame_state_refl|].
    intros H. bind_inv H. destruct a as [map mmaps].
    destruct (_ && _); [injection H as _ <-; repeat split|].
    bind_inv H. destruct a as [data' warned]. injection H as _ <-. repeat split.
  - intros d r'. apply read_raw_data_frame_state.
  - intros frame d found d' r'. unfold read_raw_data_for_frame.
    destruct (rd_at_end (r_data_header r)); [intros [= _ _ <-]; apply same_frame_state_refl|].
    intros H. bind_inv H. destruct a as [time h]. bind_inv H.
    destruct (_ <? _); [injection H as _ _ <-; repeat split|].
    bind_inv H. destruct a0 as [d1 r1]. injection H as _ _ <-.
    apply read_raw_data_frame_state in Ha1. exact Ha1.
  - intros d r'. apply read_generic_frame_state.
  - intros frame out found out' r'. unfold read_generic_for_frame.
    destruct (rd_at_end (r_generic r)); [intros [= _ _ <-]; apply same_frame_state_refl|].
    intros H. bind_inv H. destruct a as [time g]. bind_inv H.
    destruct (_ <? _); [injection H as _ _ <-; repeat split|].
    bind_inv H. destruct a0 as [d1 r1]. injection H as _ _ <-.
    apply read_generic_frame_state in Ha1. exact Ha1.
Qed.

(** X13: only frames move the writer's clock: [write_task_event],
    [write_mapped_region], [write_raw] and [write_generic] leave the
    clock and the events substream as they were and stamp what they
    write with the clock; [write_frame] changes the events substream and
    advances the clock by one, and nothing else. *)
Theorem side_writes_keep_clock (X : Collab) (K : Kernel) (w : TraceWriter) :
  (forall event w', write_task_event w event = Ok w' ->
     w_global_time w' = w_global_time w /\ w_events w' = w_events w
     /\ (cw_good (w_tasks w) = true ->
         te_frameTime <$> last (cw_data (w_tasks w')) = Some (w_global_time w)))
  /\ (forall t km stat origin k ret w' k',
        write_mapped_region K w t km stat origin k = (ret, w', k') ->
        w_global_time w' = w_global_time w /\ w_events w' = w_events w
        /\ (cw_good (w_mmaps w) = true ->
            mm_frameTime <$> last (cw_data (w_mmaps w')) = Some (w_global_time w)))
  /\ (forall rec_tid d addr,
        w_global_time (write_raw w rec_tid d addr) = w_global_time w
        /\ w_events (write_raw w rec_tid d addr) = w_events w)
  /\ (forall d,
        w_global_time (write_generic w d) = w_global_time w
        /\ w_events (write_generic w d) = w_events w)
  /\ (forall frame w', write_frame X w frame = Ok w' ->
        w_global_time w' = w_global_time w + 1
        /\ w' = w_tick_time (w_set_events (w_events w') w)).
Proof.
  split; [|split; [|split; [|split]]].
  - intros event w' H. apply write_task_event_inv in H as (which & -> & _).
    split; [reflexivity|]. split; [reflexivity|].
    intros Hgood. cbn [w_set_tasks w_tasks]. rewrite cw_write_data by assumption.
    now rewrite last_snoc.
  - intros t km stat origin k ret w' k' H. rewrite write_mapped_region_parts in H.
    injection H as _ <- _. split; [reflexivity|]. split; [reflexivity|].
    intros Hgood. cbn [w_set_mmaps w_mmaps]. rewrite cw_write_data by assumption.
    now rewrite last_snoc.
  - intros. split; reflexivity.
  - intros. split; reflexivity.
  - intros frame w' H. apply write_frame_inv in H as (events & ->).
    split; reflexivity.
Qed.

(** ** The cache of the default trace directory *)

Lemma default_rr_trace_dir_nonempty E cached_dir :
  string_empty (fst (default_rr_trace_dir E cached_dir)) = false
  /\ snd (default_rr_trace_dir E cached_dir) = fst (default_rr_trace_dir E cached_dir).
Proof.
  unfold default_rr_trace_dir.
  destruct (string_empty cached_dir) eqn:Hc; cbn [negb fst snd]; [|auto].
  split; [|reflexivity]. unfold dir_exists.
  destruct (getenv E "XDG_DATA_HOME") as [xdg|], (getenv E "HOME") as [home|];
    repeat match goal with
           | |- context [string_empty (?a +:+ ?b)] =>
               rewrite (string_empty_append a b) by reflexivity
           end; cbn [negb andb string_empty];
    repeat match goal with
           | |- context [if ?b then _ else _] => destruct b
           end;
    try reflexivity; now apply string_empty_append.
Qed.

(** X14: the default trace directory is worked out once: the first call
    of [default_rr_trace_dir] leaves a directory that is not empty in
    the cache, and every later call returns it whatever has become of
    the environment and the file system; an override by [_RR_TRACE_DIR]
    is read anew at every call and never cached. *)
Theorem default_rr_trace_dir_cached (E E' : Environ) (cached_dir : string) :
  let dir := fst (default_rr_trace_dir E cached_dir) in
  let cache := snd (default_rr_trace_dir E cached_dir) in
  string_empty dir = false
  /\ default_rr_trace_dir E' cache = (dir, dir)
  /\ (getenv E' "_RR_TRACE_DIR" = None -> trace_save_dir E' cache = (dir, dir))
  /\ (forall output_dir, getenv E' "_RR_TRACE_DIR" = Some output_dir ->
        trace_save_dir E' cached_dir = (output_dir, cached_dir)).
Proof.
  intros dir cache. subst dir cache.
  destruct (default_rr_trace_dir_nonempty E cached_dir) as [Hne Hcache].
  rewrite Hcache.
  assert (Hagain : default_rr_trace_dir E' (fst (default_rr_trace_dir E cached_dir))
                   = (fst (default_rr_trace_dir E cached_dir),
                      fst (default_rr_trace_dir E cached_dir))).
  { unfold default_rr_trace_dir at 1. now rewrite Hne. }
  split; [exact Hne|]. split; [exact Hagain|]. split.
  - intros Hov. unfold trace_save_dir. now rewrite Hov.
  - intros output_dir Hov. unfold trace_save_dir. now rewrite Hov.
Qed.

(** ** Version files that are refused *)

Lemma read_version_line_no_newline text : forall acc,
  "010"%byte ∉ text -> read_version_line text acc = None.
Proof.
  induction text as [|ch text IH]; intros acc H; [reflexivity|].
  cbn [read_version_line]. destruct (Byte.eqb ch "010"%byte) eqn:E.
  - apply Byte.byte_dec_bl in E as ->. exfalso. apply H. left.
  - apply IH. intros Hin. apply H. now right.
Qed.

Lemma byte_of_ascii_newline c :
  Ascii.eqb c "010" = false -> Byte.eqb (byte_of_ascii c) "010"%byte = false.
Proof. destruct c as [[] [] [] [] [] [] [] []]; vm_compute; congruence. Qed.

Lemma read_version_line_line line : forall acc rest,
  no_char "010" line = true ->
  read_version_line (list_byte_of_string (line +:+ nl) ++ rest) acc
  = Some (acc +:+ line, rest).
Proof.
  unfold no_char. induction line as [|c line IH]; intros acc rest H.
  - rewrite append_nil_r. reflexivity.
  - cbn [string_forall] in H. apply andb_true_iff in H as [Hc Hs].
    apply negb_true_iff in Hc.
    change (list_byte_of_string (String c line +:+ nl) ++ rest)
      with (byte_of_ascii c :: (list_byte_of_string (line +:+ nl) ++ rest)).
    cbn [read_version_line]. rewrite (byte_of_ascii_newline c Hc).
    rewrite IH by assumption. rewrite ascii_of_byte_of_ascii, append_assoc. reflexivity.
Qed.

Lemma c_str_decimal_append n s : c_str (decimal n +:+ s) = decimal n +:+ c_str s.
Proof.
  pose proof (decimal_chars n) as H.
  induction (decimal n) as [|c d IH]; [reflexivity|].
  cbn [string_forall] in H. apply andb_true_iff in H as [Hc Hd].
  rewrite !append_cons. cbn [c_str]. rewrite (decimal_char_not_nul c Hc).
  now rewrite IH.
Qed.

Lemma strtol_digits_app_acc d s : forall acc,
  strtol_digits (NilEmpty.string_of_uint d +:+ s) (Z.pos acc)
  = strtol_digits s (Z.pos (Pos.of_uint_acc d acc)).
Proof.
  induction d; intros acc; cbn [NilEmpty.string_of_uint Pos.of_uint_acc];
    [reflexivity|..]; rewrite append_cons; cbn [strtol_digits]; eval_digit; cbv iota;
    rewrite <- IHd; f_equal; lia.
Qed.

Lemma strtol_digits_app d s :
  strtol_digits (NilEmpty.string_of_uint d +:+ s) 0
  = strtol_digits s (Z.of_N (Pos.of_uint d)).
Proof.
  induction d; cbn [NilEmpty.string_of_uint Pos.of_uint];
    [reflexivity|..]; rewrite append_cons; cbn [strtol_digits]; eval_digit; cbv iota;
    [exact IHd | exact (strtol_digits_app_acc d s _) ..].
Qed.

Lemma strtol_digits_stop c s acc :
  digit_value c = None -> strtol_digits (String c s) acc = (acc, String c s).
Proof. intros H. cbn [strtol_digits]. now rewrite H. Qed.

Lemma strtol_uint_app d c s :
  d <> Decimal.Nil -> digit_value c = None ->
  strtol (NilEmpty.string_of_uint d +:+ String c s)
  = (Z.max LONG_MIN (Z.min LONG_MAX (Z.of_N (Pos.of_uint d))), String c s).
Proof.
  intros Hd Hc. pose proof (strtol_digits_app d (String c s)) as H.
  rewrite strtol_digits_stop in H by assumption.
  destruct d; [contradiction|..];
    unfold strtol; cbn [NilEmpty.string_of_uint] in *; rewrite append_cons in *;
    cbn [skip_spaces]; eval_digit; cbv iota; eval_digit; cbv iota; rewrite H; reflexivity.
Qed.

Lemma strtol_neg_uint_app d c s :
  d <> Decimal.Nil -> digit_value c = None ->
  strtol (String "-" (NilEmpty.string_of_uint d +:+ String c s))
  = (Z.max LONG_MIN (Z.min LONG_MAX (- Z.of_N (Pos.of_uint d))), String c s).
Proof.
  intros Hd Hc. pose proof (strtol_digits_app d (String c s)) as H.
  rewrite strtol_digits_stop in H by assumption.
  destruct d; [contradiction|..];
    unfold strtol; cbn [NilEmpty.string_of_uint] in *; rewrite append_cons in *;
    cbn [skip_spaces]; eval_digit; cbv iota; eval_digit; cbv iota; rewrite H; reflexivity.
Qed.

(** [strtol] stops at the first character after the number. *)
Lemma strtol_decimal_app n c s :
  LONG_MIN <= n <= LONG_MAX -> digit_value c = None ->
  strtol (decimal n +:+ String c s) = (n, String c s).
Proof.
  intros Hn Hc. destruct n as [|p|p].
  - change (decimal 0) with "0"%string. unfold strtol. rewrite append_cons.
    cbn [skip_spaces]. eval_digit. cbv iota. eval_digit. cbv iota.
    cbn [strtol_digits]. eval_digit. cbv iota.
    change ("" +:+ String c s) with (String c s).
    rewrite strtol_digits_stop by assumption. reflexivity.
  - rewrite decimal_pos, strtol_uint_app by
      (assumption || apply DecimalPos.Unsigned.to_uint_nonnil).
    rewrite DecimalPos.Unsigned.of_to. cbn [Z.of_N]. f_equal. lia.
  - rewrite decimal_neg, append_cons, strtol_neg_uint_app by
      (assumption || apply DecimalPos.Unsigned.to_uint_nonnil).
    rewrite DecimalPos.Unsigned.of_to. cbn [Z.of_N]. f_equal. lia.
Qed.

(** X15: version files the constructor refuses before it compares
    versions.  A file with no newline in it (an empty file too) ends in
    "Can't read version file"; a line that is a number followed by
    anything that starts with neither a digit nor a NUL ends in "Invalid
    version" with the whole line; an empty line is taken for version 0
    and refused as an incompatible version with status 65. *)
Theorem version_file_refused (X : Collab) (trace_dir : string) (files : TraceFiles)
    (header : option HeaderMsg) :
  (forall text, "010"%byte ∉ text ->
     TraceReader_new X trace_dir (Readable {| vf_text := text; vf_header := header |}) files
     = Fatal ("Can't read version file " +:+ version_path trace_dir))
  /\ (forall n c junk rest,
        LONG_MIN <= n <= LONG_MAX ->
        digit_value c = None -> Ascii.eqb c "000" = false ->
        no_char "010" (String c junk) = true ->
        TraceReader_new X trace_dir
          (Readable {| vf_text :=
                         list_byte_of_string (decimal n +:+ String c junk +:+ nl) ++ rest;
                       vf_header := header |}) files
        = Fatal ("Invalid version: " +:+ decimal n +:+ String c junk))
  /\ (forall rest,
        TraceReader_new X trace_dir
          (Readable {| vf_text := "010"%byte :: rest; vf_header := header |}) files
        = Exit 65 (msg_incompatible_version (version_path trace_dir) 0)).
Proof.
  split; [|split].
  - intros text H. unfold TraceReader_new. cbn [vf_text].
    now rewrite read_version_line_no_newline.
  - intros n c junk rest Hn Hc Hnul Hline. unfold TraceReader_new. cbn [vf_text].
    rewrite <- append_assoc, read_version_line_line.
    + change (EmptyString +:+ ?s) with s.
      rewrite c_str_decimal_append. cbn [c_str]. rewrite Hnul.
      rewrite strtol_decimal_app by assumption. reflexivity.
    + rewrite no_char_append, Hline. now rewrite (decimal_no_char "010").
  - intros rest. reflexivity.
Qed.

(** ** Readers that are constructed *)

Lemma chunks_shape n len bs :
  length bs = (len * n)%nat ->
  length (chunks n len bs) = len /\ Forall (fun c => length c = n) (chunks n len bs).
Proof.
  revert bs. induction len as [|len IH]; intros bs Hlen; cbn [chunks].
  - split; [reflexivity|constructor].
  - destruct (IH (drop n bs)) as [Hl Hf]; [rewrite length_drop; lia|].
    split; [cbn; now rewrite Hl|]. constructor; [|exact Hf].
    rewrite length_take. lia.
Qed.

(** X16: a reader is only ever constructed on a version file whose line
    [strtol] reads as 85 to its end and whose header decodes; it then
    starts at clock 0 at the beginning of every substream file, and its
    CPUID records are the bytes of the header cut into records of
    [sizeof(CPUIDRecord)] bytes each. *)
Theorem TraceReader_new_constructed (X : Collab) (trace_dir : string)
    (version : VersionOnDisk) (files : TraceFiles) (r : TraceReader) :
  TraceReader_new X trace_dir version files = Ok r ->
  exists vf version_str header,
    version = Readable vf
    /\ read_version_line (vf_text vf) EmptyString = Some (version_str, [])
    /\ strtol (c_str version_str) = (TRACE_VERSION, EmptyString)
    /\ vf_header vf = Some header
    /\ r_trace_dir r = trace_dir /\ r_global_time r = 0
    /\ r_bind_to_cpu r = h_bindToCpu header
    /\ trace_uses_cpuid_faulting r = h_hasCpuidFaulting header
    /\ concat (cpuid_records_ r) = h_cpuidRecords header
    /\ Forall (fun c => length c = sizeof_CPUIDRecord X) (cpuid_records_ r)
    /\ r_contents r
       = {| c_events := file_events files; c_data_header := file_data_header files;
            c_data := file_data files; c_mmaps := file_mmaps files;
            c_tasks := file_tasks files; c_generic := file_generic files |}.
Proof.
  unfold TraceReader_new. destruct version as [vf|errno];
    [|destruct (errno =? ENOENT); discriminate].
  destruct (read_version_line (vf_text vf) EmptyString) as [[version_str rest]|] eqn:Hline;
    [|discriminate].
  destruct (strtol (c_str version_str)) as [v end_ptr] eqn:Hparse.
  destruct (String.eqb_spec end_ptr EmptyString) as [->|]; [|discriminate]. cbn [negb].
  destruct (Z.eqb_spec TRACE_VERSION v) as [<-|]; [|discriminate]. cbn [negb].
  destruct rest as [|b rest]; [|discriminate].
  destruct (vf_header vf) as [header|] eqn:Hh; [|discriminate].
  cbn [mbind outcome_bind].
  destruct (Nat.eqb_spec (length (h_cpuidRecords header))
              (length (h_cpuidRecords header) / sizeof_CPUIDRecord X
               * sizeof_CPUIDRecord X)) as [Hlen|]; [|discriminate].
  cbn [c_assert mbind outcome_bind]. intros [= <-].
  exists vf, version_str, header. cbn.
  destruct (chunks_shape (sizeof_CPUIDRecord X) _ _ Hlen) as [_ Hf].
  repeat split; auto. now apply chunks_concat.
Qed.

Lemma TraceReader_new_constructed_witness :
  exists vf version_str header,
    Readable version_file_ok = Readable vf
    /\ read_version_line (vf_text vf) EmptyString = Some (version_str, [])
    /\ strtol (c_str version_str) = (TRACE_VERSION, EmptyString)
    /\ vf_header vf = Some header.
Proof.
  destruct (TraceReader_new_constructed plain_collab "/t" (Readable version_file_ok)
              (empty_files version_file_ok) _ eq_refl)
    as (vf & version_str & header & H1 & H2 & H3 & H4 & _).
  exists vf, version_str, header. auto.
Defined.

(** ** Mapped regions written again *)

Lemma str_to_data_to_str d : str_to_data (data_to_str d) = d.
Proof. apply list_byte_of_string_of_list_byte. Qed.

Lemma starts_with_slash_append a b :
  starts_with_slash a = true -> starts_with_slash (a +:+ b) = true.
Proof. destruct a; [discriminate|]. trivial. Qed.

(** What [read_mapped_region] fills in when it finds a record. *)
Lemma read_mapped_region_data fs_stat r d0 validate tc res r' :
  read_mapped_region fs_stat r (Some d0) validate tc = Ok (res, r') ->
  mr_found res = true ->
  exists map data,
    mr_mapping res = KernelMapping_of_msg map /\ mr_data res = Some data
    /\ md_time data = mm_frameTime map /\ 0 < md_time data
    /\ (tc = CURRENT_TIME_ONLY -> md_time data = r_global_time r)
    /\ md_file_size_bytes data = mm_statSize map
    /\ match mm_source map with
       | SrcZero => md_source data = SOURCE_ZERO /\ md_data_offset_bytes data = 0
                    /\ md_file_name data = md_file_name d0
       | SrcTrace => md_source data = SOURCE_TRACE /\ md_data_offset_bytes data = 0
                     /\ md_file_name data = md_file_name d0
       | SrcFile name =>
           md_source data = SOURCE_FILE
           /\ md_file_name data = resolve_backing (r_trace_dir r) (data_to_str name)
           /\ md_data_offset_bytes data = mm_fileOffsetBytes map
           /\ 0 <= mm_fileOffsetBytes map /\ 0 <= mm_statSize map
       end.
Proof.
  unfold read_mapped_region.
  destruct (rd_at_end (r_mmaps r)); [intros [= <- _]; discriminate|].
  intros H Hfound. bind_inv H. destruct a as [map mmaps]. exists map.
  destruct (is_CURRENT_TIME_ONLY tc && negb (mm_frameTime map =? r_global_time r)) eqn:Htc;
    [injection H as <- _; discriminate|].
  bind_inv H. destruct a as [data warned]. injection H as <- _.
  destruct (Z.leb_spec (mm_frameTime map) 0) as [|Htime]; [discriminate|].
  assert (Hcur : tc = CURRENT_TIME_ONLY -> mm_frameTime map = r_global_time r).
  { intros ->. cbn in Htc. apply negb_false_iff in Htc. now apply Z.eqb_eq. }
  destruct (mm_source map) as [| |name] eqn:Hsrc.
  - injection Ha0 as <- _. eexists. cbn. repeat split; auto.
  - injection Ha0 as <- _. eexists. cbn. repeat split; auto.
  - bind_inv Ha0. destruct a as [[file offset] w]. injection Ha0 as <- _.
    unfold read_file_source in Ha1.
    destruct (Z.ltb_spec (mm_statSize map) 0); [discriminate|].
    bind_inv Ha1.
    destruct (Z.ltb_spec (mm_fileOffsetBytes map) 0); [discriminate|].
    injection Ha1 as <- <- _. unfold resolve_backing.
    destruct (starts_with_slash (data_to_str name)); cbn [negb];
      eexists; cbn [mr_mapping mr_data md_time md_source md_file_name
                    md_data_offset_bytes md_file_size_bytes]; repeat split; auto.
Qed.

(** [read_mapped_region] on a record that
    [write_mapped_region_to_alternative_stream] wrote. *)
Lemma read_alternative_stream fs_stat validate tc data km r mmaps :
  cw_good mmaps = true ->
  0 < md_time data ->
  (tc = CURRENT_TIME_ONLY -> r_global_time r = md_time data) ->
  match md_source data with
  | SOURCE_FILE =>
      starts_with_slash (md_file_name data) = true
      /\ md_data_offset_bytes data = km_file_offset_bytes km
      /\ 0 <= km_file_offset_bytes km /\ 0 <= md_file_size_bytes data
  | _ => md_data_offset_bytes data = 0
  end ->
  cw_data (write_mapped_region_to_alternative_stream mmaps data km)
  = cw_data mmaps ++ rd_rest (r_mmaps r) ->
  exists r',
    read_mapped_region fs_stat r (Some data) validate tc
    = Ok ({| mr_mapping := km; mr_data := Some data; mr_found := true;
             mr_warned := false |}, r')
    /\ rd_rest (r_mmaps r') = [].
Proof.
  intros Hgood Htime Hcur Hsrc Hdata.
  unfold write_mapped_region_to_alternative_stream in Hdata.
  rewrite cw_write_data in Hdata by assumption. apply app_inv_head in Hdata.
  symmetry in Hdata.
  unfold read_mapped_region, rd_at_end, rd_message. rewrite Hdata.
  assert (Htc : is_CURRENT_TIME_ONLY tc && negb (md_time data =? r_global_time r) = false).
  { destruct tc; [|reflexivity]. cbn. rewrite Hcur by reflexivity. now rewrite Z.eqb_refl. }
  assert (Hkm : forall time a b c d e src,
            KernelMapping_of_msg
              {| mm_frameTime := time; mm_start := km_start km; mm_end := km_end km;
                 mm_fsname := str_to_data (km_fsname km); mm_device := km_device km;
                 mm_inode := km_inode km; mm_prot := km_prot km; mm_flags := km_flags km;
                 mm_fileOffsetBytes := km_file_offset_bytes km; mm_statMode := a;
                 mm_statUid := b; mm_statGid := c; mm_statSize := d; mm_statMTime := e;
                 mm_source := src |} = km).
  { intros. destruct km. unfold KernelMapping_of_msg. cbn -[data_to_str str_to_data].
    now rewrite data_to_str_to_data. }
  destruct tc; cbn [is_CURRENT_TIME_ONLY save_state rd_rest rd_saved mbind outcome_bind
                    discard_state mm_frameTime mm_source mm_statSize] in *;
    rewrite ?Hdata; cbn [mbind outcome_bind mm_frameTime mm_source mm_statSize];
    rewrite ?Htc;
    (destruct (Z.leb_spec (md_time data) 0); [lia|]);
    destruct data as [time source file offset size]; cbn [md_source md_time md_file_name
      md_data_offset_bytes md_file_size_bytes] in *;
    destruct source; cbn [mbind outcome_bind]; rewrite ?Hkm.
  all: try (subst offset; eexists; split; reflexivity).
  all: destruct Hsrc as (Hslash & -> & Hoff & Hsize);
    unfold read_file_source; rewrite data_to_str_to_data, Hslash;
    cbn [mm_statSize mm_statMode mm_statUid mm_statGid mm_statMTime mm_fileOffsetBytes negb];
    (destruct (Z.ltb_spec size 0); [lia|]);
    (destruct (Z.ltb_spec (km_file_offset_bytes km) 0); [lia|]);
    rewrite !andb_false_r; cbn [mbind outcome_bind]; rewrite ?Hkm;
    eexists; split; reflexivity.
Qed.

(** X17: a mapped region that was read and is written again by
    [write_mapped_region_to_alternative_stream] reads back as it was
    read: the same mapping and the same data, found, with no warning and
    no [stat] of the backing file, from any trace directory, given that
    the directory it was first read from has an absolute path. *)
Theorem rewritten_region_read_back (fs_stat : string -> option StatBuf) (r : TraceReader)
    (d0 : MappedData) (validate : ValidateSourceFile) (time_constraint : TimeConstraint)
    (res : MappedRegionResult) (r1 : TraceReader) (data : MappedData) :
  read_mapped_region fs_stat r (Some d0) validate time_constraint = Ok (res, r1) ->
  mr_found res = true -> mr_data res = Some data ->
  starts_with_slash (r_trace_dir r) = true ->
  forall mmaps r2 fs_stat2 validate2 time_constraint2,
    cw_good mmaps = true ->
    cw_data (write_mapped_region_to_alternative_stream mmaps data (mr_mapping res))
    = cw_data mmaps ++ rd_rest (r_mmaps r2) ->
    (time_constraint2 = CURRENT_TIME_ONLY -> r_global_time r2 = md_time data) ->
    exists r3,
      read_mapped_region fs_stat2 r2 (Some data) validate2 time_constraint2
      = Ok ({| mr_mapping := mr_mapping res; mr_data := Some data; mr_found := true;
               mr_warned := false |}, r3)
      /\ rd_rest (r_mmaps r3) = [].
Proof.
  intros Hread Hfound Hdata Habs mmaps r2 fs_stat2 validate2 tc2 Hgood Hwritten Hcur.
  destruct (read_mapped_region_data _ _ _ _ _ _ _ Hread Hfound)
    as (map & data' & Hkm & Hdata' & Htime & Hpos & _ & Hsize & Hsrc).
  rewrite Hdata in Hdata'. injection Hdata' as <-.
  apply (read_alternative_stream fs_stat2 validate2 tc2 data (mr_mapping res) r2 mmaps);
    try assumption.
  destruct (mm_source map) as [| |name].
  - destruct Hsrc as (-> & -> & _). reflexivity.
  - destruct Hsrc as (-> & -> & _). reflexivity.
  - destruct Hsrc as (-> & Hname & Hoff & Hoff0 & Hsize0).
    rewrite Hname, Hoff, Hsize, Hkm. cbn [KernelMapping_of_msg km_file_offset_bytes].
    split; [|auto]. unfold resolve_backing.
    destruct (starts_with_slash (data_to_str name)) eqn:E; [exact E|].
    now apply starts_with_slash_append.
Qed.

Lemma rewritten_region_read_back_witness :
  exists data r3,
    read_mapped_region no_files
      (reader_in "/elsewhere" 1
         (cw_data (write_mapped_region_to_alternative_stream cw_open data km_shared_lib)))
      (Some data) VALIDATE CURRENT_TIME_ONLY
    = Ok ({| mr_mapping := km_shared_lib; mr_data := Some data; mr_found := true;
             mr_warned := false |}, r3)
    /\ md_file_name data = "/t/mmap_clone_0_x.so"%string.
Proof.
  pose (data := {| md_time := 1; md_source := SOURCE_FILE;
                   md_file_name := "/t/mmap_clone_0_x.so";
                   md_data_offset_bytes := 0; md_file_size_bytes := 100 |}).
  destruct (rewritten_region_read_back no_files
              (reader_on_mmaps 1 [MMap_of 1 km_shared_lib stat_lib
                                    (SrcFile (str_to_data "mmap_clone_0_x.so"))])
              no_mapped_data VALIDATE CURRENT_TIME_ONLY
              {| mr_mapping := km_shared_lib; mr_data := Some data; mr_found := true;
                 mr_warned := false |}
              _ data eq_refl eq_refl eq_refl eq_refl
              cw_open
              (reader_in "/elsewhere" 1
                 (cw_data (write_mapped_region_to_alternative_stream cw_open data
                             km_shared_lib)))
              no_files VALIDATE CURRENT_TIME_ONLY eq_refl eq_refl (fun _ => eq_refl))
    as (r3 & Hread & _).
  exists data, r3. split; [exact Hread|reflexivity].
Defined.

(** ** Mappings classified without the file system *)

Lemma try_clone_file_disabled K w t file_name k :
  use_file_cloning t = false -> try_clone_file K w t file_name k = (None, k).
Proof. intros H. unfold try_clone_file. now rewrite H. Qed.

(** X18: a mapping that one of the first four rules classifies (a remap
    or a patch, SysV shared memory, an anonymous mapping of a system
    call, an rr buffer) is recorded with no system call and no change
    to the files assumed immutable; so is, in a session that does not
    clone files, a mapping that is to be copied into the trace. *)
Theorem classification_without_system_calls (K : Kernel) (w : TraceWriter) (t : RecordTask)
    (km : KernelMapping) (stat : StatBuf) (origin : MappingOrigin) (k : World K)
    (ret : RecordInTrace) (w' : TraceWriter) (k' : World K) :
  write_mapped_region K w t km stat origin k = (ret, w', k') ->
  (rule_remap_or_patch origin \/ rule_sysv km \/ rule_anonymous origin km
   \/ rule_rr_buffer origin \/ (use_file_cloning t = false /\ rule_copy K w km stat k)) ->
  k' = k /\ files_assumed_immutable w' = files_assumed_immutable w.
Proof.
  intros H Hrule. rewrite write_mapped_region_parts in H. injection H as _ <- <-.
  cbn [w_set_mmaps files_assumed_immutable].
  enough (E : classify_mapping K w t km stat origin k
              = (fst (fst (classify_mapping K w t km stat origin k)),
                 files_assumed_immutable w, k)) by (rewrite E; auto).
  unfold classify_mapping. rewrite find_at_0_prefix by discriminate.
  destruct (is_REMAP_or_PATCH origin) eqn:E1; [reflexivity|].
  destruct (String.prefix "/SYSV" (km_fsname km)) eqn:E2; [reflexivity|].
  destruct (is_SYSCALL origin
            && ((km_inode km =? 0) || String.eqb (km_fsname km) "/dev/zero (deleted)"))
    eqn:E3; [reflexivity|].
  destruct (is_RR_BUFFER origin) eqn:E4; [reflexivity|].
  destruct Hrule as [H|[H|[H|[H|[Hclone Hcopy]]]]].
  - destruct H as [-> | ->]; discriminate.
  - unfold rule_sysv in H. congruence.
  - destruct H as [-> H]. cbn in E3. apply orb_false_iff in E3 as [Ei En].
    destruct H as [H|H]; [apply Z.eqb_neq in Ei; contradiction|].
    apply String.eqb_neq in En. contradiction.
  - rewrite H in E4. discriminate.
  - rewrite !try_clone_file_disabled by assumption.
    destruct (negb _); cbn [fst snd]; destruct Hcopy as [-> Himm];
      rewrite bool_decide_eq_false_2 by assumption; reflexivity.
Qed.

Lemma classification_without_system_calls_witness :
  snd (write_mapped_region kernel_all_ok writer_0 task_cloning km_shared_lib stat_lib
         REMAP_MAPPING tt) = tt
  /\ files_assumed_immutable
       (snd (fst (write_mapped_region kernel_all_ok writer_0 task_cloning km_shared_lib
                    stat_lib REMAP_MAPPING tt)))
     = files_assumed_immutable writer_0.
Proof.
  exact (classification_without_system_calls kernel_all_ok writer_0 task_cloning
           km_shared_lib stat_lib REMAP_MAPPING tt _ _ _ eq_refl
           (or_introl (or_introl eq_refl))).
Defined.

(** ** Making the trace directory *)

Lemma strip_slashes_cut d :
  ends_with "/" (strip_slashes d) = false
  /\ exists n, d = strip_slashes d +:+ slashes n.
Proof.
  induction d as [|a d (IHe & n & IHn)]; [split; [reflexivity|now exists 0%nat]|].
  cbn [strip_slashes]. destruct (strip_slashes d) as [|b s] eqn:E.
  - destruct (Ascii.eqb_spec a "/") as [->|Hne].
    + split; [reflexivity|]. exists (S n). cbn [slashes]. now rewrite IHn at 1.
    + split; [cbn; now apply Ascii.eqb_neq|]. exists n. now rewrite IHn at 1.
  - split; [exact IHe|]. exists n. now rewrite IHn at 1.
Qed.

Lemma length_strip_slashes d : (String.length (strip_slashes d) <= String.length d)%nat.
Proof.
  induction d as [|a d IH]; [reflexivity|]. cbn [strip_slashes].
  destruct (strip_slashes d) as [|b s]; [destruct (Ascii.eqb a "/")|]; cbn in *; lia.
Qed.

Lemma rfind_lt c s i : rfind c s = Some i -> (i < String.length s)%nat.
Proof.
  revert i. induction s as [|a s IH]; intros i; cbn [rfind]; [discriminate|].
  destruct (rfind c s) as [j|].
  - intros [= <-]. specialize (IH j eq_refl). cbn. lia.
  - destruct (Ascii.eqb a c); [|discriminate]. intros [= <-]. cbn. lia.
Qed.

Lemma length_substring_le n m s : (String.length (String.substring n m s) <= m)%nat.
Proof.
  revert n m. induction s as [|a s IH]; intros [|n] [|m]; cbn; try lia.
  - specialize (IH 0%nat m). lia.
  - apply (IH n 0%nat).
  - apply (IH n (S m)).
Qed.

Lemma ensure_dir_checks_Ok F dir st_mode k k' :
  fs_stat F (strip_slashes dir) k = inl st_mode ->
  ensure_dir_checks F dir (strip_slashes dir) st_mode k = Ok k' ->
  k' = k /\ ensured F dir k.
Proof.
  intros Hstat. unfold ensure_dir_checks.
  destruct (Z.eqb_spec (Z.land S_IFDIR st_mode) 0); [discriminate|].
  destruct (fs_access_w F (strip_slashes dir) k) eqn:Ha; [|discriminate].
  intros [= <-]. split; [reflexivity|]. now exists st_mode.
Qed.

Lemma ensure_dir_fuel_spec F mode : forall fuel dir k,
  (String.length dir < fuel)%nat ->
  exists o,
    ensure_dir_fuel F fuel dir mode k = Some o
    /\ (forall fuel', (String.length dir < fuel')%nat ->
          ensure_dir_fuel F fuel' dir mode k = Some o)
    /\ (forall k', o = Ok k' -> ensured F dir k').
Proof.
  induction fuel as [|fuel IH]; intros dir k Hfuel; [lia|].
  cbn [ensure_dir_fuel].
  destruct (fs_stat F (strip_slashes dir) k) as [st_mode|errno] eqn:Hstat.
  { eexists. split; [reflexivity|]. split.
    - intros [|fuel'] H; [lia|]. cbn [ensure_dir_fuel]. now rewrite Hstat.
    - intros k' H. now destruct (ensure_dir_checks_Ok _ _ _ _ _ Hstat H) as [-> He]. }
  destruct (negb (errno =? ENOENT)) eqn:Herrno.
  { eexists. split; [reflexivity|]. split; [|discriminate].
    intros [|fuel'] H; [lia|]. cbn [ensure_dir_fuel]. now rewrite Hstat, Herrno. }
  destruct (rfind "/" (strip_slashes dir)) as [[|last_slash]|] eqn:Hslash.
  1, 3: eexists; (split; [reflexivity|]); (split; [|discriminate]);
    intros [|fuel'] H; [lia|]; cbn [ensure_dir_fuel]; now rewrite Hstat, Herrno, Hslash.
  set (parent := String.substring 0 (S last_slash) (strip_slashes dir)) in *.
  assert (Hparent : (String.length parent < fuel)%nat).
  { pose proof (length_substring_le 0 (S last_slash) (strip_slashes dir)).
    pose proof (rfind_lt _ _ _ Hslash). pose proof (length_strip_slashes dir).
    subst parent. lia. }
  destruct (IH parent k Hparent) as (o & Ho & Hfuel' & Hens). rewrite Ho.
  assert (Hrest : forall fuel', (String.length dir < fuel')%nat ->
            ensure_dir_fuel F fuel' dir mode k
            = match o with
              | Ok k0 =>
                  let '(ret, k1) := fs_mkdir F (strip_slashes dir) mode k0 in
                  if match ret with
                     | Some errno0 => negb (errno0 =? EEXIST)
                     | None => false
                     end
                  then Some (Fatal ("Can't create trace directory `" +:+ dir +:+ "'"))
                  else
                    match fs_stat F (strip_slashes dir) k1 with
                    | inl st_mode =>
                        Some (ensure_dir_checks F dir (strip_slashes dir) st_mode k1)
                    | inr _ => Some (Fatal ("Can't stat trace directory `" +:+ dir +:+ "'"))
                    end
              | _ => Some o
              end).
  { intros [|fuel'] H; [lia|]. cbn [ensure_dir_fuel].
    rewrite Hstat, Herrno, Hslash. fold parent. rewrite Hfuel'; [now destruct o|].
    pose proof (length_substring_le 0 (S last_slash) (strip_slashes dir)).
    pose proof (rfind_lt _ _ _ Hslash). pose proof (length_strip_slashes dir).
    subst parent. lia. }
  destruct o as [k0| | | | |];
    try (eexists; (split; [reflexivity|]); (split; [exact Hrest|discriminate])).
  destruct (fs_mkdir F (strip_slashes dir) mode k0) as [ret k1] eqn:Hmk.
  destruct (match ret with Some errno0 => negb (errno0 =? EEXIST) | None => false end).
  { eexists. split; [reflexivity|]. split; [exact Hrest|discriminate]. }
  destruct (fs_stat F (strip_slashes dir) k1) as [st_mode|e] eqn:Hstat1.
  - eexists. split; [reflexivity|]. split; [exact Hrest|].
    intros k' H. now destruct (ensure_dir_checks_Ok _ _ _ _ _ Hstat1 H) as [-> He].
  - eexists. split; [reflexivity|]. split; [exact Hrest|discriminate].
Qed.

(** X19: [ensure_dir] returns: a depth of calls of the length of the
    name is enough, and a larger bound gives the same result.  When it
    returns normally, the name without the slashes at its end is, in the
    file system it leaves, something [stat] finds with the bit [S_IFDIR]
    in its mode and that can be written to. *)
Theorem ensure_dir_returns (F : FileSys) (dir : string) (mode : Z) (k : FS F) :
  exists o,
    ensure_dir F dir mode k = Some o
    /\ (forall fuel, (String.length dir < fuel)%nat ->
          ensure_dir_fuel F fuel dir mode k = Some o)
    /\ (forall k', o = Ok k' ->
          exists st_mode,
            fs_stat F (strip_slashes dir) k' = inl st_mode
            /\ Z.land S_IFDIR st_mode <> 0
            /\ fs_access_w F (strip_slashes dir) k' = true)
    /\ ends_with "/" (strip_slashes dir) = false
    /\ exists n, dir = strip_slashes dir +:+ slashes n.
Proof.
  destruct (ensure_dir_fuel_spec F mode (S (String.length dir)) dir k) as (o & Ho & Hf & He);
    [lia|].
  exists o. split; [exact Ho|]. split; [exact Hf|]. split; [exact He|].
  apply strip_slashes_cut.
Qed.

Lemma rfind_root name : no_char "/" name = true -> rfind "/" (String "/" name) = Some 0%nat.
Proof. intros H. cbn [rfind]. apply rfind_None in H. now rewrite H. Qed.

(** X20: what [ensure_dir] does not create.  A name that [stat] finds
    is only checked, and the file system stays as it is: the call
    returns normally exactly if the mode has the bit [S_IFDIR] and the
    name can be written to.  An error of [stat] other than [ENOENT] is
    fatal.  A missing name with no slash in it, or with no slash but the
    first character, is fatal too: no directory is made in the current
    directory or in the root. *)
Theorem ensure_dir_no_create (F : FileSys) (dir : string) (mode : Z) (k : FS F) :
  let d := strip_slashes dir in
  (forall st_mode, fs_stat F d k = inl st_mode ->
     (forall k', ensure_dir F dir mode k = Some (Ok k') ->
        k' = k /\ Z.land S_IFDIR st_mode <> 0 /\ fs_access_w F d k = true)
     /\ (Z.land S_IFDIR st_mode <> 0 -> fs_access_w F d k = true ->
         ensure_dir F dir mode k = Some (Ok k))
     /\ (Z.land S_IFDIR st_mode = 0 ->
         ensure_dir F dir mode k
         = Some (Fatal ("`" +:+ dir +:+ "' exists but isn't a directory.")))
     /\ (Z.land S_IFDIR st_mode <> 0 -> fs_access_w F d k = false ->
         ensure_dir F dir mode k = Some (Fatal ("Can't write to `" +:+ dir +:+ "'."))))
  /\ (forall errno, fs_stat F d k = inr errno -> errno <> ENOENT ->
        ensure_dir F dir mode k
        = Some (Fatal ("Error accessing trace directory `" +:+ dir +:+ "'")))
  /\ (fs_stat F d k = inr ENOENT ->
      (no_char "/" d = true \/ exists name, d = String "/" name /\ no_char "/" name = true) ->
      ensure_dir F dir mode k
      = Some (Fatal ("Can't find trace directory `" +:+ dir +:+ "'"))).
Proof.
  intros d. subst d. unfold ensure_dir. cbn [ensure_dir_fuel]. split; [|split].
  - intros st_mode ->. unfold ensure_dir_checks.
    destruct (Z.eqb_spec (Z.land S_IFDIR st_mode) 0) as [Hz|Hnz];
      destruct (fs_access_w F (strip_slashes dir) k) eqn:Ha; cbn [negb];
      (split; [intros k' [= <-]; auto|]); repeat split; intros; congruence.
  - intros errno -> Hne. destruct (Z.eqb_spec errno ENOENT); [contradiction|]. reflexivity.
  - intros -> Hslash. cbn [negb Z.eqb ENOENT Pos.eqb].
    destruct Hslash as [H|(name & E & H)].
    + apply rfind_None in H. now rewrite H.
    + rewrite E. now rewrite (rfind_root name H).
Qed.

Lemma trace_save_dir_after_default F cached_dir k k1 :
  let cached1 := snd (default_rr_trace_dir (environ_of F k) cached_dir) in
  snd (trace_save_dir (environ_of F k1) cached1) = cached1.
Proof.
  cbv zeta. unfold trace_save_dir. cbn [environ_of getenv].
  destruct (fs_getenv F "_RR_TRACE_DIR"); [reflexivity|].
  destruct (default_rr_trace_dir_nonempty (environ_of F k) cached_dir) as [Hne Hc].
  rewrite Hc. unfold default_rr_trace_dir at 1. now rewrite Hne.
Qed.

Lemma ensure_default_rr_trace_dir_Ok F cached_dir k cached1 k1 :
  ensure_default_rr_trace_dir F cached_dir k = Some (Ok (cached1, k1)) ->
  cached1 = snd (default_rr_trace_dir (environ_of F k) cached_dir).
Proof.
  unfold ensure_default_rr_trace_dir.
  destruct (default_rr_trace_dir (environ_of F k) cached_dir) as [dir c].
  destruct (ensure_dir F dir S_IRWXU k) as [[k0| | | | |]|]; cbn; congruence.
Qed.

(** The names up to [n] are taken: [mkdir] fails on them with [EEXIST]
    and changes nothing. *)
Lemma make_trace_dir_loop_taken F exe_path cached1 k1 :
  snd (trace_save_dir (environ_of F k1) cached1) = cached1 ->
  forall n fuel nonce,
    (forall i, nonce <= i < nonce + Z.of_nat n ->
       fs_mkdir F (trace_dir_name F exe_path i cached1 k1) (Z.lor S_IRWXU S_IRWXG) k1
       = (Some EEXIST, k1)) ->
    make_trace_dir_loop F (n + fuel) exe_path nonce cached1 k1
    = make_trace_dir_loop F fuel exe_path (nonce + Z.of_nat n) cached1 k1.
Proof.
  intros Hcache. induction n as [|n IH]; intros fuel nonce Htaken.
  - cbn [Nat.add]. f_equal. lia.
  - cbn [Nat.add make_trace_dir_loop]. rewrite Hcache, Htaken by lia.
    change (EEXIST =? EEXIST) with true. cbv iota. rewrite IH.
    + f_equal. lia.
    + intros i Hi. apply Htaken. lia.
Qed.

(** X21: [make_trace_dir] takes the first name that is free: once the
    default directory is ensured, if [mkdir] answers [EEXIST] for the
    names of the nonces below [n], leaving the file system as it is,
    then the name with nonce [n] is the trace directory when [mkdir]
    makes it, and the call is fatal when [mkdir] fails on it with
    another error than [EEXIST]. *)
Theorem make_trace_dir_first_free (F : FileSys) (exe_path cached_dir : string) (k : FS F)
    (cached1 : string) (k1 : FS F) (n fuel : nat) :
  ensure_default_rr_trace_dir F cached_dir k = Some (Ok (cached1, k1)) ->
  (forall i, 0 <= i < Z.of_nat n ->
     fs_mkdir F (trace_dir_name F exe_path i cached1 k1) (Z.lor S_IRWXU S_IRWXG) k1
     = (Some EEXIST, k1)) ->
  (n < fuel)%nat ->
  let dir := trace_dir_name F exe_path (Z.of_nat n) cached1 k1 in
  (forall k2, fs_mkdir F dir (Z.lor S_IRWXU S_IRWXG) k1 = (None, k2) ->
     make_trace_dir F fuel exe_path cached_dir k = Some (Ok (dir, cached1, k2)))
  /\ (forall errno k2,
        fs_mkdir F dir (Z.lor S_IRWXU S_IRWXG) k1 = (Some errno, k2) -> errno <> EEXIST ->
        make_trace_dir F fuel exe_path cached_dir k
        = Some (Fatal ("Unable to create trace directory `" +:+ dir +:+ "'"))).
Proof.
  intros Hdefault Htaken Hfuel dir.
  assert (Hcache : snd (trace_save_dir (environ_of F k1) cached1) = cached1).
  { rewrite (ensure_default_rr_trace_dir_Ok _ _ _ _ _ Hdefault).
    apply trace_save_dir_after_default. }
  assert (Hloop : make_trace_dir F fuel exe_path cached_dir k
                  = make_trace_dir_loop F (fuel - n) exe_path (Z.of_nat n) cached1 k1).
  { unfold make_trace_dir. rewrite Hdefault. cbn [mbind option_bind].
    replace fuel with (n + (fuel - n))%nat at 1 by lia.
    now rewrite make_trace_dir_loop_taken. }
  rewrite Hloop. destruct (fuel - n)%nat as [|fuel'] eqn:E; [lia|].
  cbn [make_trace_dir_loop]. fold dir. rewrite Hcache. split.
  - intros k2 ->. reflexivity.
  - intros errno k2 -> Hne. destruct (Z.eqb_spec errno EEXIST); [contradiction|].
    reflexivity.
Qed.

Lemma make_trace_dir_first_free_witness :
  make_trace_dir (fs_dirs env_home) 5 "/usr/bin/ls" ""
    ["/h"%string; "/h/.local/share/rr/ls-0"%string]
  = Some (Ok ("/h/.local/share/rr/ls-1"%string, "/h/.local/share/rr"%string,
              ["/h/.local/share/rr/ls-1"; "/h/.local/share/rr"; "/h/.local/share";
               "/h/.local"; "/h"; "/h/.local/share/rr/ls-0"]%string)).
Proof.
  refine (proj1 (make_trace_dir_first_free (fs_dirs env_home) "/usr/bin/ls" ""
                   ["/h"%string; "/h/.local/share/rr/ls-0"%string]
                   "/h/.local/share/rr"
                   ["/h/.local/share/rr"; "/h/.local/share"; "/h/.local"; "/h";
                    "/h/.local/share/rr/ls-0"]%string
                   1 5 eq_refl _ ltac:(lia)) _ eq_refl).
  intros i Hi. assert (i = 0) as -> by lia. reflexivity.
Defined.

(** X22: the default trace directory is ensured first, whatever
    [_RR_TRACE_DIR] says: when [ensure_dir] fails on it, so does
    [make_trace_dir], with the same message and before any name is
    tried. *)
Theorem make_trace_dir_needs_default_dir (F : FileSys) (fuel : nat)
    (exe_path cached_dir : string) (k : FS F) (msg : string) :
  ensure_dir F (fst (default_rr_trace_dir (environ_of F k) cached_dir)) S_IRWXU k
  = Some (Fatal msg) ->
  make_trace_dir F fuel exe_path cached_dir k = Some (Fatal msg).
Proof.
  intros H. unfold make_trace_dir, ensure_default_rr_trace_dir.
  destruct (default_rr_trace_dir (environ_of F k) cached_dir) as [dir c].
  cbn [fst] in H. now rewrite H.
Qed.

Lemma make_trace_dir_needs_default_dir_witness :
  make_trace_dir
    (fs_dirs (fun name => if String.eqb name "_RR_TRACE_DIR" then Some "/h"%string else None))
    5 "/usr/bin/ls" "" ["/h"%string]
  = Some (Fatal "Can't find trace directory `/tmp'").
Proof.
  exact (make_trace_dir_needs_default_dir
           (fs_dirs (fun name => if String.eqb name "_RR_TRACE_DIR"
                                 then Some "/h"%string else None))
           5 "/usr/bin/ls" "" ["/h"%string] _ eq_refl).
Defined.

(** ** What every writer keeps *)

Lemma times_in_order_snoc clock times :
  1 <= clock -> times_in_order clock times -> times_in_order clock (times ++ [clock]).
Proof.
  intros Hclock [Hs Hf]. split.
  - induction Hs as [|a l Hs IH Ha]; cbn; [repeat constructor|].
    inversion Hf as [|? ? Hb Hf']; subst. constructor; [now apply IH|].
    apply Forall_app. split; [exact Ha|]. constructor; [lia|constructor].
  - apply Forall_app. split; [exact Hf|]. constructor; [lia|constructor].
Qed.

Lemma times_in_order_tick clock times :
  times_in_order clock times -> times_in_order (clock + 1) times.
Proof.
  intros [Hs Hf]. split; [exact Hs|]. eapply Forall_impl; [exact Hf|]. cbn. intros. lia.
Qed.

Lemma w_good_parts w :
  w_good w = true ->
  cw_good (w_events w) = true /\ cw_good (w_data_header w) = true
  /\ cw_good (w_data w) = true /\ cw_good (w_mmaps w) = true
  /\ cw_good (w_tasks w) = true /\ cw_good (w_generic w) = true.
Proof. unfold w_good. rewrite !andb_true_iff. tauto. Qed.

Lemma write_op_inv X K op w k w' k' :
  1 <= w_global_time w -> writer_inv w ->
  write_op X K op (w, k) = Ok (w', k') ->
  writer_inv w'
  /\ w_global_time w' = w_global_time w + (if is_frame_op op then 1 else 0)
  /\ mmap_count w' = mmap_count w + (if is_mapped_op op then 1 else 0).
Proof.
  intros Hclock (Hgood & Hcount & Hm & Ht) H.
  destruct (w_good_parts w Hgood) as (Ge & Gh & Gd & Gm & Gt & Gg).
  destruct op as [frame|[event|t km stat origin|d|d]]; cbn [write_op write_side fst snd] in H.
  - bind_inv H. injection H as <- <-. rewrite write_frame_good in Ha by assumption.
    injection Ha as <-. cbn [is_frame_op is_mapped_op]. split; [|split; cbn; lia].
    split; [|split; [exact Hcount|split; now apply times_in_order_tick]].
    apply w_good_intro; cbn; try assumption. now rewrite cw_write_keeps_good.
  - bind_inv H. injection H as <- <-. apply write_task_event_inv in Ha as (which & -> & _).
    cbn [is_frame_op is_mapped_op]. split; [|split; cbn; lia].
    split; [|split; [exact Hcount|split; [exact Hm|]]].
    + apply w_good_intro; cbn; try assumption. now rewrite cw_write_keeps_good.
    + cbn [w_set_tasks w_tasks w_global_time]. rewrite cw_write_data by assumption.
      rewrite map_app. now apply times_in_order_snoc.
  - rewrite write_mapped_region_parts in H. cbv zeta in H. injection H as <- <-.
    cbn [is_frame_op is_mapped_op]. split; [|split; cbn; lia].
    split; [|split; [|split; [|exact Ht]]].
    + apply w_good_intro; cbn; try assumption. now rewrite cw_write_keeps_good.
    + cbn [w_set_mmaps w_mmaps mmap_count]. rewrite cw_write_data by assumption.
      rewrite length_app. cbn [length]. lia.
    + cbn [w_set_mmaps w_mmaps w_global_time]. rewrite cw_write_data by assumption.
      rewrite map_app. now apply times_in_order_snoc.
  - injection H as <- <-. cbn [is_frame_op is_mapped_op].
    split; [|split; cbn; lia].
    split; [|split; [exact Hcount|split; [exact Hm|exact Ht]]].
    apply w_good_intro; cbn; try assumption; now rewrite cw_write_keeps_good.
  - injection H as <- <-. cbn [is_frame_op is_mapped_op].
    split; [|split; cbn; lia].
    split; [|split; [exact Hcount|split; [exact Hm|exact Ht]]].
    apply w_good_intro; cbn; try assumption. now rewrite !cw_write_keeps_good.
Qed.

Lemma write_ops_inv X K ops : forall w k w' k',
  1 <= w_global_time w -> writer_inv w ->
  write_ops X K ops (w, k) = Ok (w', k') ->
  writer_inv w'
  /\ w_global_time w' = w_global_time w + Z.of_nat (length (List.filter is_frame_op ops))
  /\ mmap_count w' = mmap_count w + Z.of_nat (length (List.filter is_mapped_op ops)).
Proof.
  induction ops as [|op ops IH]; intros w k w' k' Hclock Hinv H.
  - injection H as <- <-. cbn. split; [exact Hinv|]. lia.
  - cbn [write_ops] in H. bind_inv H. destruct a as [w1 k1].
    destruct (write_op_inv X K op w k w1 k1 Hclock Hinv Ha) as (Hinv1 & Hc1 & Hm1).
    destruct (IH w1 k1 w' k') as (Hinv' & Hc' & Hm'); [destruct (is_frame_op op); lia|auto..|].
    split; [exact Hinv'|].
    cbn [List.filter]. destruct (is_frame_op op), (is_mapped_op op);
      cbn [length]; lia.
Qed.

(** X23: whatever the recorder writes in whatever order: the clock of
    the writer is one more than the number of frames written,
    [mmap_count] is the number of mapped regions written and of records
    in the mmaps substream, and the records of the mmaps and of the
    tasks substream carry frame times that never decrease along the
    substream, start at 1 and do not pass the clock. *)
Theorem writer_clock_order (X : Collab) (K : Kernel) (dir : string) (bind_to_cpu : Z)
    (has_cpuid_faulting : bool) (cpuid_records uuid : list byte) (probe_ok : bool)
    (ops : list (WriterOp (Event X))) (k : World K) (w' : TraceWriter) (k' : World K) :
  write_ops X K ops
    (TraceWriter_new dir bind_to_cpu has_cpuid_faulting cpuid_records uuid probe_ok, k)
  = Ok (w', k') ->
  w_global_time w' = 1 + Z.of_nat (length (List.filter is_frame_op ops))
  /\ mmap_count w' = Z.of_nat (length (List.filter is_mapped_op ops))
  /\ mmap_count w' = Z.of_nat (length (cw_data (w_mmaps w')))
  /\ StronglySorted Z.le (map mm_frameTime (cw_data (w_mmaps w')))
  /\ StronglySorted Z.le (map te_frameTime (cw_data (w_tasks w')))
  /\ Forall (fun m => 1 <= mm_frameTime m <= w_global_time w') (cw_data (w_mmaps w'))
  /\ Forall (fun t => 1 <= te_frameTime t <= w_global_time w') (cw_data (w_tasks w')).
Proof.
  intros H. apply write_ops_inv in H as ((_ & Hcount & [Hms Hmf] & [Hts Htf]) & Hc & Hm).
  - cbn [TraceWriter_new w_global_time mmap_count] in Hc, Hm.
    repeat split; try assumption; try lia.
    + now apply Forall_map in Hmf.
    + now apply Forall_map in Htf.
  - cbn. lia.
  - split; [reflexivity|]. split; [reflexivity|]. split; split; constructor.
Qed.

Lemma writer_clock_order_witness :
  exists w',
    write_ops plain_collab kernel_all_ok ops_demo (writer_0, tt) = Ok (w', tt)
    /\ w_global_time w' = 2 /\ mmap_count w' = 1
    /\ map te_frameTime (cw_data (w_tasks w')) = [1; 2].
Proof.
  eexists. split; [reflexivity|].
  split; [|split; [|reflexivity]].
  - exact (proj1 (writer_clock_order plain_collab kernel_all_ok "/t" 0 false [] [] false
                    ops_demo tt _ tt eq_refl)).
  - reflexivity.
Defined.

(** ** Raw data read at another time *)

(** X24: a raw record can only be read while the reader's clock is the
    time it was written at: at any other clock [read_raw_data] fails
    its assertion on the record, and so does [read_raw_data_for_frame]
    for the frame of the record, which is then not the frame the reader
    has just read. *)
Theorem raw_record_at_another_time (X : Collab) (w : TraceWriter) (rec_tid : Z)
    (d : list byte) (addr : Z) (r : TraceReader) (frame : TraceFrame (Event X))
    (out : RawData) :
  cw_good (w_data_header w) = true ->
  in_range c_int64 (w_global_time w) -> in_range c_int rec_tid ->
  in_range c_size_t addr -> in_range c_size_t (Z.of_nat (length d)) ->
  cw_data (w_data_header (write_raw w rec_tid d addr))
  = cw_data (w_data_header w) ++ rd_rest (r_data_header r) ->
  r_global_time r <> w_global_time w ->
  read_raw_data r = AssertFail "time == global_time"
  /\ (frame_time frame = w_global_time w ->
      read_raw_data_for_frame X r frame out = AssertFail "time == global_time").
Proof.
  intros Hgood Htime Htid Haddr Hlen Hdata Hclock.
  unfold write_raw in Hdata. cbn [w_set_raw w_data_header] in Hdata.
  rewrite cw_write_data in Hdata by assumption. apply app_inv_head in Hdata.
  symmetry in Hdata.
  assert (Hbytes : rd_rest (r_data_header r)
                   = put c_int64 (w_global_time w) ++ put c_int rec_tid
                     ++ put c_size_t addr ++ put c_size_t (Z.of_nat (length d)) ++ []).
  { rewrite Hdata. now rewrite app_nil_r. }
  clear Hdata.
  assert (Hraw : forall s, read_raw_data (r_set_raw (set_saved s (r_data_header r)) (r_data r) r)
                           = AssertFail "time == global_time").
  { intros s. unfold read_raw_data. cbn [r_set_raw r_data_header r_data r_global_time].
    unfold set_saved. rewrite Hbytes.
    rewrite rd_get_put by assumption. cbn [mbind outcome_bind].
    rewrite rd_get_put by assumption. cbn [mbind outcome_bind].
    rewrite rd_get_put by assumption. cbn [mbind outcome_bind].
    rewrite rd_get_put by assumption. cbn [mbind outcome_bind].
    destruct (Z.eqb_spec (w_global_time w) (r_global_time r)); [congruence|]. reflexivity. }
  split.
  - specialize (Hraw (rd_saved (r_data_header r))).
    replace (r_set_raw (set_saved (rd_saved (r_data_header r)) (r_data_header r))
               (r_data r) r) with r in Hraw; [exact Hraw|].
    destruct r as [? ? ? [? ?] ? ? ? ? ? ? ?]. reflexivity.
  - intros Hframe. unfold read_raw_data_for_frame.
    assert (Hend : rd_at_end (r_data_header r) = false).
    { unfold rd_at_end. rewrite Hbytes. reflexivity. }
    rewrite Hend.
    change (save_state (r_data_header r))
      with (set_saved (Some (rd_rest (r_data_header r))) (r_data_header r)).
    rewrite rd_get_saved.
    assert (Hget : rd_get c_int64 (r_data_header r)
                   = Ok (w_global_time w,
                         {| rd_rest := put c_int rec_tid ++ put c_size_t addr
                                       ++ put c_size_t (Z.of_nat (length d)) ++ [];
                            rd_saved := rd_saved (r_data_header r) |})).
    { destruct (r_data_header r) as [h hs]. cbn [rd_rest rd_saved] in *. subst h.
      now rewrite rd_get_put. }
    rewrite Hget. cbn [lift_saved mbind outcome_bind]. rewrite restore_set_saved.
    rewrite Hframe, Z.leb_refl, Z.ltb_irrefl. cbn [c_assert mbind outcome_bind].
    change (rd_open (rd_rest (r_data_header r)))
      with (set_saved None (r_data_header r)).
    now rewrite Hraw.
Qed.

Lemma raw_record_at_another_time_witness :
  read_raw_data
    (reader_on_raw 2 (cw_data (w_data_header (write_raw writer_0 7 ["a"%byte] 4096)))
                     ["a"%byte])
  = AssertFail "time == global_time".
Proof.
  exact (proj1 (raw_record_at_another_time plain_collab writer_0 7 ["a"%byte] 4096
                  (reader_on_raw 2
                     (cw_data (w_data_header (write_raw writer_0 7 ["a"%byte] 4096)))
                     ["a"%byte])
                  frame_1 no_raw eq_refl
                  ltac:(vm_compute; intuition congruence)
                  ltac:(vm_compute; intuition congruence)
                  ltac:(vm_compute; intuition congruence)
                  ltac:(vm_compute; intuition congruence)
                  eq_refl ltac:(vm_compute; congruence))).
Defined.

(** ** Mapped regions that are refused *)

(** X25: what [read_mapped_region] refuses when it fills in [data]: a
    record whose frame time is not positive, whatever its source; and,
    for a record backed by a file only, a negative size and, once the
    size is accepted and no validation is asked for, a negative file
    offset.  A record whose source is zero or the trace is taken with
    any size and offset. *)
Theorem mapped_region_refused (fs_stat : string -> option StatBuf) (r : TraceReader)
    (d0 : MappedData) (validate : ValidateSourceFile) (time_constraint : TimeConstraint)
    (map : MMapMsg) (rest : list MMapMsg) :
  rd_rest (r_mmaps r) = map :: rest ->
  (time_constraint = CURRENT_TIME_ONLY -> mm_frameTime map = r_global_time r) ->
  let result := read_mapped_region fs_stat r (Some d0) validate time_constraint in
  (mm_frameTime map <= 0 -> result = Fatal "Invalid frameTime")
  /\ (0 < mm_frameTime map -> (forall name, mm_source map <> SrcFile name) ->
      exists res r',
        result = Ok (res, r') /\ mr_found res = true
        /\ mr_mapping res = KernelMapping_of_msg map /\ rd_rest (r_mmaps r') = rest)
  /\ (forall name,
        0 < mm_frameTime map -> mm_source map = SrcFile name ->
        (mm_statSize map < 0 -> result = Fatal "Invalid statSize")
        /\ (0 <= mm_statSize map -> mm_fileOffsetBytes map < 0 ->
            validate = DONT_VALIDATE -> result = Fatal "Invalid fileOffsetBytes")).
Proof.
  intros Hrest Hcur result. subst result.
  unfold read_mapped_region, rd_at_end, rd_message. rewrite Hrest.
  assert (Htc : is_CURRENT_TIME_ONLY time_constraint
                && negb (mm_frameTime map =? r_global_time r) = false).
  { destruct time_constraint; [|reflexivity]. cbn. rewrite Hcur by reflexivity.
    now rewrite Z.eqb_refl. }
  assert (Hmsg :
    match
      rd_rest (if is_CURRENT_TIME_ONLY time_constraint
               then save_state (r_mmaps r) else r_mmaps r)
    with
    | [] => Throw "IOException"
    | m :: rest0 =>
        Ok (m, {| rd_rest := rest0;
                  rd_saved := rd_saved (if is_CURRENT_TIME_ONLY time_constraint
                                        then save_state (r_mmaps r) else r_mmaps r) |})
    end
    = Ok (map, {| rd_rest := rest;
                  rd_saved := rd_saved (if is_CURRENT_TIME_ONLY time_constraint
                                        then save_state (r_mmaps r) else r_mmaps r) |})).
  { destruct time_constraint; cbn [is_CURRENT_TIME_ONLY save_state rd_rest];
      now rewrite Hrest. }
  rewrite Hmsg. cbn [mbind outcome_bind]. rewrite Htc.
  split; [|split].
  - intros Htime. destruct (Z.leb_spec (mm_frameTime map) 0); [reflexivity|lia].
  - intros Htime Hsrc. destruct (Z.leb_spec (mm_frameTime map) 0); [lia|].
    destruct (mm_source map) as [| |name]; [| |now destruct (Hsrc name)];
      cbn [mbind outcome_bind]; eexists _, _; (split; [reflexivity|]);
      (split; [reflexivity|]); (split; [reflexivity|]);
      destruct time_constraint; reflexivity.
  - intros name Htime Hsrc. destruct (Z.leb_spec (mm_frameTime map) 0); [lia|].
    rewrite Hsrc. unfold read_file_source. split.
    + intros Hsize. destruct (Z.ltb_spec (mm_statSize map) 0); [reflexivity|lia].
    + intros Hsize Hoff ->. destruct (Z.ltb_spec (mm_statSize map) 0); [lia|].
      cbn [is_VALIDATE]. rewrite andb_false_r. cbn [andb mbind outcome_bind].
      destruct (Z.ltb_spec (mm_fileOffsetBytes map) 0); [reflexivity|lia].
Qed.

Lemma mapped_region_refused_witness :
  read_mapped_region no_files
    (reader_on_mmaps 1 [MMap_of 0 km_shared_lib stat_lib SrcZero])
    (Some no_mapped_data) VALIDATE ANY_TIME
  = Fatal "Invalid frameTime".
Proof.
  exact (proj1 (mapped_region_refused no_files
                  (reader_on_mmaps 1 [MMap_of 0 km_shared_lib stat_lib SrcZero])
                  no_mapped_data VALIDATE ANY_TIME
                  (MMap_of 0 km_shared_lib stat_lib SrcZero) [] eq_refl
                  ltac:(discriminate))
               ltac:(vm_compute; congruence)).
Defined.

(** ** The header after recording *)

Lemma write_op_version X K op w k w' k' :
  write_op X K op (w, k) = Ok (w', k') ->
  w_version w' = w_version w /\ w_trace_dir w' = w_trace_dir w.
Proof.
  destruct op as [frame|[event|t km stat origin|d|d]]; cbn [write_op write_side fst snd];
    intros H.
  - bind_inv H. injection H as <- _. apply write_frame_inv in Ha as (events & ->).
    split; reflexivity.
  - bind_inv H. injection H as <- _. apply write_task_event_inv in Ha as (which & -> & _).
    split; reflexivity.
  - rewrite write_mapped_region_parts in H. cbv zeta in H. injection H as <- _.
    split; reflexivity.
  - injection H as <- _. split; reflexivity.
  - injection H as <- _. split; reflexivity.
Qed.

Lemma write_ops_version X K ops : forall w k w' k',
  write_ops X K ops (w, k) = Ok (w', k') ->
  w_version w' = w_version w /\ w_trace_dir w' = w_trace_dir w.
Proof.
  induction ops as [|op ops IH]; intros w k w' k' H.
  - injection H as <- _. split; reflexivity.
  - cbn [write_ops] in H. bind_inv H. destruct a as [w1 k1].
    apply write_op_version in Ha as [Hv Hd]. apply IH in H as [Hv' Hd'].
    split; congruence.
Qed.

(** X26: whatever was recorded in between, the trace a writer leaves
    when it is closed can be opened: the constructor of the reader
    accepts the version file the constructor of the writer wrote, and the
    reader has the [bind_to_cpu], the CPUID faulting flag and the CPUID
    records the writer was given, clock 0, and the substreams as they
    were written. *)
Theorem recorded_trace_opens (X : Collab) (K : Kernel) (dir : string) (bind_to_cpu : Z)
    (has_cpuid_faulting : bool) (cpuid_records uuid : list byte) (probe_ok : bool)
    (n : nat) (ops : list (WriterOp (Event X))) (k : World K) (w' : TraceWriter)
    (k' : World K) :
  length cpuid_records = (n * sizeof_CPUIDRecord X)%nat ->
  write_ops X K ops
    (TraceWriter_new dir bind_to_cpu has_cpuid_faulting cpuid_records uuid probe_ok, k)
  = Ok (w', k') ->
  exists r,
    open_trace X (w_trace_dir w') (close w') = Ok r
    /\ r_trace_dir r = dir
    /\ r_bind_to_cpu r = bind_to_cpu
    /\ trace_uses_cpuid_faulting r = has_cpuid_faulting
    /\ concat (cpuid_records_ r) = cpuid_records
    /\ Forall (fun c => length c = sizeof_CPUIDRecord X) (cpuid_records_ r)
    /\ r_global_time r = 0
    /\ r_contents r = w_contents w'.
Proof.
  intros Hlen H. apply write_ops_version in H as [Hv Hd].
  cbn [TraceWriter_new w_version w_trace_dir] in Hv, Hd.
  unfold open_trace. cbn [close file_version]. rewrite Hv, Hd.
  rewrite (TraceReader_new_written X dir _ _ n) by exact Hlen.
  eexists. split; [reflexivity|].
  cbn [r_trace_dir r_bind_to_cpu trace_uses_cpuid_faulting cpuid_records_ r_global_time
       h_bindToCpu h_hasCpuidFaulting h_cpuidRecords].
  assert (Hdiv : length cpuid_records
                 = (length cpuid_records / sizeof_CPUIDRecord X * sizeof_CPUIDRecord X)%nat).
  { rewrite Hlen. destruct (sizeof_CPUIDRecord X) as [|sz]; [cbn; lia|].
    now rewrite Nat.div_mul by lia. }
  split; [reflexivity|]. split; [reflexivity|]. split; [reflexivity|].
  split; [now apply chunks_concat|]. split; [now apply chunks_shape|].
  split; reflexivity.
Qed.

Lemma recorded_trace_opens_witness :
  exists r,
    open_trace plain_collab "/t"
      (close (fst (match write_ops plain_collab kernel_all_ok ops_demo (writer_0, tt) with
                   | Ok s => s
                   | _ => (writer_0, tt)
                   end))) = Ok r
    /\ r_global_time r = 0
    /\ length (rd_rest (r_tasks r)) = 2%nat.
Proof.
  destruct (recorded_trace_opens plain_collab kernel_all_ok "/t" 0 false [] [] false 0
              ops_demo tt _ tt eq_refl eq_refl)
    as (r & Hopen & _ & _ & _ & _ & _ & Htime & Hcontents).
  exists r. split; [exact Hopen|]. split; [exact Htime|].
  apply (f_equal (fun c => length (c_tasks c))) in Hcontents. exact Hcontents.
Defined.

(** ** The size of a frame *)

(** X27: [write_frame] appends to the events substream the 32 bytes of
    [BasicInfo] for a frame without exec info, and for a frame with exec
    info 38 bytes more than its register block and the data of its extra
    registers are long; then the clock is one later. *)
Theorem write_frame_size (X : Collab) (w : TraceWriter) (frame : TraceFrame (Event X)) :
  cw_good (w_events w) = true ->
  in_range c_int (Z.of_nat (length (er_data (recorded_extra_regs frame)))) ->
  exists w',
    write_frame X w frame = Ok w'
    /\ w_global_time w' = w_global_time w + 1
    /\ length (cw_data (w_events w'))
       = (length (cw_data (w_events w)) + 32
          + if has_exec_info X (frame_event frame) then exec_info_size X frame else 0)%nat.
Proof.
  intros Hgood Hlen. rewrite write_frame_good by assumption.
  eexists. split; [reflexivity|]. split; [reflexivity|].
  cbn [w_tick_time w_set_time w_set_events w_events].
  rewrite cw_write_data by assumption. unfold frame_bytes.
  rewrite !length_app, length_BasicInfo_bytes. unfold sizeof_BasicInfo.
  destruct (has_exec_info X (frame_event frame)); [|cbn [length]; lia].
  unfold exec_info_bytes, exec_info_size. rewrite (cast_in_range c_int) by assumption.
  rewrite !length_app, !length_put. cbn [sizeof].
  destruct (Z.ltb_spec 0 (Z.of_nat (length (er_data (recorded_extra_regs frame))))).
  - rewrite Nat2Z.id, firstn_all. lia.
  - destruct (er_data (recorded_extra_regs frame)); cbn [length] in *; lia.
Qed.

Lemma write_frame_size_witness :
  exists w',
    write_frame plain_collab writer_0 frame_2 = Ok w'
    /\ length (cw_data (w_events w')) = 108%nat.
Proof.
  destruct (write_frame_size plain_collab writer_0 frame_2 eq_refl
              ltac:(vm_compute; intuition congruence)) as (w' & Hw & _ & Hl).
  exists w'. split; [exact Hw|exact Hl].
Defined.
